(** * Session index and search core of the Codex history viewer

    A shallow embedding of the TypeScript sources

    - [utils/fsUtils.ts], [utils/dateUtils.ts], [utils/textUtils.ts]
    - [sessions/sessionSummary.ts] (the Summary Extractor)
    - [storage/jsonStorage.ts], [services/historyService.ts]
      (cache reconciliation and the date index)
    - [services/searchService.ts] (the streaming search)
    - [types/dateScope.ts], [utils/dateTimeSettings.ts],
      [services/pinStore.ts], [sessions/sessionDiscovery.ts]
    - [chat/chatModelBuilder.ts], [transcript/transcriptRenderer.ts],
      [services/resumeContext.ts]
    - [tree/treeNodes.ts], [tree/historyTree.ts], [tree/pinnedTree.ts]

    Conventions.  A JavaScript string is a Rocq [string]; one character of
    the model stands for one UTF-16 code unit, which is exact on ASCII text;
    the one code unit above 127 that the program writes itself is the
    ellipsis [textUtils.ELLIPSIS].
    JavaScript numbers that the program uses as integers are [Z].  A rejected
    promise is the [Throw] constructor of [Result]; [null] and [undefined]
    are [None].  What the program obtains from its platform (the JSON
    parser, the clock and time zone, the path module, case mapping) is a
    field of the record [Host]; the file system is a value of [FileSys]. *)

From Stdlib Require Import String Ascii List ZArith Lia Bool.
From Stdlib Require Import Sorting.Sorted Sorting.Permutation.
From Stdlib Require Import Numbers.DecimalString.
From stdpp Require Import gmap strings.

Local Open Scope Z_scope.
Set Warnings "-register-all".

(** ** ECMAScript primitives *)

Module JS.

Definition chars (s : string) : list ascii := String.list_ascii_of_string s.
Definition str (l : list ascii) : string := String.string_of_list_ascii l.

Definition code (c : ascii) : Z := Z.of_nat (nat_of_ascii c).

Definition LF : ascii := ascii_of_nat 10.
Definition CR : ascii := ascii_of_nat 13.
Definition TAB : ascii := ascii_of_nat 9.
Definition SP : ascii := ascii_of_nat 32.

(** The white space and line terminator code units below 128: the class
    [\s] of regular expressions and the characters [trim] removes. *)
Definition isSpace (c : ascii) : bool :=
  let n := code c in ((9 <=? n) && (n <=? 13)) || (n =? 32).

Definition isDigit (c : ascii) : bool :=
  let n := code c in (48 <=? n) && (n <=? 57).

Definition isUpper (c : ascii) : bool :=
  let n := code c in (65 <=? n) && (n <=? 90).

Definition isLower (c : ascii) : bool :=
  let n := code c in (97 <=? n) && (n <=? 122).

(** [\w] *)
Definition isWord (c : ascii) : bool :=
  isDigit c || isUpper c || isLower c || (code c =? 95).

Definition lowerAscii (c : ascii) : ascii :=
  if isUpper c then ascii_of_nat (nat_of_ascii c + 32) else c.

(** Case-insensitive comparison of a line with an ASCII pattern, the [i]
    flag of the regular expressions of the program. *)
Definition foldCase (l : list ascii) : list ascii := map lowerAscii l.

Fixpoint dropWhile {A} (p : A -> bool) (l : list A) : list A :=
  match l with
  | [] => []
  | x :: r => if p x then dropWhile p r else l
  end.

Fixpoint takeWhile {A} (p : A -> bool) (l : list A) : list A :=
  match l with
  | [] => []
  | x :: r => if p x then x :: takeWhile p r else []
  end.

Definition trimStartL (l : list ascii) : list ascii := dropWhile isSpace l.
Definition trimEndL (l : list ascii) : list ascii :=
  rev (dropWhile isSpace (rev l)).
Definition trimL (l : list ascii) : list ascii := trimEndL (trimStartL l).

(** [s.trim()] *)
Definition trim (s : string) : string := str (trimL (chars s)).

(** [s.length] *)
Definition len (s : string) : Z := Z.of_nat (String.length s).

(** A string is falsy exactly when it is empty. *)
Definition truthy (s : string) : bool :=
  match s with EmptyString => false | _ => true end.

(** [s.startsWith(p)] *)
Definition startsWith (p s : string) : bool := String.prefix p s.

(** [s.slice(a, b)] for [0 <= a] and [0 <= b]. *)
Definition slice (s : string) (a b : Z) : string :=
  String.substring (Z.to_nat a) (Z.to_nat (b - a)) s.

(** [s.slice(-n)] for [0 < n]: the last [n] characters. *)
Definition sliceTail (s : string) (n : Z) : string :=
  String.substring (Z.to_nat (Z.max 0 (len s - n))) (String.length s) s.

(** [hay.indexOf(needle)]: [None] stands for [-1]. *)
Fixpoint indexOfL (needle hay : list ascii) (fuel : nat) (i : Z) : option Z :=
  if String.prefix (str needle) (str hay) then Some i
  else match fuel, hay with
       | S f, _ :: r => indexOfL needle r f (i + 1)
       | _, _ => None
       end.

Definition indexOf (hay needle : string) : option Z :=
  indexOfL (chars needle) (chars hay) (String.length hay) 0.

(** [s.split(sep)] for a one-character separator. *)
Fixpoint splitL (sep : ascii) (l cur : list ascii) : list string :=
  match l with
  | [] => [str (rev cur)]
  | c :: r => if Ascii.eqb c sep then str (rev cur) :: splitL sep r []
              else splitL sep r (c :: cur)
  end.

Definition split (sep : ascii) (s : string) : list string :=
  splitL sep (chars s) [].

(** [parts.join(sep)] *)
Fixpoint join (sep : string) (l : list string) : string :=
  match l with
  | [] => EmptyString
  | [x] => x
  | x :: r => x +:+ sep +:+ join sep r
  end.

(** [n.toString()] and the template-literal rendering of an integer. *)
Definition toString (n : Z) : string := NilZero.string_of_int (Z.to_int n).

(** [s.padStart(2, "0")] *)
Definition padStart2 (s : string) : string :=
  match s with
  | EmptyString => "00"
  | String c EmptyString => String "0" (String c EmptyString)
  | _ => s
  end.

(** [Number(s)] for a string of decimal digits. *)
Definition digitsToZ (s : string) : Z :=
  fold_left (fun acc c => 10 * acc + (code c - 48)) (chars s) 0.

(** [/^\d{n}$/.test(s)] *)
Definition isDigits (n : nat) (s : string) : bool :=
  Nat.eqb (String.length s) n && forallb isDigit (chars s).

(** [s.replace(/\r\n/g, "\n")] *)
Fixpoint crlfToLf (l : list ascii) : list ascii :=
  match l with
  | [] => []
  | c :: r =>
      match r with
      | d :: r' => if Ascii.eqb c CR && Ascii.eqb d LF then LF :: crlfToLf r'
                   else c :: crlfToLf r
      | [] => [c]
      end
  end.

(** [s.replace(/\r/g, "\n")] *)
Definition crToLf (l : list ascii) : list ascii :=
  map (fun c => if Ascii.eqb c CR then LF else c) l.

(** [s.replace(/[ \t]+\n/g, "\n")]: a run of blanks is dropped when a line
    feed follows it and kept otherwise; [pend] is the run read so far, in
    reverse. *)
Fixpoint dropBlanksBeforeLf (pend l : list ascii) : list ascii :=
  match l with
  | [] => rev pend
  | c :: r =>
      if Ascii.eqb c SP || Ascii.eqb c TAB then dropBlanksBeforeLf (c :: pend) r
      else if Ascii.eqb c LF then LF :: dropBlanksBeforeLf [] r
      else rev pend ++ c :: dropBlanksBeforeLf [] r
  end.

(** [s.replace(/\n{3,}/g, "\n\n")]: [k] line feeds are pending. *)
Definition emitLf (k : nat) : list ascii :=
  repeat LF (if Nat.leb 3 k then 2%nat else k).

Fixpoint squeezeLf (k : nat) (l : list ascii) : list ascii :=
  match l with
  | [] => emitLf k
  | c :: r => if Ascii.eqb c LF then squeezeLf (S k) r
              else emitLf k ++ c :: squeezeLf 0 r
  end.

(** [s.replace(/\s+/g, " ")] *)
Fixpoint collapseSpace (inRun : bool) (l : list ascii) : list ascii :=
  match l with
  | [] => []
  | c :: r => if isSpace c
              then (if inRun then collapseSpace true r
                    else SP :: collapseSpace true r)
              else c :: collapseSpace false r
  end.

(** [s.endsWith(p)] *)
Definition endsWith (p s : string) : bool :=
  String.prefix (str (rev (chars p))) (str (rev (chars s))).

(** [s.replace(/c/g, repl)] for a pattern that is the one character [c]. *)
Definition replaceChar (c : ascii) (repl : string) (l : list ascii) : list ascii :=
  flat_map (fun x => if Ascii.eqb x c then chars repl else [x]) l.

Definition upperAscii (c : ascii) : ascii :=
  if isLower c then ascii_of_nat (nat_of_ascii c - 32) else c.

(** A set of strings as [Set] keeps it: the members in the order of their
    first insertion. *)
Definition has (k : string) (set : list string) : bool :=
  existsb (String.eqb k) set.

Definition add (k : string) (set : list string) : list string :=
  if has k set then set else set ++ [k].

(** [new Set(keys)] *)
Definition setOf (keys : list string) : list string :=
  fold_left (fun set k => add k set) keys [].

End JS.

(** ** JSON values and the platform *)

Inductive JSON : Type :=
| JNull
| JBool (b : bool)
| JNum (n : Z)
| JStr (s : string)
| JArr (items : list JSON)
| JObj (members : list (string * JSON)).

(** The value bound to [k] among the members of an object; as in
    [JSON.parse], the last of several bindings of one key counts. *)
Fixpoint lastBinding (k : string) (m : list (string * JSON)) : option JSON :=
  match m with
  | [] => None
  | (k', v) :: r =>
      match lastBinding k r with
      | Some w => Some w
      | None => if String.eqb k k' then Some v else None
      end
  end.

(** [v?.k]: [undefined] on [undefined], on [null] and on a value that has no
    such property. *)
Definition prop (k : string) (v : option JSON) : option JSON :=
  match v with
  | Some (JObj m) => lastBinding k m
  | _ => None
  end.

(** [typeof v === "string" ? v : undefined] *)
Definition asString (v : option JSON) : option string :=
  match v with
  | Some (JStr s) => Some s
  | _ => None
  end.

(** [v === lit] for a string literal [lit]. *)
Definition isStr (lit : string) (v : option JSON) : bool :=
  match v with
  | Some (JStr s) => String.eqb s lit
  | _ => false
  end.

(** What the program takes from ECMAScript and Node.  [JSON_parse] is [None]
    where [JSON.parse] throws; [Date_parse s] is the time value of
    [new Date(s)], [None] for an invalid date; the [get...] fields read a
    time value in the local time zone; the [path_...] fields are the [path]
    module of the platform. *)
Record Host : Type := {
  JSON_parse : string -> option JSON;
  Date_parse : string -> option Z;
  getFullYear : Z -> Z;
  getMonth : Z -> Z;
  getDate : Z -> Z;
  getHours : Z -> Z;
  getMinutes : Z -> Z;
  path_sep : ascii;
  path_relative : string -> string -> string;
  path_basename : string -> string;
  path_normalize : string -> string;
  platform_win32 : bool;
  toLowerCase : string -> string
}.

(** A promise: fulfilled with a value or rejected. *)
Inductive Result (A : Type) : Type :=
| Ok (a : A)
| Throw.
Arguments Ok {A} a.
Arguments Throw {A}.

#[global] Instance Result_ret : MRet Result := fun A a => Ok a.
#[global] Instance Result_bind : MBind Result := fun A B k r =>
  match r with
  | Ok a => k a
  | Throw => Throw
  end.

(** The file system at the time of a pass.  [fs_stat] is [None] where [stat]
    fails; [fs_read] is [None] where the file cannot be opened for reading. *)
Record Stat : Type := { mtimeMs : Z; size : Z }.

Record FileSys : Type := {
  fs_exists : string -> bool;
  fs_stat : string -> option Stat;
  fs_read : string -> option string
}.

(** What the rest of the program takes from its platform besides [Host].
    [path_join] is [path.join]; [Date_ymd y m d] is the time value of
    [new Date(y, m, d)], with the month counted from zero; [getSeconds]
    reads a time value in the local time zone; [Intl_supports tz] tells
    whether [new Intl.DateTimeFormat] accepts the time zone [tz], and
    [Intl_formatToParts tz d] is the list of the parts, type and value, that
    the formatter of [getDtfYmdHms] for [tz] gives for [d], [None] where it
    throws; [Intl_systemTimeZone] is the resolved time zone of the system,
    [None] where it cannot be read; [Number_ofString s] is [Number(s)],
    [None] where that is not finite; [JSON_stringify2] is
    [JSON.stringify(v, null, 2)]. *)
Record Platform : Type := {
  path_join : string -> string -> string;
  Date_ymd : Z -> Z -> Z -> Z;
  getSeconds : Z -> Z;
  Intl_supports : string -> bool;
  Intl_formatToParts : string -> Z -> option (list (string * string));
  Intl_systemTimeZone : option string;
  Number_ofString : string -> option Z;
  JSON_stringify2 : JSON -> string
}.

(** The lines that the [readline] interface of Node yields for a text with
    [crlfDelay: Infinity]: a line ends at LF, at CR LF and at a lone CR, and
    what follows the last line end is a line unless it is empty. *)
Module Node.

Fixpoint linesL (l cur : list ascii) : list string :=
  match l with
  | [] => match cur with [] => [] | _ => [JS.str (rev cur)] end
  | c :: r =>
      if Ascii.eqb c JS.LF then JS.str (rev cur) :: linesL r []
      else if Ascii.eqb c JS.CR then
        match r with
        | d :: r' => if Ascii.eqb d JS.LF then JS.str (rev cur) :: linesL r' []
                     else JS.str (rev cur) :: linesL r []
        | [] => [JS.str (rev cur)]
        end
      else linesL r (c :: cur)
  end.

Definition lines (content : string) : list string := linesL (JS.chars content) [].

End Node.

(** ** [utils/fsUtils.ts] *)

Module fsUtils.

(** [statSafe]: the rejection of [fs.stat] is caught. *)
Definition statSafe (fs : FileSys) (fsPath : string) : option Stat :=
  fs_stat fs fsPath.

(** [pathExists] *)
Definition pathExists (fs : FileSys) (fsPath : string) : bool :=
  fs_exists fs fsPath.

Definition maxBytesDefault : N := 512 * 1024.

(** The first [n] characters of [s]: what [handle.read] puts in the buffer
    and [toString] decodes. *)
Fixpoint firstBytes (n : N) (s : string) : string :=
  match s with
  | EmptyString => EmptyString
  | String c r => if N.eqb n 0 then EmptyString else String c (firstBytes (N.pred n) r)
  end.

(** [line.replace(/\r$/, EMPTY)]: a final carriage return is dropped. *)
Definition dropFinalCr (s : string) : string :=
  match rev (JS.chars s) with
  | c :: r => if Ascii.eqb c JS.CR then JS.str (rev r) else s
  | [] => s
  end.

(** The first line of the bytes read by [readFirstLineUtf8]. *)
Definition firstLineOf (maxBytes : N) (content : string) : option string :=
  let text := firstBytes maxBytes content in
  if (JS.len text <=? 0) then None
  else
    let line := match JS.indexOf text (String JS.LF EmptyString) with
                | Some idx => JS.slice text 0 idx
                | None => text
                end in
    Some (dropFinalCr line).

(** [readFirstLineUtf8]: [fs.open] is awaited outside any handler, so a file
    that cannot be opened rejects the promise. *)
Definition readFirstLineUtf8 (fs : FileSys) (fsPath : string) (maxBytes : N)
  : Result (option string) :=
  match fs_read fs fsPath with
  | None => Throw
  | Some content => Ok (firstLineOf maxBytes content)
  end.

Section WithHost.
Context (h : Host).

(** [normalizeCacheKey] *)
Definition normalizeCacheKey (fsPath : string) : string :=
  let normalized := path_normalize h fsPath in
  if platform_win32 h then toLowerCase h normalized else normalized.

End WithHost.

End fsUtils.

(** ** [utils/dateUtils.ts] *)

Record Ymd : Type := { year : Z; month : Z; day : Z }.

Module dateUtils.

Definition pad2 (n : Z) : string := JS.padStart2 (JS.toString n).

Definition ymdToString (ymd : Ymd) : string :=
  JS.toString (year ymd) +:+ "-" +:+ pad2 (month ymd) +:+ "-" +:+ pad2 (day ymd).

Section WithHost.
Context (h : Host).

Definition toYmdLocal (d : Z) : Ymd :=
  {| year := getFullYear h d; month := getMonth h d + 1; day := getDate h d |}.

Definition formatTimeHmLocal (d : Z) : string :=
  pad2 (getHours h d) +:+ ":" +:+ pad2 (getMinutes h d).

End WithHost.


Record YmdHmsParts : Type := {
  partsYear : Z; partsMonth : Z; partsDay : Z;
  hour : string; minute : string; second : string
}.

(** The value of the last part of the type [type], [undefined] when the
    formatter gave none: the loop [out[p.type] = p.value]. *)
Fixpoint partValue (type : string) (parts : list (string * string)) : option string :=
  match parts with
  | [] => None
  | (t, v) :: r =>
      match partValue type r with
      | Some w => Some w
      | None => if String.eqb t type then Some v else None
      end
  end.

Section WithPlatform.
Context (h : Host) (pf : Platform).

(** [getDtfYmdHms]: the formatter of a time zone, which the model names by
    the time zone; the cache of formatters does not show. *)
Definition getDtfYmdHms (timeZone : string) : option string :=
  let tz := JS.trim timeZone in
  if negb (JS.truthy tz) then None
  else if Intl_supports pf tz then Some tz else None.

(** [Number(out.year)] and the test [Number.isFinite]; [Number(undefined)]
    is not finite. *)
Definition finiteNumber (v : option string) : option Z :=
  match v with
  | Some s => Number_ofString pf s
  | None => None
  end.

Definition partsFromDtf (dtf : string) (d : Z) : option YmdHmsParts :=
  match Intl_formatToParts pf dtf d with
  | None => None
  | Some parts =>
      match finiteNumber (partValue "year" parts),
            finiteNumber (partValue "month" parts),
            finiteNumber (partValue "day" parts) with
      | Some year, Some month, Some day =>
          match partValue "hour" parts, partValue "minute" parts,
                partValue "second" parts with
          | Some hour, Some minute, Some second =>
              Some {| partsYear := year; partsMonth := month; partsDay := day;
                      hour := hour; minute := minute; second := second |}
          | _, _, _ => None
          end
      | _, _, _ => None
      end
  end.

Definition localParts (d : Z) : YmdHmsParts :=
  {| partsYear := getFullYear h d; partsMonth := getMonth h d + 1;
     partsDay := getDate h d; hour := pad2 (getHours h d);
     minute := pad2 (getMinutes h d); second := pad2 (getSeconds pf d) |}.

Definition getYmdHmsInTimeZone (d : Z) (timeZone : string) : YmdHmsParts :=
  match getDtfYmdHms timeZone with
  | Some dtf => match partsFromDtf dtf d with
                | Some parts => parts
                | None => localParts d
                end
  | None => localParts d
  end.

Definition toYmdInTimeZone (d : Z) (timeZone : string) : Ymd :=
  let p := getYmdHmsInTimeZone d timeZone in
  {| year := partsYear p; month := partsMonth p; day := partsDay p |}.

Definition formatTimeHmInTimeZone (d : Z) (timeZone : string) : string :=
  let p := getYmdHmsInTimeZone d timeZone in
  hour p +:+ ":" +:+ minute p.

Definition formatTimeHmsInTimeZone (d : Z) (timeZone : string) : string :=
  let p := getYmdHmsInTimeZone d timeZone in
  hour p +:+ ":" +:+ minute p +:+ ":" +:+ second p.

Definition formatYmdHmInTimeZone (d : Z) (timeZone : string) : string :=
  let p := getYmdHmsInTimeZone d timeZone in
  JS.toString (partsYear p) +:+ "-" +:+ pad2 (partsMonth p) +:+ "-" +:+ pad2 (partsDay p)
  +:+ " " +:+ hour p +:+ ":" +:+ minute p.

Definition formatYmdHmsInTimeZone (d : Z) (timeZone : string) : string :=
  let p := getYmdHmsInTimeZone d timeZone in
  JS.toString (partsYear p) +:+ "-" +:+ pad2 (partsMonth p) +:+ "-" +:+ pad2 (partsDay p)
  +:+ " " +:+ hour p +:+ ":" +:+ minute p +:+ ":" +:+ second p.

(** [isValidYyyyMmDd]: the shape, the ranges, and the test that the date
    constructor gives the same day back. *)
Definition isValidYyyyMmDd (s : string) : bool :=
  match JS.split "-" s with
  | [ys; ms; ds] =>
      if negb (JS.isDigits 4 ys && JS.isDigits 2 ms && JS.isDigits 2 ds) then false
      else
        let y := JS.digitsToZ ys in
        let m := JS.digitsToZ ms in
        let d := JS.digitsToZ ds in
        if negb ((1970 <=? y) && (y <=? 9999) && (1 <=? m) && (m <=? 12) &&
                 (1 <=? d) && (d <=? 31))
        then false
        else
          let dt := Date_ymd pf y (m - 1) d in
          (getFullYear h dt =? y) && (getMonth h dt =? m - 1) && (getDate h dt =? d)
  | _ => false
  end.

End WithPlatform.

Definition isValidYyyy (s : string) : bool := JS.isDigits 4 s.

(** [isValidYyyyMm]: a text of the pattern is cut by [split] into its
    year and its month. *)
Definition isValidYyyyMm (s : string) : bool :=
  match JS.split "-" s with
  | [ys; ms] =>
      if negb (JS.isDigits 4 ys && JS.isDigits 2 ms) then false
      else
        let y := JS.digitsToZ ys in
        let m := JS.digitsToZ ms in
        (1970 <=? y) && (y <=? 9999) && (1 <=? m) && (m <=? 12)
  | _ => false
  end.

End dateUtils.

(** ** [utils/textUtils.ts] *)

Module textUtils.

(** The horizontal ellipsis U+2026 of the template literals, one UTF-16
    code unit.  Among the characters of the model the character of code 133
    stands for it, so that the ellipsis counts as one unit of length, as in
    the source. *)
Definition ELLIPSIS : string := String (ascii_of_nat 133) EmptyString.

Definition normalizeWhitespace (s : string) : string :=
  JS.trim (JS.str (JS.squeezeLf 0 (JS.dropBlanksBeforeLf [] (JS.crlfToLf (JS.chars s))))).

Definition singleLineSnippet (s : string) (maxLen : Z) : string :=
  let oneLine := JS.trim (JS.str (JS.collapseSpace false (JS.chars s))) in
  if JS.len oneLine <=? maxLen then oneLine
  else JS.slice oneLine 0 (Z.max 0 (maxLen - 1)) +:+ ELLIPSIS.

(** [Math.floor(maxLen * 0.75)] is [3 * maxLen / 4] on the integers. *)
Definition safeDisplayPath (fsPath : string) (maxLen : Z) : string :=
  if JS.len fsPath <=? maxLen then fsPath
  else
    let tailLen := Z.max 10 (3 * maxLen / 4) in
    ELLIPSIS +:+ JS.sliceTail fsPath tailLen.

(** [String(text).replace(/\r\n/g, "\n").replace(/\r/g, "\n")] *)
Definition unixNewlines (text : string) : string :=
  JS.str (JS.crToLf (JS.crlfToLf (JS.chars text))).

Definition isHash (c : ascii) : bool := Ascii.eqb c "#".

Definition eqChars (a b : list ascii) : bool := String.eqb (JS.str a) (JS.str b).

(** [marker.test(line)]: an optional run of [#] with white space after it,
    then [My request for Codex:], then white space up to the end; letter
    case is ignored. *)
Definition markerTest (line : string) : bool :=
  let l := JS.chars line in
  let rest := match l with
              | c :: _ => if isHash c
                          then JS.dropWhile JS.isSpace (JS.dropWhile isHash l)
                          else l
              | [] => l
              end in
  eqChars (JS.foldCase (JS.trimEndL rest)) (JS.chars "my request for codex:").

Definition isBlank (line : string) : bool :=
  negb (JS.truthy (JS.trim line)).

(** The body after a line: [lines.slice(i).join("\n").trim()], [null] when
    it is empty. *)
Definition bodyOf (lines : list string) : option string :=
  let body := JS.trim (JS.join (String JS.LF EmptyString) lines) in
  if JS.truthy body then Some body else None.

Fixpoint afterMarker (lines : list string) : option (list string) :=
  match lines with
  | [] => None
  | l :: r => if markerTest (JS.trim l) then Some r else afterMarker r
  end.

Definition extractMyRequestForCodex (text : string) : option string :=
  let lines := JS.split JS.LF (unixNewlines text) in
  match afterMarker lines with
  | None => None
  | Some rest => bodyOf rest
  end.

(** The heading test of [extractUserContentFromHeading]: a run of [#],
    white space, [[#], digits, []], white space, [User], white space up to
    the end; letter case is ignored. *)
Definition userHeadingTest (head : string) : bool :=
  let l := JS.chars head in
  match l with
  | c :: _ =>
      if isHash c then
        match JS.dropWhile JS.isSpace (JS.dropWhile isHash l) with
        | o :: x :: r =>
            if Ascii.eqb o "[" && isHash x then
              match r with
              | d :: _ =>
                  if JS.isDigit d then
                    match JS.dropWhile JS.isDigit r with
                    | cl :: r' =>
                        Ascii.eqb cl "]" &&
                        eqChars (JS.foldCase (JS.trimL r')) (JS.chars "user")
                    | [] => false
                    end
                  else false
              | [] => false
              end
            else false
        | _ => false
        end
      else false
  | [] => false
  end.

Definition extractUserContentFromHeading (text : string) : option string :=
  let lines := JS.split JS.LF (unixNewlines text) in
  match JS.dropWhile isBlank lines with
  | [] => None
  | first :: rest =>
      if userHeadingTest (JS.trim first) then
        let afterMeta := JS.dropWhile (fun l => negb (isBlank l)) rest in
        bodyOf (JS.dropWhile isBlank afterMeta)
      else None
  end.

Definition extractUserRequestText (text : string) : option string :=
  let normalized := JS.trim (unixNewlines text) in
  if negb (JS.truthy normalized) then None
  else
    match extractMyRequestForCodex normalized with
    | Some byMarker => Some byMarker
    | None => extractUserContentFromHeading normalized
    end.


(** The fence test of [extractTaskSectionText]: white space, then three
    grave accents. *)
Definition isFenceLine (line : string) : bool :=
  JS.startsWith "```" (JS.str (JS.dropWhile JS.isSpace (JS.chars line))).

(** The heading test of the outer loop: one to six [#], white space,
    [Task], white space up to the end; letter case is ignored.  The result
    is the number of [#]. *)
Definition taskHeading (line : string) : option nat :=
  let l := JS.chars line in
  let level := length (JS.takeWhile isHash l) in
  if Nat.leb 1 level && Nat.leb level 6 then
    let rest := JS.dropWhile JS.isSpace (JS.dropWhile isHash l) in
    if eqChars (JS.foldCase (JS.trimEndL rest)) (JS.chars "task") then Some level
    else None
  else None.

(** The heading test of the inner loop: one to six [#], at least one white
    space, and at least one more character.  The result is the number of
    [#]. *)
Definition sectionHeading (line : string) : option nat :=
  let l := JS.chars line in
  let level := length (JS.takeWhile isHash l) in
  if Nat.leb 1 level && Nat.leb level 6 then
    match JS.dropWhile isHash l with
    | c :: _ :: _ => if JS.isSpace c then Some level else None
    | _ => None
    end
  else None.

(** The inner loop: the lines from [start] up to [end], which is the first
    line outside a fence that is a heading of at most the level [level]. *)
Fixpoint sectionLines (level : nat) (inFence : bool) (lines : list string)
  : list string :=
  match lines with
  | [] => []
  | l :: r =>
      if isFenceLine l then l :: sectionLines level (negb inFence) r
      else if inFence then l :: sectionLines level inFence r
      else
        match sectionHeading l with
        | Some n => if Nat.leb n level then [] else l :: sectionLines level inFence r
        | None => l :: sectionLines level inFence r
        end
  end.

(** The outer loop: [Some r] when it returns [r] at a [Task] heading,
    [None] when it runs to the end. *)
Fixpoint taskSection (inFence : bool) (lines : list string) : option (option string) :=
  match lines with
  | [] => None
  | line :: rest =>
      if isFenceLine line then taskSection (negb inFence) rest
      else if inFence then taskSection inFence rest
      else
        match taskHeading line with
        | None => taskSection inFence rest
        | Some level =>
            Some (bodyOf (sectionLines level false (JS.dropWhile isBlank rest)))
        end
  end.

Definition notLf (c : ascii) : bool := negb (Ascii.eqb c JS.LF).

(** The last character of a run that is not a line feed. *)
Definition lastNotLf (run : list ascii) : option ascii :=
  match JS.dropWhile (fun c => Ascii.eqb c JS.LF) (rev run) with
  | c :: _ => Some c
  | [] => None
  end.

(** The inline pattern tried where a line starts: [Task], white space, a
    colon, white space, and the group of at least one character other than
    a line feed.  The white space after the colon is taken as far as it
    goes; when the text ends there, the pattern gives back white space
    until the group finds a character, which is then all that it holds. *)
Definition inlineTaskAt (l : list ascii) : option (list ascii) :=
  if eqChars (JS.foldCase (firstn 4 l)) (JS.chars "task") then
    match JS.dropWhile JS.isSpace (skipn 4 l) with
    | colon :: after =>
        if Ascii.eqb colon ":" then
          match JS.dropWhile JS.isSpace after with
          | c :: r => Some (JS.takeWhile notLf (c :: r))
          | [] => match lastNotLf (JS.takeWhile JS.isSpace after) with
                  | Some c => Some [c]
                  | None => None
                  end
          end
        else None
    | [] => None
    end
  else None.

(** [normalized.match(...)]: the first match, looked for at the start of
    the text and after every line feed. *)
Fixpoint inlineTask (atLineStart : bool) (l : list ascii) : option (list ascii) :=
  match l with
  | [] => None
  | c :: r =>
      match (if atLineStart then inlineTaskAt l else None) with
      | Some group => Some group
      | None => inlineTask (Ascii.eqb c JS.LF) r
      end
  end.

Definition extractTaskSectionText (text : string) : option string :=
  let normalized := unixNewlines text in
  let lines := JS.split JS.LF normalized in
  match taskSection false lines with
  | Some r => r
  | None =>
      match inlineTask true (JS.chars normalized) with
      | Some group =>
          let body := JS.trim (JS.str group) in
          if JS.truthy body then Some body else None
      | None => None
      end
  end.

(** A text as the sequence of its code points, which is what [for ... of]
    yields; [s.slice(0, end)] is then the code points read so far. *)
Definition isWideCodePoint (codePoint : Z) : bool :=
  if (0x1100 <=? codePoint) && (codePoint <=? 0x115f) then true
  else if (0x2e80 <=? codePoint) && (codePoint <=? 0xa4cf) then true
  else if (0xac00 <=? codePoint) && (codePoint <=? 0xd7a3) then true
  else if (0xf900 <=? codePoint) && (codePoint <=? 0xfaff) then true
  else if (0xfe10 <=? codePoint) && (codePoint <=? 0xfe19) then true
  else if (0xfe30 <=? codePoint) && (codePoint <=? 0xfe6f) then true
  else if (0xff01 <=? codePoint) && (codePoint <=? 0xff60) then true
  else if (0xffe0 <=? codePoint) && (codePoint <=? 0xffe6) then true
  else if (0x1f300 <=? codePoint) && (codePoint <=? 0x1faff) then true
  else if (0x20000 <=? codePoint) && (codePoint <=? 0x3fffd) then true
  else false.

Definition widthOf (codePoint : Z) : Z := if isWideCodePoint codePoint then 2 else 1.

Fixpoint truncateLoop (max width : Z) (kept rest suffix : list Z) : list Z :=
  match rest with
  | [] => kept
  | cp :: r =>
      let w := widthOf cp in
      if max <? width + w then kept ++ suffix
      else truncateLoop max (width + w) (kept ++ [cp]) r suffix
  end.

Definition truncateByDisplayWidth (text : list Z) (maxHalfWidthUnits : Z)
           (suffix : list Z) : list Z :=
  let max := maxHalfWidthUnits in
  if max <=? 0 then [] else truncateLoop max 0 [] text suffix.

End textUtils.

(** ** [sessions/sessionTypes.ts] *)

Record SessionMetaInfo : Type := {
  id : option string;
  timestampIso : option string;
  cwd : option string;
  originator : option string;
  cliVersion : option string;
  modelProvider : option string;
  source : option string
}.

(** The object literal [{}] used when the first line gives no metadata. *)
Definition noMeta : SessionMetaInfo :=
  {| id := None; timestampIso := None; cwd := None; originator := None;
     cliVersion := None; modelProvider := None; source := None |}.

Inductive ChatRole : Type := user | assistant.

Definition ChatRole_eqb (a b : ChatRole) : bool :=
  match a, b with
  | user, user | assistant, assistant => true
  | _, _ => false
  end.

Record PreviewMessage : Type := { role : ChatRole; text : string }.

Record SessionSummary : Type := {
  fsPath : string;
  cacheKey : string;
  meta : SessionMetaInfo;
  inferredYmd : option Ymd;
  localDate : string;
  timeLabel : string;
  snippet : string;
  cwdShort : string;
  previewMessages : list PreviewMessage
}.

(** ** [sessions/sessionSummary.ts] *)

Module sessionSummary.

(** [role] of a record when it is ["user"] or ["assistant"]. *)
Definition chatRoleOf (v : option JSON) : option ChatRole :=
  if isStr "user" v then Some user
  else if isStr "assistant" v then Some assistant
  else None.

Definition textOfItem (item : JSON) : list string :=
  match item with
  | JObj m => match lastBinding "text" m with
              | Some (JStr t) => [t]
              | _ => []
              end
  | _ => []
  end.

(** [buildPreviewTextParts]; [extractTextFromContent] of the search service
    and of the chat model builder is the same function. *)
Definition buildPreviewTextParts (content : option JSON) : string :=
  match content with
  | Some (JArr items) => JS.join EmptyString (concat (map textOfItem items))
  | _ => EmptyString
  end.

Definition isBoilerplateUserMessage (text : string) : bool :=
  let t := JS.trim text in
  if JS.startsWith "<environment_context>" t then true
  else if JS.startsWith "# AGENTS.md instructions" t then true
  else if JS.startsWith "<INSTRUCTIONS>" t then true
  else false.

Definition titlePrompt : string :=
  "generate a concise ui title (20-40 characters) for this task".

(** The title-prompt pattern: the fixed phrase at the start, letter case
    ignored, and a word boundary after it. *)
Definition isUiTitleGenerationPrompt (text : string) : bool :=
  let s := JS.chars (JS.trim text) in
  let n := String.length titlePrompt in
  textUtils.eqChars (JS.foldCase (firstn n s)) (JS.chars titlePrompt) &&
  match skipn n s with
  | [] => true
  | c :: _ => negb (JS.isWord c)
  end.

Definition hasText (r : ChatRole) (m : PreviewMessage) : bool :=
  ChatRole_eqb (role m) r && (0 <? JS.len (JS.trim (text m))).

Fixpoint pickSessionSnippetSource (messages : list PreviewMessage) : option string :=
  match messages with
  | [] => None
  | m :: rest =>
      if hasText user m then
        let firstUser := JS.trim (text m) in
        if isUiTitleGenerationPrompt firstUser then
          match find (hasText assistant) rest with
          | Some nextAssistant => Some (JS.trim (text nextAssistant))
          | None => Some firstUser
          end
        else Some firstUser
      else pickSessionSnippetSource rest
  end.

Section WithHost.
Context (h : Host).

(** The body of [tryReadSessionMeta] after the first line is read: every
    exception of the [try] block gives [null]. *)
Definition metaOfFirstLine (firstLine : option string) : option SessionMetaInfo :=
  match firstLine with
  | None => None
  | Some line =>
      if negb (JS.truthy line) then None
      else
        match JSON_parse h line with
        | None => None
        | Some obj =>
            if negb (isStr "session_meta" (prop "type" (Some obj))) then None
            else
              let payload := match prop "payload" (Some obj) with
                             | None | Some JNull => Some (JObj [])
                             | Some p => Some p
                             end in
              Some {| id := asString (prop "id" payload);
                      timestampIso := asString (prop "timestamp" payload);
                      cwd := asString (prop "cwd" payload);
                      originator := asString (prop "originator" payload);
                      cliVersion := asString (prop "cli_version" payload);
                      modelProvider := asString (prop "model_provider" payload);
                      source := asString (prop "source" payload) |}
        end
  end.

Definition tryReadSessionMeta (fs : FileSys) (fsPath : string)
  : Result (option SessionMetaInfo) :=
  firstLine ← fsUtils.readFirstLineUtf8 fs fsPath fsUtils.maxBytesDefault;
  Ok (metaOfFirstLine firstLine).

Definition inferYmdFromPath (sessionsRoot fsPath : string) : option Ymd :=
  let rel := path_relative h sessionsRoot fsPath in
  let parts := JS.split (path_sep h) rel in
  if (Z.of_nat (length parts) <? 4) then None
  else
    match parts with
    | y :: m :: d :: _ =>
        if negb (JS.isDigits 4 y) || negb (JS.isDigits 2 m) || negb (JS.isDigits 2 d)
        then None
        else
          let year := JS.digitsToZ y in
          let month := JS.digitsToZ m in
          let day := JS.digitsToZ d in
          if negb ((1970 <=? year) && (year <=? 9999) && (1 <=? month) &&
                   (month <=? 12) && (1 <=? day) && (day <=? 31))
          then None
          else Some {| year := year; month := month; day := day |}
    | _ => None
    end.

(** One turn of the loop of [readPreviewMessages]: the message a line
    contributes, if any. *)
Definition previewOfLine (line : string) : option PreviewMessage :=
  if negb (JS.truthy line) then None
  else
    match JSON_parse h line with
    | None => None
    | Some o =>
        let obj := Some o in
        if negb (isStr "response_item" (prop "type" obj)) then None
        else if negb (isStr "message" (prop "type" (prop "payload" obj))) then None
        else
          match chatRoleOf (prop "role" (prop "payload" obj)) with
          | None => None
          | Some role =>
              let textRaw := buildPreviewTextParts (prop "content" (prop "payload" obj)) in
              let textNormalized := textUtils.normalizeWhitespace textRaw in
              let text :=
                match role with
                | user => match textUtils.extractUserRequestText textNormalized with
                          | Some t => t
                          | None => textNormalized
                          end
                | assistant => textNormalized
                end in
              if negb (JS.truthy text) then None
              else if ChatRole_eqb role user && isBoilerplateUserMessage text then None
              else
                let trimmed := if 1200 <? JS.len text
                               then JS.slice text 0 1199 +:+ textUtils.ELLIPSIS
                               else text in
                Some {| role := role; text := trimmed |}
          end
    end.

Fixpoint previewLoop (maxMessages : Z) (lines : list string)
                     (result : list PreviewMessage) : list PreviewMessage :=
  match lines with
  | [] => result
  | line :: rest =>
      if Z.of_nat (length result) >=? maxMessages then result
      else
        match previewOfLine line with
        | Some m => previewLoop maxMessages rest (result ++ [m])
        | None => previewLoop maxMessages rest result
        end
  end.

Definition readPreviewMessages (fs : FileSys) (fsPath : string) (maxMessages : Z)
  : Result (list PreviewMessage) :=
  match fs_read fs fsPath with
  | None => Throw
  | Some content => Ok (previewLoop maxMessages (Node.lines content) [])
  end.

(** [startLocal]: the parsed start time, [null] when the metadata has no
    time stamp or the time stamp is not a date. *)
Definition startLocalOf (meta : SessionMetaInfo) : option Z :=
  match timestampIso meta with
  | Some iso => if JS.truthy iso then Date_parse h iso else None
  | None => None
  end.

Definition buildSessionSummary (fs : FileSys)
           (sessionsRoot fsPath : string) (previewMaxMessages : Z)
  : Result (option SessionSummary) :=
  match fsUtils.statSafe fs fsPath with
  | None => Ok None
  | Some stat =>
      let cacheKey := fsUtils.normalizeCacheKey h fsPath in
      metaRead ← tryReadSessionMeta fs fsPath;
      let meta := match metaRead with Some m => m | None => noMeta end in
      let inferred := inferYmdFromPath sessionsRoot fsPath in
      let startLocal := startLocalOf meta in
      let ymd := match inferred with
                 | Some i => i
                 | None => match startLocal with
                           | Some d => dateUtils.toYmdLocal h d
                           | None => dateUtils.toYmdLocal h (mtimeMs stat)
                           end
                 end in
      let localDate := dateUtils.ymdToString ymd in
      let timeLabel := match startLocal with
                       | Some d => dateUtils.formatTimeHmLocal h d
                       | None => "--:--"
                       end in
      previewMessages ← readPreviewMessages fs fsPath previewMaxMessages;
      let snippetSource := pickSessionSnippetSource previewMessages in
      let snippet := match snippetSource with
                     | Some s => if JS.truthy s
                                 then textUtils.singleLineSnippet s 70
                                 else path_basename h fsPath
                     | None => path_basename h fsPath
                     end in
      let cwdShort := match cwd meta with
                      | Some c => if JS.truthy c
                                  then textUtils.safeDisplayPath c 80
                                  else EmptyString
                      | None => EmptyString
                      end in
      Ok (Some {| fsPath := fsPath; cacheKey := cacheKey; meta := meta;
                  inferredYmd := inferred; localDate := localDate;
                  timeLabel := timeLabel; snippet := snippet;
                  cwdShort := cwdShort; previewMessages := previewMessages |})
  end.

End WithHost.

End sessionSummary.

(** ** A concrete platform: POSIX paths, UTC clock, ASCII case mapping

    An instance of [Host] on which the definitions run.  The theorems below
    hold for every [Host]; this one serves the scenarios. *)

Module Posix.

Definition isJsonWs (c : ascii) : bool :=
  let n := JS.code c in (n =? 32) || (n =? 9) || (n =? 10) || (n =? 13).

Definition skipWs (l : list ascii) : list ascii := JS.dropWhile isJsonWs l.

Definition hexVal (c : ascii) : option Z :=
  let n := JS.code c in
  if JS.isDigit c then Some (n - 48)
  else if (97 <=? n) && (n <=? 102) then Some (n - 87)
  else if (65 <=? n) && (n <=? 70) then Some (n - 55)
  else None.

Definition charOf (n : Z) : ascii := ascii_of_nat (Z.to_nat n).

(** The characters of a string literal after its opening quote. *)
Fixpoint parseChars (l acc : list ascii) : option (string * list ascii) :=
  match l with
  | [] => None
  | c :: r =>
      if JS.code c =? 34 then Some (JS.str (rev acc), r)
      else if JS.code c <? 32 then None
      else if JS.code c =? 92 then
        match r with
        | e :: r' =>
            let n := JS.code e in
            if (n =? 34) || (n =? 92) || (n =? 47) then parseChars r' (e :: acc)
            else if n =? 98 then parseChars r' (charOf 8 :: acc)
            else if n =? 102 then parseChars r' (charOf 12 :: acc)
            else if n =? 110 then parseChars r' (charOf 10 :: acc)
            else if n =? 114 then parseChars r' (charOf 13 :: acc)
            else if n =? 116 then parseChars r' (charOf 9 :: acc)
            else if n =? 117 then
              match r' with
              | a :: b :: c1 :: d :: r'' =>
                  match hexVal a, hexVal b, hexVal c1, hexVal d with
                  | Some 0, Some 0, Some x, Some y =>
                      parseChars r'' (charOf (16 * x + y) :: acc)
                  | _, _, _, _ => None
                  end
              | _ => None
              end
            else None
        | [] => None
        end
      else parseChars r (c :: acc)
  end.

Definition parseInt (l : list ascii) : option (JSON * list ascii) :=
  let '(neg, l1) := match l with
                    | c :: r => if JS.code c =? 45 then (true, r) else (false, l)
                    | [] => (false, l)
                    end in
  let ds := JS.takeWhile JS.isDigit l1 in
  match ds with
  | [] => None
  | _ => let n := JS.digitsToZ (JS.str ds) in
         Some (JNum (if neg then - n else n), JS.dropWhile JS.isDigit l1)
  end.

Definition literal (w : string) (v : JSON) (l : list ascii)
  : option (JSON * list ascii) :=
  let n := String.length w in
  if textUtils.eqChars (firstn n l) (JS.chars w) then Some (v, skipn n l) else None.

Section Aggregates.
Context (parseValue : list ascii -> option (JSON * list ascii)).

Fixpoint parseElems (fuel : nat) (l : list ascii) (acc : list JSON)
  : option (JSON * list ascii) :=
  match fuel with
  | O => None
  | S f =>
      match parseValue l with
      | None => None
      | Some (v, r) =>
          match skipWs r with
          | c :: r' =>
              if JS.code c =? 44 then parseElems f r' (v :: acc)
              else if JS.code c =? 93 then Some (JArr (rev (v :: acc)), r')
              else None
          | [] => None
          end
      end
  end.

Fixpoint parseMembers (fuel : nat) (l : list ascii) (acc : list (string * JSON))
  : option (JSON * list ascii) :=
  match fuel with
  | O => None
  | S f =>
      match skipWs l with
      | q :: r =>
          if JS.code q =? 34 then
            match parseChars r [] with
            | None => None
            | Some (k, r1) =>
                match skipWs r1 with
                | col :: r2 =>
                    if JS.code col =? 58 then
                      match parseValue r2 with
                      | None => None
                      | Some (v, r3) =>
                          match skipWs r3 with
                          | c :: r4 =>
                              if JS.code c =? 44
                              then parseMembers f r4 ((k, v) :: acc)
                              else if JS.code c =? 125
                              then Some (JObj (rev ((k, v) :: acc)), r4)
                              else None
                          | [] => None
                          end
                      end
                    else None
                | [] => None
                end
            end
          else None
      | [] => None
      end
  end.

End Aggregates.

Fixpoint parseValue (fuel : nat) (l : list ascii) : option (JSON * list ascii) :=
  match fuel with
  | O => None
  | S f =>
      match skipWs l with
      | [] => None
      | c :: r =>
          let n := JS.code c in
          if n =? 123 then
            match skipWs r with
            | e :: r' => if JS.code e =? 125 then Some (JObj [], r')
                         else parseMembers (parseValue f) (S f) r []
            | [] => None
            end
          else if n =? 91 then
            match skipWs r with
            | e :: r' => if JS.code e =? 93 then Some (JArr [], r')
                         else parseElems (parseValue f) (S f) r []
            | [] => None
            end
          else if n =? 34 then
            match parseChars r [] with
            | Some (s, r') => Some (JStr s, r')
            | None => None
            end
          else if n =? 116 then literal "true" (JBool true) (c :: r)
          else if n =? 102 then literal "false" (JBool false) (c :: r)
          else if n =? 110 then literal "null" JNull (c :: r)
          else parseInt (c :: r)
      end
  end.

(** [JSON.parse] on texts whose numbers are integers and whose strings
    stay below code unit 256. *)
Definition parseJson (s : string) : option JSON :=
  match parseValue (S (String.length s)) (JS.chars s) with
  | Some (v, r) => match skipWs r with [] => Some v | _ => None end
  | None => None
  end.

(** Days since 1970-01-01 of a civil date, and back. *)
Definition daysFromCivil (y m d : Z) : Z :=
  let y' := if m <=? 2 then y - 1 else y in
  let era := y' / 400 in
  let yoe := y' - era * 400 in
  let mp := (m + 9) mod 12 in
  let doy := (153 * mp + 2) / 5 + d - 1 in
  let doe := yoe * 365 + yoe / 4 - yoe / 100 + doy in
  era * 146097 + doe - 719468.

Definition civilFromDays (z : Z) : Ymd :=
  let z' := z + 719468 in
  let era := z' / 146097 in
  let doe := z' - era * 146097 in
  let yoe := (doe - doe / 1460 + doe / 36524 - doe / 146096) / 365 in
  let doy := doe - (365 * yoe + yoe / 4 - yoe / 100) in
  let mp := (5 * doy + 2) / 153 in
  let d := doy - (153 * mp + 2) / 5 + 1 in
  let m := if mp <? 10 then mp + 3 else mp - 9 in
  {| year := (if m <=? 2 then yoe + era * 400 + 1 else yoe + era * 400);
     month := m; day := d |}.

Definition msPerDay : Z := 86400000.

(** Time stamps of the form [YYYY-MM-DDTHH:MM:SSZ], and the expanded years
    [+YYYYYY] and [-YYYYYY] of ECMAScript. *)
Definition parseDate (s : string) : option Z :=
  let '(sign, w, body) :=
    match s with
    | String c r => if Ascii.eqb c "+" then (1, 6, r)
                    else if Ascii.eqb c "-" then (-1, 6, r)
                    else (1, 4, s)
    | EmptyString => (1, 4, s)
    end in
  let f a b := JS.slice body (w + a) (w + b) in
  if (JS.len body =? w + 16) &&
     JS.isDigits (Z.to_nat w) (JS.slice body 0 w) && String.eqb (f 0 1) "-" &&
     JS.isDigits 2 (f 1 3) && String.eqb (f 3 4) "-" &&
     JS.isDigits 2 (f 4 6) && String.eqb (f 6 7) "T" &&
     JS.isDigits 2 (f 7 9) && String.eqb (f 9 10) ":" &&
     JS.isDigits 2 (f 10 12) && String.eqb (f 12 13) ":" &&
     JS.isDigits 2 (f 13 15) && String.eqb (f 15 16) "Z"
  then
    let y := sign * JS.digitsToZ (JS.slice body 0 w) in
    let m := JS.digitsToZ (f 1 3) in
    let d := JS.digitsToZ (f 4 6) in
    let hh := JS.digitsToZ (f 7 9) in
    let mi := JS.digitsToZ (f 10 12) in
    let ss := JS.digitsToZ (f 13 15) in
    if (1 <=? m) && (m <=? 12) && (1 <=? d) && (d <=? 31) &&
       (hh <=? 23) && (mi <=? 59) && (ss <=? 59) &&
       negb ((sign =? -1) && (y =? 0))
    then Some (daysFromCivil y m d * msPerDay + ((hh * 60 + mi) * 60 + ss) * 1000)
    else None
  else None.

Definition DQ : string := String (ascii_of_nat 34) EmptyString.
Definition BS : string := String (ascii_of_nat 92) EmptyString.

Definition escapeChar (c : ascii) : string :=
  let n := JS.code c in
  if n =? 34 then BS +:+ DQ
  else if n =? 92 then BS +:+ BS
  else if n =? 10 then BS +:+ "n"
  else if n =? 13 then BS +:+ "r"
  else if n =? 9 then BS +:+ "t"
  else String c EmptyString.

Definition quote (s : string) : string :=
  DQ +:+ JS.join EmptyString (map escapeChar (JS.chars s)) +:+ DQ.

(** [JSON.stringify] without indentation. *)
Fixpoint stringify (v : JSON) : string :=
  match v with
  | JNull => "null"
  | JBool true => "true"
  | JBool false => "false"
  | JNum n => JS.toString n
  | JStr s => quote s
  | JArr items => "[" +:+ JS.join "," (map stringify items) +:+ "]"
  | JObj members =>
      "{" +:+ JS.join "," (map (fun kv => quote (fst kv) +:+ ":" +:+ stringify (snd kv))
                               members) +:+ "}"
  end.

Definition segments (p : string) : list string :=
  filter (fun s => JS.truthy s = true) (JS.split "/" p).

Fixpoint relativeSegs (from to : list string) : list string :=
  match from, to with
  | a :: from', b :: to' =>
      if String.eqb a b then relativeSegs from' to'
      else map (fun _ => "..") from ++ to
  | _, _ => map (fun _ => "..") from ++ to
  end.

Definition relative (from to : string) : string :=
  JS.join "/" (relativeSegs (segments from) (segments to)).

Definition basename (p : string) : string :=
  List.last (segments p) EmptyString.

Definition normalize (p : string) : string :=
  (if JS.startsWith "/" p then "/" else EmptyString) +:+ JS.join "/" (segments p).

Definition lower (s : string) : string :=
  JS.str (map JS.lowerAscii (JS.chars s)).

Definition host : Host :=
  {| JSON_parse := parseJson;
     Date_parse := parseDate;
     getFullYear := fun t => year (civilFromDays (t / msPerDay));
     getMonth := fun t => month (civilFromDays (t / msPerDay)) - 1;
     getDate := fun t => day (civilFromDays (t / msPerDay));
     getHours := fun t => (t mod msPerDay) / 3600000;
     getMinutes := fun t => ((t mod msPerDay) mod 3600000) / 60000;
     path_sep := "/";
     path_relative := relative;
     path_basename := basename;
     path_normalize := normalize;
     platform_win32 := false;
     toLowerCase := lower |}.

(** Writes a JSON text with ['] for the quotation mark. *)
Definition jtext (s : string) : string :=
  JS.str (map (fun c => if Ascii.eqb c "'" then ascii_of_nat 34 else c) (JS.chars s)).

Definition unlines (l : list string) : string :=
  JS.join EmptyString (map (fun s => s +:+ String JS.LF EmptyString) l).


(** [path.join] on paths without dot segments. *)
Definition join (dir name : string) : string :=
  normalize (dir +:+ "/" +:+ name).

Definition indent (n : nat) : string := JS.str (repeat JS.SP n).

(** [JSON.stringify(v, null, 2)] *)
Fixpoint stringify2At (level : nat) (v : JSON) : string :=
  let nl := String JS.LF EmptyString in
  match v with
  | JArr [] => "[]"
  | JObj [] => "{}"
  | JArr items =>
      "[" +:+ nl +:+
      JS.join ("," +:+ nl)
              (map (fun x => indent (2 * S level) +:+ stringify2At (S level) x) items)
      +:+ nl +:+ indent (2 * level) +:+ "]"
  | JObj members =>
      "{" +:+ nl +:+
      JS.join ("," +:+ nl)
              (map (fun kv => indent (2 * S level) +:+ quote (fst kv) +:+ ": " +:+
                              stringify2At (S level) (snd kv)) members)
      +:+ nl +:+ indent (2 * level) +:+ "}"
  | other => stringify other
  end.

(** [Number(s)] on the decimal numerals that the formatter emits. *)
Definition numberOf (s : string) : option Z :=
  if JS.truthy s && forallb JS.isDigit (JS.chars s) then Some (JS.digitsToZ s) else None.

(** The parts that the formatter of the time zone UTC gives. *)
Definition partsUtc (d : Z) : list (string * string) :=
  let c := civilFromDays (d / msPerDay) in
  let t := d mod msPerDay in
  [("month", dateUtils.pad2 (month c)); ("literal", "/");
   ("day", dateUtils.pad2 (day c)); ("literal", "/");
   ("year", JS.toString (year c)); ("literal", ", ");
   ("hour", dateUtils.pad2 (t / 3600000)); ("literal", ":");
   ("minute", dateUtils.pad2 ((t mod 3600000) / 60000)); ("literal", ":");
   ("second", dateUtils.pad2 ((t mod 60000) / 1000))].

(** The clock of [host] is UTC, the only time zone of this platform. *)
Definition platform : Platform :=
  {| path_join := join;
     Date_ymd := fun y m d => daysFromCivil y (m + 1) d * msPerDay;
     getSeconds := fun t => (t mod 60000) / 1000;
     Intl_supports := fun tz => String.eqb tz "UTC";
     Intl_formatToParts := fun tz d => if String.eqb tz "UTC" then Some (partsUtc d) else None;
     Intl_systemTimeZone := Some "UTC";
     Number_ofString := numberOf;
     JSON_stringify2 := stringify2At 0 |}.

End Posix.

(** ** [Array.prototype.sort] with a comparator

    The sort of ECMAScript is stable; for a consistent comparator it is the
    insertion sort below: [x] goes before the first [y] with
    [cmp x y <= 0]. *)

Section ArraySort.
Context {A : Type} (cmp : A -> A -> Z).

Fixpoint insertSorted (x : A) (l : list A) : list A :=
  match l with
  | [] => [x]
  | y :: r => if cmp x y <=? 0 then x :: y :: r else y :: insertSorted x r
  end.

Fixpoint Array_sort (l : list A) : list A :=
  match l with
  | [] => []
  | x :: r => insertSorted x (Array_sort r)
  end.

End ArraySort.

(** ** [storage/jsonStorage.ts] *)

Module jsonStorage.

(** The calls that a save makes to the storage of the platform, which maps
    a URI to the bytes of a file. *)
Inductive StorageOp : Type :=
| WriteFile (uri buf : string)
| Rename (source target : string).

(** A call that completes.  [writeFile] replaces the bytes of its target;
    [rename] moves a file over its target. *)
Definition complete (store : gmap string string) (op : StorageOp) : gmap string string :=
  match op with
  | WriteFile uri buf => <[uri := buf]> store
  | Rename source target =>
      match store !! source with
      | Some buf => <[target := buf]> (delete source store)
      | None => store
      end
  end.

(** A call that fails.  [writeFile] works in place: it truncates its target
    and writes the bytes in order, so a failure after [n] bytes leaves the
    first [n] bytes of the new text; a [rename] that fails changes nothing. *)
Definition interrupted (store : gmap string string) (op : StorageOp) (n : nat)
  : gmap string string :=
  match op with
  | WriteFile uri buf => <[uri := String.substring 0 n buf]> store
  | Rename _ _ => store
  end.

(** The calls in order; [fault = Some (k, n)] makes call number [k] fail
    after [n] bytes, which rejects the promise. *)
Fixpoint perform (store : gmap string string) (ops : list StorageOp)
         (fault : option (nat * nat)) : gmap string string * Result unit :=
  match ops with
  | [] => (store, Ok tt)
  | op :: rest =>
      match fault with
      | Some (O, n) => (interrupted store op n, Throw)
      | Some (S k, n) => perform (complete store op) rest (Some (k, n))
      | None => perform (complete store op) rest None
      end
  end.

Section WithCodec.
Context {T : Type} (stringify : T -> string) (parse : string -> option T).

(** [readJson]: every failure gives [null]. *)
Definition readJson (store : gmap string string) (uri : string) : option T :=
  match store !! uri with
  | Some text => parse text
  | None => None
  end.

(** [writeJson]: the text of the value, and one [writeFile] on the target
    itself. *)
Definition writeJson (uri : string) (data : T) : list StorageOp :=
  let text := stringify data in
  [WriteFile uri text].

End WithCodec.

End jsonStorage.

(** ** [services/historyService.ts] *)

Record CacheEntryV1 : Type := {
  cachedMtimeMs : Z;
  cachedSize : Z;
  summary : SessionSummary
}.

Record CacheFileV4 : Type := {
  version : Z;
  summaryAlgoVersion : Z;
  cacheSessionsRoot : string;
  cachePreviewMaxMessages : Z;
  cacheDateTimeSettingsKey : string;
  entries : gmap string CacheEntryV1
}.

Record HistoryIndex : Type := {
  indexSessionsRoot : string;
  sessions : list SessionSummary;
  byYmd : gmap string (list SessionSummary);
  byYm : gmap string (gmap string (list SessionSummary));
  byY : gmap string (gmap string (gmap string (list SessionSummary)))
}.

Record Config : Type := { sessionsRoot : string; previewMaxMessages : Z }.

Module historyService.

Definition SUMMARY_CACHE_ALGO_VERSION : Z := 3.

Definition emptyIndex (sessionsRoot : string) : HistoryIndex :=
  {| indexSessionsRoot := sessionsRoot; sessions := [];
     byYmd := ∅; byYm := ∅; byY := ∅ |}.

(** The comparator of [summaries.sort] in [refresh]; [<] on strings is the
    order of code units. *)
Definition compareSessions (a b : SessionSummary) : Z :=
  if negb (String.eqb (localDate a) (localDate b))
  then (if String.ltb (localDate a) (localDate b) then 1 else -1)
  else if String.ltb (timeLabel a) (timeLabel b) then 1
       else if String.ltb (timeLabel b) (timeLabel a) then -1
            else 0.

(** The comparator of [list.sort] in [buildIndex]. *)
Definition compareTimeLabels (a b : SessionSummary) : Z :=
  if String.ltb (timeLabel a) (timeLabel b) then 1
  else if String.ltb (timeLabel b) (timeLabel a) then -1
       else 0.

(** [const [yyyy, mm, dd] = ymd.split("-")] with the guard
    [if (!yyyy || !mm || !dd) continue]. *)
Definition dayKey (s : SessionSummary) : option (string * string * string) :=
  match JS.split "-" (localDate s) with
  | yyyy :: mm :: dd :: _ =>
      if negb (JS.truthy yyyy) || negb (JS.truthy mm) || negb (JS.truthy dd)
      then None
      else Some (yyyy, mm, dd)
  | _ => None
  end.

(** [if (!m.has(k)) m.set(k, []); m.get(k).push(s)] *)
Definition pushTo (k : string) (s : SessionSummary)
           (m : gmap string (list SessionSummary)) : gmap string (list SessionSummary) :=
  <[k := default [] (m !! k) ++ [s]]> m.

Definition indexStep (idx : HistoryIndex) (s : SessionSummary) : HistoryIndex :=
  match dayKey s with
  | None => idx
  | Some (yyyy, mm, dd) =>
      let byMonth := default ∅ (byY idx !! yyyy) in
      let byDay := default ∅ (byMonth !! mm) in
      let ymMap := default ∅ (byYm idx !! yyyy) in
      {| indexSessionsRoot := indexSessionsRoot idx;
         sessions := sessions idx;
         byYmd := pushTo (localDate s) s (byYmd idx);
         byYm := <[yyyy := pushTo mm s ymMap]> (byYm idx);
         byY := <[yyyy := <[mm := pushTo dd s byDay]> byMonth]> (byY idx) |}
  end.

Definition sortDays (idx : HistoryIndex) : HistoryIndex :=
  {| indexSessionsRoot := indexSessionsRoot idx;
     sessions := sessions idx;
     byYmd := byYmd idx;
     byYm := byYm idx;
     byY := (fun months : gmap string (gmap string (list SessionSummary)) =>
               (fun days : gmap string (list SessionSummary) =>
                  Array_sort compareTimeLabels <$> days) <$> months) <$> byY idx |}.

Definition buildIndex (sessionsRoot : string) (summaries : list SessionSummary)
  : HistoryIndex :=
  let idx := {| indexSessionsRoot := sessionsRoot; sessions := summaries;
                byYmd := ∅; byYm := ∅; byY := ∅ |} in
  sortDays (fold_left indexStep summaries idx).

(** The sessions of one day of the index. *)
Definition bucket (idx : HistoryIndex) (yyyy mm dd : string) : list SessionSummary :=
  default [] (default ∅ (default ∅ (byY idx !! yyyy) !! mm) !! dd).

(** The header test that guards [cache.entries]. *)
Definition headerMatches (config : Config) (dateTimeSettingsKey : string)
           (cache : CacheFileV4) : bool :=
  (version cache =? 4) &&
  (summaryAlgoVersion cache =? SUMMARY_CACHE_ALGO_VERSION) &&
  String.eqb (cacheSessionsRoot cache) (sessionsRoot config) &&
  (cachePreviewMaxMessages cache =? previewMaxMessages config) &&
  String.eqb (cacheDateTimeSettingsKey cache) dateTimeSettingsKey.

Definition cachedEntriesOf (config : Config) (dateTimeSettingsKey : string)
           (stored : option CacheFileV4) (forceRebuildCache : bool)
  : gmap string CacheEntryV1 :=
  let cache := if forceRebuildCache then None else stored in
  match cache with
  | Some c => if headerMatches config dateTimeSettingsKey c then entries c else ∅
  | None => ∅
  end.

(** The state of the loop over the discovered files; [extractorCalls] is
    the log of the calls of [buildSessionSummary], in order. *)
Record Pass : Type := {
    nextEntries : gmap string CacheEntryV1;
    summaries : list SessionSummary;
    extractorCalls : list string
  }.

Record Refreshed : Type := {
    index : HistoryIndex;
    written : option CacheFileV4;
    calls : list string
  }.

Section WithHost.
Context (h : Host) (fs : FileSys) (config : Config).
Context (cachedEntries : gmap string CacheEntryV1).

Definition sameFingerprint (cached : CacheEntryV1) (st : Stat) : bool :=
  (cachedMtimeMs cached =? mtimeMs st) && (cachedSize cached =? size st).

(** The entry that the test
    [cached && cached.mtimeMs === st.mtimeMs && cached.size === st.size]
    lets through. *)
Definition reusedEntry (key : string) (st : Stat) : option CacheEntryV1 :=
  match cachedEntries !! key with
  | Some cached => if sameFingerprint cached st then Some cached else None
  | None => None
  end.

(** One turn of [for (const fsPath of files)]. *)
Definition reconcileStep (p : Pass) (fsPath : string) : Result Pass :=
  let key := fsUtils.normalizeCacheKey h fsPath in
  match fs_stat fs fsPath with
  | None => Ok p
  | Some st =>
      match reusedEntry key st with
      | Some cached =>
          Ok {| nextEntries := <[key := cached]> (nextEntries p);
                summaries := summaries p ++ [summary cached];
                extractorCalls := extractorCalls p |}
      | None =>
          built ← sessionSummary.buildSessionSummary h fs (sessionsRoot config)
                    fsPath (previewMaxMessages config);
          let called := extractorCalls p ++ [fsPath] in
          match built with
          | None => Ok {| nextEntries := nextEntries p;
                          summaries := summaries p;
                          extractorCalls := called |}
          | Some s =>
              Ok {| nextEntries :=
                      <[key := {| cachedMtimeMs := mtimeMs st;
                                  cachedSize := size st;
                                  summary := s |}]> (nextEntries p);
                    summaries := summaries p ++ [s];
                    extractorCalls := called |}
          end
      end
  end.

Fixpoint reconcile (p : Pass) (files : list string) : Result Pass :=
  match files with
  | [] => Ok p
  | fsPath :: rest => p' ← reconcileStep p fsPath; reconcile p' rest
  end.

End WithHost.

(** [refresh]: [files] is the result of [findSessionFiles], [stored] the
    result of [readJson] on the cache file, and [written] the value handed
    to [writeJson] at the end. *)
Definition refresh (h : Host) (fs : FileSys) (config : Config)
           (dateTimeSettingsKey : string) (files : list string)
           (stored : option CacheFileV4) (forceRebuildCache : bool)
  : Result Refreshed :=
  if negb (fsUtils.pathExists fs (sessionsRoot config)) then
    Ok {| index := emptyIndex (sessionsRoot config); written := None; calls := [] |}
  else
    let cachedEntries := cachedEntriesOf config dateTimeSettingsKey stored
                           forceRebuildCache in
    p ← reconcile h fs config cachedEntries
          {| nextEntries := ∅; summaries := []; extractorCalls := [] |} files;
    let sorted := Array_sort compareSessions (summaries p) in
    Ok {| index := buildIndex (sessionsRoot config) sorted;
          written := Some {| version := 4;
                             summaryAlgoVersion := SUMMARY_CACHE_ALGO_VERSION;
                             cacheSessionsRoot := sessionsRoot config;
                             cachePreviewMaxMessages := previewMaxMessages config;
                             cacheDateTimeSettingsKey := dateTimeSettingsKey;
                             entries := nextEntries p |};
          calls := extractorCalls p |}.


(** [findByFsPath] on the index [idx] of the service. *)
Definition findByFsPath (h : Host) (idx : HistoryIndex) (fsPath : string)
  : option SessionSummary :=
  let key := fsUtils.normalizeCacheKey h fsPath in
  find (fun s => String.eqb (cacheKey s) key) (sessions idx).

End historyService.

(** ** [types/dateScope.ts] *)

Inductive DateScope : Type :=
| ScopeAll
| ScopeYear (yyyy : string)
| ScopeMonth (ym : string)
| ScopeDay (ymd : string).

Module dateScope.

(** [String(v)] on a value of JSON; in an array [null] shows as the empty
    text. *)
Fixpoint String_ (v : JSON) : string :=
  match v with
  | JNull => "null"
  | JBool true => "true"
  | JBool false => "false"
  | JNum n => JS.toString n
  | JStr s => s
  | JArr items =>
      JS.join "," (map (fun x => match x with JNull => EmptyString | _ => String_ x end)
                       items)
  | JObj _ => "[object Object]"
  end.

(** [String(v ?? EMPTY).trim()] *)
Definition trimmedField (v : option JSON) : string :=
  JS.trim match v with
          | None | Some JNull => EmptyString
          | Some w => String_ w
          end.

(** [!scope || typeof scope !== "object"] *)
Definition notAnObject (scope : option JSON) : bool :=
  match scope with
  | Some (JObj _) | Some (JArr _) => false
  | _ => true
  end.

Section WithPlatform.
Context (h : Host) (pf : Platform).

Definition sanitizeDateScope (scope : option JSON) : DateScope :=
  if notAnObject scope then ScopeAll
  else
    let kind := prop "kind" scope in
    if isStr "all" kind then ScopeAll
    else if isStr "year" kind then
      let yyyy := trimmedField (prop "yyyy" scope) in
      if dateUtils.isValidYyyy yyyy then ScopeYear yyyy else ScopeAll
    else if isStr "month" kind then
      let ym := trimmedField (prop "ym" scope) in
      if dateUtils.isValidYyyyMm ym then ScopeMonth ym else ScopeAll
    else if isStr "day" kind then
      let ymd := trimmedField (prop "ymd" scope) in
      if dateUtils.isValidYyyyMmDd h pf ymd then ScopeDay ymd else ScopeAll
    else ScopeAll.

End WithPlatform.

Definition getDateScopeValue (scope : DateScope) : option string :=
  match scope with
  | ScopeAll => None
  | ScopeYear yyyy => Some yyyy
  | ScopeMonth ym => Some ym
  | ScopeDay ymd => Some ymd
  end.

End dateScope.

(** ** [utils/dateTimeSettings.ts] *)

Inductive UiLanguageSetting : Type := LangAuto | LangEn | LangJa.

Record DateTimeSettings : Type := {
  uiLanguage : UiLanguageSetting;
  timeZone : string
}.

Module dateTimeSettings.

Definition settingText (v : UiLanguageSetting) : string :=
  match v with
  | LangAuto => "auto"
  | LangEn => "en"
  | LangJa => "ja"
  end.

Section WithHost.
Context (h : Host) (pf : Platform).

(** [normalizeUiLanguageSetting]; [raw] is [None] for a value that is not
    a string. *)
Definition normalizeUiLanguageSetting (raw : option string) : UiLanguageSetting :=
  let v := match raw with
           | Some s => toLowerCase h (JS.trim s)
           | None => EmptyString
           end in
  if String.eqb v "ja" then LangJa
  else if String.eqb v "en" then LangEn
  else LangAuto.

Definition resolveSystemTimeZone : string :=
  match Intl_systemTimeZone pf with
  | Some tz => if 0 <? JS.len (JS.trim tz) then JS.trim tz else "UTC"
  | None => "UTC"
  end.

Definition isSupportedTimeZone (timeZone : string) : bool :=
  let tz := JS.trim timeZone in
  if negb (JS.truthy tz) then false else Intl_supports pf tz.

Definition resolveDateTimeSettings (setting : UiLanguageSetting) : DateTimeSettings :=
  let sysTz := resolveSystemTimeZone in
  let desired := match setting with LangJa => "Asia/Tokyo" | _ => sysTz end in
  let timeZone := if isSupportedTimeZone desired then desired
                  else if isSupportedTimeZone sysTz then sysTz else "UTC" in
  {| uiLanguage := setting; timeZone := timeZone |}.

End WithHost.

Definition getDateTimeSettingsKey (settings : DateTimeSettings) : string :=
  let lang := settingText (uiLanguage settings) in
  let tz := timeZone settings in
  "uiLanguage=" +:+ lang +:+ ";timeZone=" +:+ tz.

End dateTimeSettings.

(** ** [services/searchService.ts] *)

(** What the search does to its surroundings, in order: the reads of
    [token.isCancellationRequested], the progress messages it reports and
    the files it opens. *)
Inductive Event : Type :=
| Poll
| Report (message : string)
| Open (path : string).

Module searchService.

Record SearchHit : Type := { messageIndex : Z; role : ChatRole; snippet : string }.

Record SessionHits : Type := { session : SessionSummary; hits : list SearchHit }.

(** The object [{ totalHits, sessions: list }] that [searchSessions]
    returns. *)
Record SearchResult : Type := {
    resultTotalHits : Z;
    resultSessions : list SessionHits
  }.

(** The variables of [searchSessions]: the map [bySession] in insertion
    order and the counter [totalHits]; [polls] counts the reads of
    [token.isCancellationRequested], the read number [n] being answered by
    [token n], and [events] logs the effects. *)
Record Scan : Type := {
    bySession : list (string * SessionHits);
    totalHits : Z;
    polls : nat;
    events : list Event
  }.

Inductive Flow : Type :=
  | Next (st : Scan)
  | ReturnNull (st : Scan)
  | StreamFault (st : Scan).

(** The outcome of a search: the result object, [null], or no return at
    all because the stream of a file that cannot be read fails. *)
Inductive Outcome : Type :=
  | Done (r : SearchResult)
  | Null
  | Fault.

Record Run : Type := { outcome : Outcome; polled : nat; trace : list Event }.

Definition buildAround (text : string) (hitAt needleLen : Z) : string :=
  let before := 40 in
  let after := 80 in
  let start := Z.max 0 (hitAt - before) in
  let end_ := Z.min (JS.len text) (hitAt + needleLen + after) in
  let head := if 0 <? start then textUtils.ELLIPSIS else EmptyString in
  let tail := if end_ <? JS.len text then textUtils.ELLIPSIS else EmptyString in
  head +:+ JS.slice text start end_ +:+ tail.

(** [if (!bySession.has(key)) bySession.set(key, { session: s, hits: [] });
    bySession.get(key).hits.push(hit)] *)
Fixpoint recordHit (s : SessionSummary) (hit : SearchHit)
         (m : list (string * SessionHits)) : list (string * SessionHits) :=
  match m with
  | [] => [(cacheKey s, {| session := s; hits := [hit] |})]
  | (k, e) :: r =>
      if String.eqb k (cacheKey s)
      then (k, {| session := session e; hits := hits e ++ [hit] |}) :: r
      else (k, e) :: recordHit s hit r
  end.

Definition compareHits (a b : SearchHit) : Z := messageIndex a - messageIndex b.

Definition compareEntries (a b : SessionHits) : Z :=
  historyService.compareSessions (session a) (session b).

Definition sortHits (e : SessionHits) : SessionHits :=
  {| session := session e; hits := Array_sort compareHits (hits e) |}.

Definition tick (st : Scan) : Scan :=
  {| bySession := bySession st; totalHits := totalHits st;
     polls := S (polls st); events := events st ++ [Poll] |}.

Definition emit (evs : list Event) (st : Scan) : Scan :=
  {| bySession := bySession st; totalHits := totalHits st;
     polls := polls st; events := events st ++ evs |}.

Section WithHost.
Context (h : Host) (fs : FileSys).
Context (query : string) (maxResults : Z) (caseSensitive : bool).
Context (token : nat -> bool).

Definition normalizedNeedle : string :=
  if caseSensitive then query else toLowerCase h query.

(** The role and the normalized text of a line that passes the filters
    of the inner loop up to [if (!text) continue]. *)
Definition messageOfLine (line : string) : option (ChatRole * string) :=
  if negb (JS.truthy line) then None
  else
    match JSON_parse h line with
    | None => None
    | Some o =>
        let obj := Some o in
        if negb (isStr "response_item" (prop "type" obj)) then None
        else if negb (isStr "message" (prop "type" (prop "payload" obj))) then None
        else
          match sessionSummary.chatRoleOf (prop "role" (prop "payload" obj)) with
          | None => None
          | Some role =>
              let textRaw :=
                sessionSummary.buildPreviewTextParts
                  (prop "content" (prop "payload" obj)) in
              let text := textUtils.normalizeWhitespace textRaw in
              if negb (JS.truthy text) then None else Some (role, text)
          end
    end.

(** [hay.indexOf(normalizedNeedle)] *)
Definition hitAtOf (text : string) : option Z :=
  let hay := if caseSensitive then text else toLowerCase h text in
  JS.indexOf hay normalizedNeedle.

Definition hitOf (msgIndex : Z) (role : ChatRole) (text : string) (hitAt : Z)
  : SearchHit :=
  {| messageIndex := msgIndex; role := role;
     snippet := textUtils.singleLineSnippet
                  (buildAround text hitAt (JS.len query)) 160 |}.

Definition addHit (s : SessionSummary) (hit : SearchHit) (st : Scan) : Scan :=
  {| bySession := recordHit s hit (bySession st);
     totalHits := totalHits st + 1;
     polls := polls st; events := events st |}.

(** [for await (const line of rl)] *)
Fixpoint scanLines (s : SessionSummary) (lines : list string) (msgIndex : Z)
         (st : Scan) : Flow :=
  match lines with
  | [] => Next st
  | line :: rest =>
      if token (polls st) then ReturnNull (tick st)
      else
        let st := tick st in
        if totalHits st >=? maxResults then Next st
        else
          match messageOfLine line with
          | None => scanLines s rest msgIndex st
          | Some (role, text) =>
              let msgIndex := msgIndex + 1 in
              match hitAtOf text with
              | None => scanLines s rest msgIndex st
              | Some hitAt =>
                  let st := addHit s (hitOf msgIndex role text hitAt) st in
                  if totalHits st >=? maxResults then Next st
                  else scanLines s rest msgIndex st
              end
          end
  end.

(** [for (let i = 0; i < sessions.length; i += 1)] *)
Fixpoint searchLoop (total i : Z) (sessions : list SessionSummary) (st : Scan)
  : Flow :=
  match sessions with
  | [] => Next st
  | s :: rest =>
      if token (polls st) then ReturnNull (tick st)
      else
        let st := tick st in
        let st := emit [Report (JS.toString (i + 1) +:+ "/" +:+ JS.toString total);
                        Open (fsPath s)] st in
        match fs_read fs (fsPath s) with
        | None => StreamFault st
        | Some content =>
            match scanLines s (Node.lines content) 0 st with
            | Next st' => searchLoop total (i + 1) rest st'
            | stop => stop
            end
        end
  end.

Definition resultOf (st : Scan) : SearchResult :=
  let list := map snd (bySession st) in
  {| resultTotalHits := totalHits st;
     resultSessions := map sortHits (Array_sort compareEntries list) |}.

Definition searchSessions (sessions : list SessionSummary) : Run :=
  let start := {| bySession := []; totalHits := 0; polls := 0; events := [] |} in
  match searchLoop (Z.of_nat (length sessions)) 0 sessions start with
  | Next st => {| outcome := Done (resultOf st); polled := polls st; trace := events st |}
  | ReturnNull st => {| outcome := Null; polled := polls st; trace := events st |}
  | StreamFault st => {| outcome := Fault; polled := polls st; trace := events st |}
  end.

End WithHost.


(** [matchScope] *)
Definition matchScope (session : SessionSummary) (scope : DateScope) : bool :=
  let ymd := localDate session in
  match scope with
  | ScopeAll => true
  | ScopeYear yyyy => JS.startsWith (yyyy +:+ "-") ymd
  | ScopeMonth ym => JS.startsWith (ym +:+ "-") ymd
  | ScopeDay d => String.eqb ymd d
  end.

(** [matchProject] *)
Definition matchProject (h : Host) (session : SessionSummary)
           (projectCwd : option string) : bool :=
  match projectCwd with
  | None => true
  | Some project =>
      if negb (JS.truthy project) then true
      else
        let cwd := match cwd (meta session) with
                   | Some c => JS.trim c
                   | None => EmptyString
                   end in
        if negb (JS.truthy cwd) then false
        else String.eqb (fsUtils.normalizeCacheKey h cwd)
                        (fsUtils.normalizeCacheKey h project)
  end.

(** The values [project] and [candidates] of [runSearchFlow]. *)
Definition projectOf (projectCwd : option string) : option string :=
  match projectCwd with
  | Some p => if 0 <? JS.len (JS.trim p) then Some (JS.trim p) else None
  | None => None
  end.

Definition candidatesOf (h : Host) (index : HistoryIndex) (effectiveScope : DateScope)
           (projectCwd : option string) : list SessionSummary :=
  let project := projectOf projectCwd in
  filter (fun s => matchScope s effectiveScope && matchProject h s project = true)
         (sessions index).

End searchService.

(** ** [services/pinStore.ts] *)

Module pinStore.

Record PinEntry : Type := { pinFsPath : string; pinCacheKey : string; pinnedAt : Z }.

(** The object that [memento.update] stores for a pin. *)
Definition stored (p : PinEntry) : JSON :=
  JObj [("fsPath", JStr (pinFsPath p)); ("cacheKey", JStr (pinCacheKey p));
        ("pinnedAt", JNum (pinnedAt p))].

(** The result of [pinMany] and of [unpinMany]: the value of the memento
    under [PINS_KEY] after the call, the count [pinned] or [unpinned], and
    the count [skipped]. *)
Record Outcome : Type := { memento : option JSON; changed : Z; skipped : Z }.

Section WithHost.
Context (h : Host).

(** The loop of [normalizeFsPaths] from the paths not yet read. *)
Fixpoint normalizeFrom (fsPaths : list string) (seen : list string)
         (out : list (string * string)) : list (string * string) :=
  match fsPaths with
  | [] => out
  | raw :: rest =>
      let fsPath := JS.trim raw in
      if negb (JS.truthy fsPath) then normalizeFrom rest seen out
      else
        let cacheKey := fsUtils.normalizeCacheKey h fsPath in
        if JS.has cacheKey seen then normalizeFrom rest seen out
        else normalizeFrom rest (JS.add cacheKey seen) (out ++ [(fsPath, cacheKey)])
  end.

Definition normalizeFsPaths (fsPaths : list string) : list (string * string) :=
  normalizeFrom fsPaths [] [].

(** One element of the stored array as [getAll] reads it. *)
Definition entryOf (x : JSON) : option PinEntry :=
  match x with
  | JObj m =>
      match lastBinding "fsPath" m, lastBinding "pinnedAt" m with
      | Some (JStr fsPath), Some (JNum at_) =>
          Some {| pinFsPath := fsPath;
                  pinCacheKey := fsUtils.normalizeCacheKey h fsPath;
                  pinnedAt := at_ |}
      | _, _ => None
      end
  | _ => None
  end.

Definition getAll (raw : option JSON) : list PinEntry :=
  match raw with
  | Some (JArr items) => omap entryOf items
  | _ => []
  end.

Definition isPinned (raw : option JSON) (fsPath : string) : bool :=
  let key := fsUtils.normalizeCacheKey h fsPath in
  existsb (fun p => String.eqb (pinCacheKey p) key) (getAll raw).

(** The loop that fills [toAdd]; [i] is the index in [normalized]. *)
Fixpoint toAddFrom (existing : list string) (base i : Z)
         (normalized : list (string * string)) : list PinEntry :=
  match normalized with
  | [] => []
  | (fsPath, cacheKey) :: rest =>
      if JS.has cacheKey existing then toAddFrom existing base (i + 1) rest
      else {| pinFsPath := fsPath; pinCacheKey := cacheKey; pinnedAt := base + i |}
           :: toAddFrom existing base (i + 1) rest
  end.

(** [pinMany]; [now] is the value of [Date.now()]. *)
Definition pinMany (raw : option JSON) (now : Z) (fsPaths : list string) : Outcome :=
  let normalized := normalizeFsPaths fsPaths in
  if Nat.eqb (length normalized) 0 then {| memento := raw; changed := 0; skipped := 0 |}
  else
    let pins := getAll raw in
    let existing := JS.setOf (map pinCacheKey pins) in
    let toAdd := toAddFrom existing now 0 normalized in
    {| memento := if Nat.ltb 0 (length toAdd)
                  then Some (JArr (map stored (pins ++ toAdd)))
                  else raw;
       changed := Z.of_nat (length toAdd);
       skipped := Z.of_nat (length normalized) - Z.of_nat (length toAdd) |}.

Definition pin (raw : option JSON) (now : Z) (fsPath : string) : option JSON :=
  memento (pinMany raw now [fsPath]).

Definition unpinMany (raw : option JSON) (fsPaths : list string) : Outcome :=
  let normalized := normalizeFsPaths fsPaths in
  if Nat.eqb (length normalized) 0 then {| memento := raw; changed := 0; skipped := 0 |}
  else
    let removeKeys := JS.setOf (map snd normalized) in
    let pins := getAll raw in
    let beforeKeys := JS.setOf (map pinCacheKey pins) in
    let nextPins := List.filter (fun p => negb (JS.has (pinCacheKey p) removeKeys)) pins in
    let removedKeysCount :=
      Z.of_nat (length (List.filter (fun k => JS.has k beforeKeys) removeKeys)) in
    {| memento := if 0 <? removedKeysCount
                  then Some (JArr (map stored nextPins))
                  else raw;
       changed := removedKeysCount;
       skipped := Z.of_nat (length normalized) - removedKeysCount |}.

Definition unpin (raw : option JSON) (fsPath : string) : option JSON :=
  memento (unpinMany raw [fsPath]).

End WithHost.

End pinStore.

(** ** [sessions/sessionDiscovery.ts] *)

Module sessionDiscovery.

(** What [readdir] with [withFileTypes] shows below a directory: regular
    files, directories with their own entries ([None] where [readdir]
    fails), and entries that are neither, such as symbolic links. *)
Inductive Node : Type :=
| FileNode (name : string)
| OtherNode (name : string)
| DirNode (name : string) (entries : option (list Node)).

Section WithPlatform.
Context (pf : Platform).

(** [for (const ent of entries)]; the head of [stack] is its top. *)
Fixpoint scanEntries (dir : string) (entries : list Node)
         (stack : list (string * option (list Node))) (results : list string)
  : list (string * option (list Node)) * list string :=
  match entries with
  | [] => (stack, results)
  | ent :: rest =>
      match ent with
      | DirNode name sub =>
          scanEntries dir rest ((path_join pf dir name, sub) :: stack) results
      | FileNode name =>
          if negb (JS.startsWith "rollout-" name) then scanEntries dir rest stack results
          else if negb (JS.endsWith ".jsonl" name) then scanEntries dir rest stack results
          else scanEntries dir rest stack (results ++ [path_join pf dir name])
      | OtherNode _ => scanEntries dir rest stack results
      end
  end.

(** [while (stack.length > 0)]; one unit of [fuel] per turn, [None] when
    it runs out. *)
Fixpoint walk (fuel : nat) (stack : list (string * option (list Node)))
         (results : list string) : option (list string) :=
  match stack with
  | [] => Some results
  | (dir, sub) :: below =>
      match fuel with
      | O => None
      | S f =>
          if negb (JS.truthy dir) then walk f below results
          else
            match sub with
            | None => walk f below results
            | Some entries =>
                let '(stack', results') := scanEntries dir entries below results in
                walk f stack' results'
            end
      end
  end.

End WithPlatform.

(** The number of directories in and below a node. *)
Fixpoint directories (n : Node) : nat :=
  match n with
  | DirNode _ (Some entries) => S (list_sum (map directories entries))
  | DirNode _ None => 1
  | _ => 0
  end.

(** [findSessionFiles]; [rootExists] is the answer of [pathExists], and
    [rootEntries] what [readdir] shows for the root. *)
Definition findSessionFiles (pf : Platform) (sessionsRoot : string) (rootExists : bool)
           (rootEntries : option (list Node)) : option (list string) :=
  if negb rootExists then Some []
  else walk pf (S (directories (DirNode sessionsRoot rootEntries)))
            [(sessionsRoot, rootEntries)] [].

End sessionDiscovery.

(** ** [chat/chatTypes.ts] *)

Module chatTypes.

Inductive ChatRole : Type := developer | user | assistant.

(** [ChatSessionMeta] has the fields of [SessionMetaInfo], which stands
    for it. *)
Inductive ChatTimelineItem : Type :=
| MessageItem (role : ChatRole) (messageIndex : option Z) (timestampIso : option string)
              (text : string) (requestText : option string) (isContext : bool)
| ToolItem (timestampIso : option string) (name : string)
           (callId argumentsText outputText : option string)
| NoteItem (timestampIso : option string) (title : string) (text : option string).

Record ChatSessionModel : Type := {
  fsPath : string;
  meta : SessionMetaInfo;
  items : list ChatTimelineItem
}.

Definition roleText (r : ChatRole) : string :=
  match r with
  | developer => "developer"
  | user => "user"
  | assistant => "assistant"
  end.

(** [role] of a record when it is one of the three roles. *)
Definition roleOf (v : option JSON) : option ChatRole :=
  if isStr "user" v then Some user
  else if isStr "assistant" v then Some assistant
  else if isStr "developer" v then Some developer
  else None.

Definition isAssistant (r : ChatRole) : bool :=
  match r with assistant => true | _ => false end.

Definition isUser (r : ChatRole) : bool :=
  match r with user => true | _ => false end.

End chatTypes.

(** ** [chat/chatModelBuilder.ts] *)

Module chatModelBuilder.
Import chatTypes.

(** The variables of [readTimelineItems]; [toolByCallId] holds for a call
    id the position in [items] of the tool item that the map refers to. *)
Record Timeline : Type := {
  timelineItems : list ChatTimelineItem;
  toolByCallId : gmap string nat;
  messageIndex : Z
}.

Definition normalizeText (s : string) : string :=
  JS.trim (textUtils.unixNewlines s).

(** [typeof v === "string" && v] as a condition. *)
Definition truthyText (v : option string) : bool :=
  match v with
  | Some s => JS.truthy s
  | None => false
  end.

(** [tool.outputText = outputText], and the time stamp filled in when the
    tool item has none. *)
Definition withOutput (item : ChatTimelineItem) (outputText ts : option string)
  : ChatTimelineItem :=
  match item with
  | ToolItem timestampIso name callId argumentsText _ =>
      ToolItem (if truthyText timestampIso then timestampIso else ts)
               name callId argumentsText outputText
  | other => other
  end.

Section WithHost.
Context (h : Host).

(** The loop of [readSessionMeta]. *)
Fixpoint metaOfLines (lines : list string) : SessionMetaInfo :=
  match lines with
  | [] => noMeta
  | line :: rest =>
      if negb (JS.truthy line) then metaOfLines rest
      else
        match JSON_parse h line with
        | None => metaOfLines rest
        | Some o =>
            if negb (isStr "session_meta" (prop "type" (Some o))) then metaOfLines rest
            else
              let p := match prop "payload" (Some o) with
                       | None | Some JNull => Some (JObj [])
                       | Some p => Some p
                       end in
              {| id := asString (prop "id" p);
                 timestampIso := asString (prop "timestamp" p);
                 cwd := asString (prop "cwd" p);
                 originator := asString (prop "originator" p);
                 cliVersion := asString (prop "cli_version" p);
                 modelProvider := asString (prop "model_provider" p);
                 source := asString (prop "source" p) |}
        end
  end.

Definition readSessionMeta (fs : FileSys) (fsPath : string) : Result SessionMetaInfo :=
  match fs_read fs fsPath with
  | None => Throw
  | Some content => Ok (metaOfLines (Node.lines content))
  end.

(** One turn of the loop of [readTimelineItems] on a record that parsed.
    The functions [extractTextFromContent] and [isBoilerplate] of this file
    have the bodies of [buildPreviewTextParts] and [isBoilerplateUserMessage]
    of [sessionSummary.ts], which stand for them here, in
    [transcriptRenderer.ts] and in [resumeContext.ts]. *)
Definition timelineStep (st : Timeline) (o : JSON) : Timeline :=
  let obj := Some o in
  let payload := prop "payload" obj in
  let isItem := isStr "response_item" (prop "type" obj) in
  let ts := asString (prop "timestamp" obj) in
  if isItem && isStr "message" (prop "type" payload) then
    match roleOf (prop "role" payload) with
    | None => st
    | Some role =>
        let textRaw := sessionSummary.buildPreviewTextParts (prop "content" payload) in
        let text := normalizeText textRaw in
        if negb (JS.truthy text) then st
        else
          let isContext := negb (isAssistant role) &&
                           sessionSummary.isBoilerplateUserMessage text in
          let requestText :=
            if isUser role then
              Some match textUtils.extractTaskSectionText text with
                   | Some t => t
                   | None => match textUtils.extractUserRequestText text with
                             | Some t => t
                             | None => text
                             end
                   end
            else None in
          let numbered := isUser role || isAssistant role in
          let next := if numbered then messageIndex st + 1 else messageIndex st in
          {| timelineItems :=
               timelineItems st ++
               [MessageItem role (if numbered then Some next else None) ts text
                            requestText isContext];
             toolByCallId := toolByCallId st;
             messageIndex := next |}
    end
  else if isItem && isStr "function_call" (prop "type" payload) then
    let name := match asString (prop "name" payload) with
                | Some n => n
                | None => "function_call"
                end in
    let callId := asString (prop "call_id" payload) in
    let argumentsText := asString (prop "arguments" payload) in
    {| timelineItems := timelineItems st ++ [ToolItem ts name callId argumentsText None];
       toolByCallId := match callId with
                       | Some c => if JS.truthy c
                                   then <[c := length (timelineItems st)]> (toolByCallId st)
                                   else toolByCallId st
                       | None => toolByCallId st
                       end;
       messageIndex := messageIndex st |}
  else if isItem && isStr "function_call_output" (prop "type" payload) then
    let callId := asString (prop "call_id" payload) in
    let outputText := asString (prop "output" payload) in
    let known := match callId with
                 | Some c => if JS.truthy c then toolByCallId st !! c else None
                 | None => None
                 end in
    match known with
    | Some i =>
        {| timelineItems :=
             match timelineItems st !! i with
             | Some tool => <[i := withOutput tool outputText ts]> (timelineItems st)
             | None => timelineItems st
             end;
           toolByCallId := toolByCallId st;
           messageIndex := messageIndex st |}
    | None =>
        {| timelineItems :=
             timelineItems st ++ [ToolItem ts "function_call_output" callId None outputText];
           toolByCallId := toolByCallId st;
           messageIndex := messageIndex st |}
    end
  else st.

Definition timelineOfLine (st : Timeline) (line : string) : Timeline :=
  if negb (JS.truthy line) then st
  else
    match JSON_parse h line with
    | None => st
    | Some o => timelineStep st o
    end.

Definition timelineOf (lines : list string) : Timeline :=
  fold_left timelineOfLine lines
            {| timelineItems := []; toolByCallId := ∅; messageIndex := 0 |}.

Definition readTimelineItems (fs : FileSys) (fsPath : string)
  : Result (list ChatTimelineItem) :=
  match fs_read fs fsPath with
  | None => Throw
  | Some content => Ok (timelineItems (timelineOf (Node.lines content)))
  end.

Definition buildChatSessionModel (fs : FileSys) (fsPath : string)
  : Result ChatSessionModel :=
  meta ← readSessionMeta fs fsPath;
  items ← readTimelineItems fs fsPath;
  Ok {| chatTypes.fsPath := fsPath; chatTypes.meta := meta; chatTypes.items := items |}.

End WithHost.

End chatModelBuilder.

(** ** [transcript/transcriptRenderer.ts] *)

Module transcriptRenderer.
Import chatTypes.

(** The variables of [renderTranscript]: the array [lines], the map from
    the number of a message to a line number, in the order of its keys, the
    counter [msgIndex] and the call id [lastToolCallId]. *)
Record Rendering : Type := {
  lines : list string;
  messageLineMap : list (Z * Z);
  msgIndex : Z;
  lastToolCallId : option string
}.

Record Transcript : Type := {
  content : string;
  lineOfMessage : list (Z * Z)
}.

Definition capitalize (s : string) : string :=
  match s with
  | String c rest => String (JS.upperAscii c) rest
  | EmptyString => s
  end.

Definition code (s : string) : string := "`" +:+ s +:+ "`".

(** [if (v) lines.push(label + v)] for an optional text. *)
Definition pushField (label : string) (v : option string) (lines : list string)
  : list string :=
  match v with
  | Some s => if JS.truthy s then lines ++ [label +:+ code s] else lines
  | None => lines
  end.

Definition header (fsPath : string) (meta : option SessionMetaInfo) : list string :=
  let lines := ["# Codex Session"; EmptyString; "- File: " +:+ code fsPath] in
  let field (f : SessionMetaInfo -> option string) := meta ≫= f in
  let lines := pushField "- Start (UTC): " (field timestampIso) lines in
  let lines := pushField "- CWD: " (field cwd) lines in
  let lines := pushField "- Originator: " (field originator) lines in
  let lines := pushField "- CLI: " (field cliVersion) lines in
  let lines := pushField "- Model Provider: " (field modelProvider) lines in
  let lines := pushField "- Source: " (field source) lines in
  lines ++ [EmptyString; "---"; EmptyString].

Section WithHost.
Context (h : Host) (pf : Platform).

Definition formatJsonIfPossible (text : string) : option string :=
  let s := JS.trim text in
  if negb (JS.truthy s) then None
  else if negb (JS.startsWith "{" s || JS.startsWith "[" s) then None
  else
    match JSON_parse h s with
    | Some obj => Some (JSON_stringify2 pf obj)
    | None => None
    end.

(** One turn of the loop on a record that parsed. *)
Definition renderStep (st : Rendering) (o : JSON) : Rendering :=
  let obj := Some o in
  let payload := prop "payload" obj in
  let ts := asString (prop "timestamp" obj) in
  if negb (isStr "response_item" (prop "type" obj)) then st
  else if isStr "message" (prop "type" payload) then
    match roleOf (prop "role" payload) with
    | None => st
    | Some role =>
        let textRaw := sessionSummary.buildPreviewTextParts (prop "content" payload) in
        let text := textUtils.normalizeWhitespace textRaw in
        if negb (JS.truthy text) then st
        else
          let ctx := if negb (isAssistant role) &&
                        sessionSummary.isBoilerplateUserMessage text
                     then " (context)" else EmptyString in
          let numbered := isUser role || isAssistant role in
          let next := if numbered then msgIndex st + 1 else msgIndex st in
          let title := if numbered
                       then "## [#" +:+ JS.toString next +:+ "] " +:+
                            capitalize (roleText role) +:+ ctx
                       else "## " +:+ capitalize (roleText role) +:+ ctx in
          let pushed := pushField "- Timestamp: " ts (lines st ++ [title]) in
          {| lines := pushed ++ [EmptyString; text; EmptyString];
             messageLineMap :=
               if numbered
               then messageLineMap st ++ [(next, Z.of_nat (length (lines st)) + 1)]
               else messageLineMap st;
             msgIndex := next;
             lastToolCallId := None |}
    end
  else if isStr "function_call" (prop "type" payload) then
    let name := match asString (prop "name" payload) with
                | Some n => n
                | None => "function_call"
                end in
    let callId := asString (prop "call_id" payload) in
    let argsRaw := match asString (prop "arguments" payload) with
                   | Some a => a
                   | None => EmptyString
                   end in
    let args := formatJsonIfPossible argsRaw in
    let pushed := pushField "- Call ID: " callId (lines st ++ ["## [tool] " +:+ name]) in
    let pushed := pushField "- Timestamp: " ts pushed ++ [EmptyString] in
    {| lines := match args with
                | Some a => if JS.truthy a
                            then pushed ++ ["### Arguments"; "```json"; a; "```"; EmptyString]
                            else pushed
                | None => pushed
                end;
       messageLineMap := messageLineMap st;
       msgIndex := msgIndex st;
       lastToolCallId := callId |}
  else if isStr "function_call_output" (prop "type" payload) then
    let callId := asString (prop "call_id" payload) in
    let outRaw := match asString (prop "output" payload) with
                  | Some a => a
                  | None => EmptyString
                  end in
    let out := match formatJsonIfPossible outRaw with
               | Some f => f
               | None => outRaw
               end in
    let sameCall := match callId, lastToolCallId st with
                    | Some c, Some l => JS.truthy c && JS.truthy l && String.eqb c l
                    | _, _ => false
                    end in
    let pushed :=
      if sameCall then lines st ++ ["### Output"]
      else
        let block := pushField "- Call ID: " callId (lines st ++ ["## [tool output]"]) in
        pushField "- Timestamp: " ts block ++ [EmptyString; "### Output"] in
    {| lines := pushed ++ ["```"; out; "```"; EmptyString];
       messageLineMap := messageLineMap st;
       msgIndex := msgIndex st;
       lastToolCallId := lastToolCallId st |}
  else st.

Definition renderLine (st : Rendering) (line : string) : Rendering :=
  if negb (JS.truthy line) then st
  else
    match JSON_parse h line with
    | None => st
    | Some o => renderStep st o
    end.

(** The state after the loop over the lines that it receives. *)
Definition rendered (fsPath : string) (meta : option SessionMetaInfo)
           (fileLines : list string) : Rendering :=
  fold_left renderLine fileLines
            {| lines := header fsPath meta; messageLineMap := [];
               msgIndex := 0; lastToolCallId := None |}.

Definition finish (st : Rendering) : Transcript :=
  let all := if msgIndex st =? 0
             then lines st ++ ["(no user/assistant messages)"; EmptyString]
             else lines st in
  {| content := JS.join (String JS.LF EmptyString) all;
     lineOfMessage := messageLineMap st |}.

(** [renderTranscript].  The source creates the reader of the lines
    first, then awaits [tryReadSessionMeta], and only then starts the loop
    over the lines: the lines that the reader emits in between never reach
    the loop.  [missed] is their number, which the timing of the platform
    decides; the loop receives the lines of the file after them. *)
Definition renderTranscript (fs : FileSys) (fsPath : string) (missed : nat)
  : Result Transcript :=
  meta ← sessionSummary.tryReadSessionMeta h fs fsPath;
  match fs_read fs fsPath with
  | None => Throw
  | Some text => Ok (finish (rendered fsPath meta (skipn missed (Node.lines text))))
  end.

End WithHost.

End transcriptRenderer.

(** ** [services/resumeContext.ts] *)

Module resumeContext.
Import chatTypes.

(** A message of the excerpt; its role is [user] or [assistant]. *)
Record ResumeMessage : Type := {
  resumeRole : ChatRole;
  resumeTimestampIso : option string;
  resumeText : string
}.

Record ResumeRenderOptions : Type := {
  optTimeZone : string;
  maxMessages : option Z;
  maxChars : option Z;
  includeContext : bool
}.

(** The variables of the loop of [renderResumeContext]. *)
Record Collected : Type := {
  taskText : option string;
  recent : list ResumeMessage
}.

(** [clampInt]; [v] is [None] for a value that is not a finite number. *)
Definition clampInt (v : option Z) (min max fallback : Z) : Z :=
  match v with
  | Some n => Z.min max (Z.max min n)
  | None => fallback
  end.

(** [arr.shift()] while the array is longer than [max], for [0 <= max]:
    below zero the loop of the source goes on shifting the empty array. *)
Fixpoint shiftWhileLonger (arr : list ResumeMessage) (max : Z) : list ResumeMessage :=
  match arr with
  | [] => []
  | _ :: rest => if max <? Z.of_nat (length arr) then shiftWhileLonger rest max else arr
  end.

Definition pushRecent (arr : list ResumeMessage) (item : ResumeMessage) (max : Z)
  : list ResumeMessage :=
  shiftWhileLonger (arr ++ [item]) max.

Definition truthyText (v : option string) : bool :=
  match v with
  | Some s => JS.truthy s
  | None => false
  end.

Section WithHost.
Context (h : Host) (pf : Platform).

Definition formatIsoToLocal (iso timeZone : string) (withSeconds : bool) : string :=
  match Date_parse h iso with
  | None => iso
  | Some d => if withSeconds then dateUtils.formatYmdHmsInTimeZone h pf d timeZone
              else dateUtils.formatYmdHmInTimeZone h pf d timeZone
  end.

Definition code (s : string) : string := "`" +:+ s +:+ "`".

(** [if (v) lines.push(label + v)] for an optional text, rendered by
    [show]. *)
Definition pushField (label : string) (show : string -> string) (v : option string)
           (lines : list string) : list string :=
  match v with
  | Some s => if JS.truthy s then lines ++ [label +:+ code (show s)] else lines
  | None => lines
  end.

Definition messageLines (timeZone : string) (m : ResumeMessage) : list string :=
  let lines := ["### " +:+ (if isUser (resumeRole m) then "User" else "Assistant")] in
  let lines := pushField "- Timestamp: " (fun iso => formatIsoToLocal iso timeZone true)
                         (resumeTimestampIso m) lines in
  lines ++ [EmptyString; resumeText m; EmptyString].

Definition buildMarkdown (fsPath : string) (meta : option SessionMetaInfo)
           (timeZone task : string) (recent : list ResumeMessage) : string :=
  let field (f : SessionMetaInfo -> option string) := meta ≫= f in
  let same (s : string) := s in
  let lines := ["# Resume context (Codex History Viewer)"; EmptyString;
                "- Source: " +:+ code fsPath] in
  let lines := pushField "- Start: " (fun iso => formatIsoToLocal iso timeZone false)
                         (field timestampIso) lines in
  let lines := pushField "- CWD: " same (field cwd) lines in
  let lines := pushField "- CLI: " same (field cliVersion) lines in
  let lines := pushField "- Model Provider: " same (field modelProvider) lines in
  let lines := pushField "- Source type: " same (field source) lines in
  let lines :=
    lines ++
    [EmptyString;
     "> IMPORTANT: This excerpt is copied from a past Codex session. Read it and continue the work.";
     EmptyString; "---"; EmptyString; "## Task"; EmptyString; task; EmptyString;
     "## Recent messages"; EmptyString] in
  match recent with
  | [] => JS.join (String JS.LF EmptyString)
                  (lines ++ ["(no recent messages)"; EmptyString])
  | _ => JS.join (String JS.LF EmptyString)
                 (lines ++ concat (map (messageLines timeZone) recent))
  end.

(** One turn of the loop on a record that parsed. *)
Definition collectStep (maxMessages : Z) (includeContext : bool) (st : Collected)
           (o : JSON) : Collected :=
  let obj := Some o in
  let payload := prop "payload" obj in
  if negb (isStr "response_item" (prop "type" obj)) then st
  else if negb (isStr "message" (prop "type" payload)) then st
  else
    match roleOf (prop "role" payload) with
    | None => st
    | Some role =>
        let textRaw := sessionSummary.buildPreviewTextParts (prop "content" payload) in
        let textNormalized := textUtils.normalizeWhitespace textRaw in
        if negb (JS.truthy textNormalized) then st
        else
          let isContext := negb (isAssistant role) &&
                           sessionSummary.isBoilerplateUserMessage textNormalized in
          if isContext && negb includeContext then st
          else
            let ts := asString (prop "timestamp" obj) in
            let request :=
              match textUtils.extractTaskSectionText textNormalized with
              | Some t => Some t
              | None => textUtils.extractUserRequestText textNormalized
              end in
            match role with
            | user =>
                let requestText := match request with
                                   | Some t => t
                                   | None => textNormalized
                                   end in
                {| taskText := if truthyText (taskText st) then taskText st
                               else Some requestText;
                   recent := pushRecent (recent st)
                               {| resumeRole := user; resumeTimestampIso := ts;
                                  resumeText := requestText |} maxMessages |}
            | assistant =>
                {| taskText := taskText st;
                   recent := pushRecent (recent st)
                               {| resumeRole := assistant; resumeTimestampIso := ts;
                                  resumeText := textNormalized |} maxMessages |}
            | developer =>
                {| taskText := if truthyText (taskText st) then taskText st
                               else if truthyText request then request
                                    else taskText st;
                   recent := recent st |}
            end
    end.

Definition collectLine (maxMessages : Z) (includeContext : bool) (st : Collected)
           (line : string) : Collected :=
  if negb (JS.truthy line) then st
  else
    match JSON_parse h line with
    | None => st
    | Some o => collectStep maxMessages includeContext st o
    end.

Definition collected (maxMessages : Z) (includeContext : bool) (fileLines : list string)
  : Collected :=
  fold_left (collectLine maxMessages includeContext) fileLines
            {| taskText := None; recent := [] |}.

(** [while (out.length > maxChars && recentTrimmed.length > 4)]: the
    oldest messages are dropped first. *)
Fixpoint dropOldest (build : list ResumeMessage -> string) (maxChars : Z)
         (recentTrimmed : list ResumeMessage) : list ResumeMessage :=
  match recentTrimmed with
  | [] => []
  | _ :: rest =>
      if (maxChars <? JS.len (build recentTrimmed)) &&
         (4 <? Z.of_nat (length recentTrimmed))
      then dropOldest build maxChars rest
      else recentTrimmed
  end.

Definition renderResumeContext (fs : FileSys) (fsPath : string)
           (options : ResumeRenderOptions) : Result string :=
  let timeZone := optTimeZone options in
  let maxMessages := clampInt (maxMessages options) 4 200 20 in
  let maxChars := clampInt (maxChars options) 2000 200000 25000 in
  meta ← sessionSummary.tryReadSessionMeta h fs fsPath;
  match fs_read fs fsPath with
  | None => Throw
  | Some text =>
      let st := collected maxMessages (includeContext options) (Node.lines text) in
      let safeTask := match taskText st with
                      | Some t => if JS.truthy (JS.trim t) then JS.trim t
                                  else "(task not found)"
                      | None => "(task not found)"
                      end in
      let build := buildMarkdown fsPath meta timeZone safeTask in
      let recentTrimmed := dropOldest build maxChars (recent st) in
      let out := build recentTrimmed in
      Ok (if maxChars <? JS.len out
          then JS.slice out 0 (Z.max 0 (maxChars - 3)) +:+ "..."
          else out)
  end.

End WithHost.

End resumeContext.

(** ** [tree/treeNodes.ts] *)

Inductive ScopeKind : Type := KindAll | KindYear | KindMonth | KindDay.

Inductive TreeNode : Type :=
| YearNode (year : string)
| MonthNode (year month : string)
| DayNode (year month day : string)
| SessionNode (session : SessionSummary) (pinned : bool)
| SearchRootNode (query : string) (scopeKind : ScopeKind) (scopeValue : option string)
                 (totalHits : Z)
| SearchSessionNode (session : SessionSummary) (hits : list searchService.SearchHit)
| SearchHitNode (session : SessionSummary) (hit : searchService.SearchHit)
                (query : string)
| SearchHelpNode
| MissingPinnedNode (fsPath : string).

Module treeNodes.

Definition toTreeItemContextValue (node : TreeNode) : string :=
  match node with
  | YearNode _ => "codexHistoryViewer.year"
  | MonthNode _ _ => "codexHistoryViewer.month"
  | DayNode _ _ _ => "codexHistoryViewer.day"
  | SessionNode _ pinned =>
      if pinned then "codexHistoryViewer.sessionPinned" else "codexHistoryViewer.session"
  | MissingPinnedNode _ => "codexHistoryViewer.sessionMissing"
  | SearchRootNode _ _ _ _ => "codexHistoryViewer.searchRoot"
  | SearchSessionNode _ _ => "codexHistoryViewer.searchSession"
  | SearchHitNode _ _ _ => "codexHistoryViewer.searchHit"
  | SearchHelpNode => "codexHistoryViewer.searchHelp"
  end.

(** [DayNode.ymd] *)
Definition ymdOf (year month day : string) : string :=
  year +:+ "-" +:+ month +:+ "-" +:+ day.

End treeNodes.

(** ** [tree/historyTree.ts] *)

Module historyTree.

(** [escapeForMarkdown]; [pinnedTree.ts] and [searchTree.ts] hold the same
    function. *)
Definition escapeForMarkdown (s : string) : string :=
  let BS := ascii_of_nat 92 in
  let esc (c : ascii) := String BS (String c EmptyString) in
  JS.str (JS.replaceChar "_"%char (esc "_"%char)
           (JS.replaceChar "*"%char (esc "*"%char)
             (JS.replaceChar "`"%char (esc "`"%char)
               (JS.replaceChar BS (esc BS) (JS.chars s))))).

(** The comparator [(a, b) => (a < b ? 1 : -1)] of the key arrays. *)
Definition compareKeys (a b : string) : Z := if String.ltb a b then 1 else -1.

(** [Array.from(m.keys()).sort(...)].  A [Map] yields its keys in the order
    of insertion, which the index does not record; the keys are distinct
    and the array is sorted at once, so that order does not show. *)
Definition sortedKeys {V : Type} (m : gmap string V) : list string :=
  Array_sort compareKeys (map fst (map_to_list m)).

(** The values of a map, for the loops that look for one match. *)
Definition valuesOf {V : Type} (m : gmap string V) : list V :=
  map snd (map_to_list m).

(** [setProjectFilter] *)
Definition setProjectFilter (projectCwd : option string) : option string :=
  match projectCwd with
  | Some p => if 0 <? JS.len (JS.trim p) then Some (JS.trim p) else None
  | None => None
  end.

Section WithHost.
Context (h : Host).
Context (idx : HistoryIndex) (pins : option JSON).
Context (filter_ : DateScope) (projectCwd : option string).

Definition matchesProject (session : SessionSummary) : bool :=
  match projectCwd with
  | None => true
  | Some project =>
      if negb (JS.truthy project) then true
      else
        match cwd (meta session) with
        | None => false
        | Some c =>
            if JS.len (JS.trim c) =? 0 then false
            else String.eqb (fsUtils.normalizeCacheKey h c)
                            (fsUtils.normalizeCacheKey h project)
        end
  end.

Definition filtering : bool :=
  match projectCwd with
  | Some p => JS.truthy p
  | None => false
  end.

Definition dayHas (list : list SessionSummary) : bool := existsb matchesProject list.

Definition monthHas (days : gmap string (list SessionSummary)) : bool :=
  existsb dayHas (valuesOf days).

Definition yearHas (months : gmap string (gmap string (list SessionSummary))) : bool :=
  existsb monthHas (valuesOf months).

Definition yearNodes : list TreeNode :=
  let years := sortedKeys (byY idx) in
  if negb filtering then map YearNode years
  else map YearNode
           (List.filter (fun y => match byY idx !! y with
                                  | Some months => yearHas months
                                  | None => false
                                  end) years).

Definition monthNodes (yyyy : string) : list TreeNode :=
  match byY idx !! yyyy with
  | None => []
  | Some months =>
      let keys := sortedKeys months in
      if negb filtering then map (MonthNode yyyy) keys
      else map (MonthNode yyyy)
               (List.filter (fun m => match months !! m with
                                      | Some days => monthHas days
                                      | None => false
                                      end) keys)
  end.

(** [idx.byY.get(yyyy)?.get(mm)] *)
Definition daysOf (yyyy mm : string) : option (gmap string (list SessionSummary)) :=
  match byY idx !! yyyy with
  | Some months => months !! mm
  | None => None
  end.

Definition dayNodes (yyyy mm : string) : list TreeNode :=
  match daysOf yyyy mm with
  | None => []
  | Some days =>
      let keys := sortedKeys days in
      if negb filtering then map (DayNode yyyy mm) keys
      else map (DayNode yyyy mm)
               (List.filter (fun d => dayHas (default [] (days !! d))) keys)
  end.

Definition sessionNodes (yyyy mm dd : string) : list TreeNode :=
  let sessions := match daysOf yyyy mm with
                  | Some days => default [] (days !! dd)
                  | None => []
                  end in
  let filtered := if filtering then List.filter matchesProject sessions else sessions in
  map (fun s => SessionNode s (pinStore.isPinned h pins (fsPath s))) filtered.

Definition getChildren (element : option TreeNode) : list TreeNode :=
  match element with
  | None =>
      match filter_ with
      | ScopeAll => yearNodes
      | ScopeYear yyyy => monthNodes yyyy
      | ScopeMonth ym =>
          match JS.split "-" ym with
          | yyyy :: mm :: _ =>
              if negb (JS.truthy yyyy) || negb (JS.truthy mm) then []
              else dayNodes yyyy mm
          | _ => []
          end
      | ScopeDay ymd =>
          match JS.split "-" ymd with
          | yyyy :: mm :: dd :: _ =>
              if negb (JS.truthy yyyy) || negb (JS.truthy mm) || negb (JS.truthy dd)
              then []
              else sessionNodes yyyy mm dd
          | _ => []
          end
      end
  | Some (YearNode year) => monthNodes year
  | Some (MonthNode year month) => dayNodes year month
  | Some (DayNode year month day) => sessionNodes year month day
  | Some _ => []
  end.

End WithHost.

End historyTree.

(** ** [tree/pinnedTree.ts] *)

Module pinnedTree.

Definition comparePins (a b : pinStore.PinEntry) : Z :=
  pinStore.pinnedAt b - pinStore.pinnedAt a.

Definition getChildren (h : Host) (idx : HistoryIndex) (pins : option JSON)
           (element : option TreeNode) : list TreeNode :=
  match element with
  | Some _ => []
  | None =>
      map (fun p =>
             match historyService.findByFsPath h idx (pinStore.pinFsPath p) with
             | Some s => SessionNode s true
             | None => MissingPinnedNode (pinStore.pinFsPath p)
             end)
          (Array_sort comparePins (pinStore.getAll h pins))
  end.

End pinnedTree.

(** ** Scenarios *)

Module Scenario.
Import Posix.

Definition root : string := "/home/u/.codex/sessions".
Definition fileA : string := "/home/u/.codex/sessions/2024/05/01/rollout-A.jsonl".
Definition fileB : string := "/home/u/.codex/sessions/2024/05/02/rollout-B.jsonl".

(** The three records of the scenario; [tag] is the name of the field that
    carries the kind of a record. *)
Definition metaLineAt (tag stamp : string) : string :=
  jtext ("{'" +:+ tag +:+ "':'session_meta','payload':{'timestamp':'" +:+ stamp
         +:+ "','cwd':'/proj'}}").

Definition metaLine (tag : string) : string := metaLineAt tag "2024-05-01T10:00:00Z".

Definition messageLine (tag who what : string) : string :=
  jtext ("{'" +:+ tag +:+ "':'response_item','payload':{'type':'message','role':'"
         +:+ who +:+ "','content':[{'text':'" +:+ what +:+ "'}]}}").

Definition logLines (tag : string) : list string :=
  [metaLine tag; messageLine tag "user" "hello world";
   messageLine tag "assistant" "hi there"].

(** The log with its records tagged by [kind], and the same log tagged by
    [type], the field the program reads. *)
Definition kindTagged : string := unlines (logLines "kind").
Definition typeTagged : string := unlines (logLines "type").

Definition onePerRole (l : list PreviewMessage) : Prop :=
  length (filter (fun m => ChatRole_eqb (role m) user) l) = 1%nat /\
  length (filter (fun m => ChatRole_eqb (role m) assistant) l) = 1%nat.

(** A file system with the listed log files below [root]; the content is
    [None] for a file that [stat] sees and that cannot be opened for
    reading. *)
Fixpoint entryOf (files : list (string * (Stat * option string))) (p : string)
  : option (Stat * option string) :=
  match files with
  | [] => None
  | (q, e) :: rest => if String.eqb p q then Some e else entryOf rest p
  end.

Definition fsOf (files : list (string * (Stat * option string))) : FileSys :=
  {| fs_exists := fun p => String.eqb p root || bool_decide (is_Some (entryOf files p));
     fs_stat := fun p => fst <$> entryOf files p;
     fs_read := fun p => entryOf files p ≫= snd |}.

Definition oneFile (path : string) (st : Stat) (content : option string) : FileSys :=
  fsOf [(path, (st, content))].

Definition someStat : Stat := {| mtimeMs := 1714557600000; size := 300 |}.

Definition helloWorld : PreviewMessage := {| role := user; text := "hello world" |}.
Definition hiThere : PreviewMessage := {| role := assistant; text := "hi there" |}.

(** The file system of the scenario, with the log tagged by [type] and
    with the log tagged by [kind]. *)
Definition fsType : FileSys := oneFile fileA someStat (Some typeTagged).
Definition fsKind : FileSys := oneFile fileA someStat (Some kindTagged).

(** A file that [stat] sees and that cannot be opened for reading. *)
Definition fsLocked : FileSys := oneFile fileA someStat None.

(** The summaries that the extractor builds on [fsType] and on [fsKind]. *)
Definition summaryType : SessionSummary :=
  {| fsPath := fileA; cacheKey := fileA;
     meta := {| id := None; timestampIso := Some "2024-05-01T10:00:00Z";
                cwd := Some "/proj"; originator := None; cliVersion := None;
                modelProvider := None; source := None |};
     inferredYmd := Some {| year := 2024; month := 5; day := 1 |};
     localDate := "2024-05-01"; timeLabel := "10:00";
     snippet := "hello world"; cwdShort := "/proj";
     previewMessages := [helloWorld; hiThere] |}.

Definition summaryKind : SessionSummary :=
  {| fsPath := fileA; cacheKey := fileA; meta := noMeta;
     inferredYmd := Some {| year := 2024; month := 5; day := 1 |};
     localDate := "2024-05-01"; timeLabel := "--:--";
     snippet := "rollout-A.jsonl"; cwdShort := EmptyString;
     previewMessages := [] |}.

(** Two more logs, outside the date directories: one that starts in the
    year 99 and one that starts in the year before the year 0. *)
Definition oldFile : string := "/home/u/.codex/sessions/rollout-old.jsonl".
Definition bcFile : string := "/home/u/.codex/sessions/rollout-bc.jsonl".

Definition oldLog : string := unlines [metaLineAt "type" "0099-03-04T05:06:07Z"].
Definition bcLog : string := unlines [metaLineAt "type" "-000001-03-04T05:06:07Z"].

Definition fsThree : FileSys :=
  fsOf [(fileA, (someStat, Some typeTagged)); (oldFile, (someStat, Some oldLog));
        (bcFile, (someStat, Some bcLog))].





Definition config6 : Config := {| sessionsRoot := root; previewMaxMessages := 6 |}.

Definition settingsKey : string := "uiLanguage=auto;timeZone=UTC".

(** The result of a pass that fulfils, the empty result otherwise. *)
Definition fulfilled (x : Result historyService.Refreshed) : historyService.Refreshed :=
  match x with
  | Ok r => r
  | Throw => {| historyService.index := historyService.emptyIndex EmptyString;
                historyService.written := None; historyService.calls := [] |}
  end.

Definition refreshedThree : historyService.Refreshed :=
  fulfilled (historyService.refresh Posix.host fsThree config6 settingsKey
               [fileA; oldFile; bcFile] None false).

(** A path that discovery returned and that is gone when the pass reaches
    it. *)
Definition goneFile : string := "/home/u/.codex/sessions/2024/05/02/rollout-gone.jsonl".

Definition refreshedGone : historyService.Refreshed :=
  fulfilled (historyService.refresh Posix.host fsType config6 settingsKey
               [fileA; goneFile] None false).

(** A first pass without a cache, and second passes that read the cache
    the first one wrote: on the same files, after a change of the
    modification time, and with another preview limit. *)
Definition refreshedFirst : historyService.Refreshed :=
  fulfilled (historyService.refresh Posix.host fsType config6 settingsKey [fileA] None false).
Definition refreshedSecond : historyService.Refreshed :=
  fulfilled (historyService.refresh Posix.host fsType config6 settingsKey [fileA]
               (historyService.written refreshedFirst) false).
Definition fsTouched : FileSys :=
  oneFile fileA {| mtimeMs := mtimeMs someStat + 1; size := size someStat |} (Some typeTagged).
Definition refreshedTouched : historyService.Refreshed :=
  fulfilled (historyService.refresh Posix.host fsTouched config6 settingsKey [fileA]
               (historyService.written refreshedFirst) false).
Definition refreshedRelimited : historyService.Refreshed :=
  fulfilled (historyService.refresh Posix.host fsType {| sessionsRoot := root; previewMaxMessages := 7 |}
               settingsKey [fileA] (historyService.written refreshedFirst) false).

(** The cache file of the storage, an old and a new cache document. *)
Definition cacheUri : string := "/home/u/.config/storage/cache.v4.json".

Definition cacheDocument (entries : list (string * JSON)) : JSON :=
  JObj [("version", JNum 4); ("summaryAlgoVersion", JNum 3);
        ("sessionsRoot", JStr root); ("previewMaxMessages", JNum 6);
        ("dateTimeSettingsKey", JStr settingsKey); ("entries", JObj entries)].

Definition oldCache : JSON := cacheDocument [].

Definition newCache : JSON :=
  cacheDocument [(fileA, JObj [("mtimeMs", JNum 1714557600000); ("size", JNum 300)])].

Definition storeBefore : gmap string string :=
  {[ cacheUri := Posix.stringify oldCache ]}.

(** The write of the new cache that fails after forty bytes. *)
Definition failedWrite : gmap string string * Result unit :=
  jsonStorage.perform storeBefore
    (jsonStorage.writeJson Posix.stringify cacheUri newCache) (Some (0%nat, 40%nat)).

(** A second log with the same records, one day later, and its summary. *)
Definition summaryB : SessionSummary :=
  {| fsPath := fileB; cacheKey := fileB; meta := meta summaryType;
     inferredYmd := Some {| year := 2024; month := 5; day := 2 |};
     localDate := "2024-05-02"; timeLabel := "10:00";
     snippet := "hello world"; cwdShort := "/proj";
     previewMessages := [helloWorld; hiThere] |}.

Definition fsTwo : FileSys :=
  fsOf [(fileA, (someStat, Some typeTagged)); (fileB, (someStat, Some typeTagged))].

(** A token that is never cancelled, and one that is cancelled at the
    poll number [k]. *)
Definition never : nat -> bool := fun _ => false.
Definition atPoll (k : nat) : nat -> bool := fun n => Nat.eqb n k.

(** The search for [h] with at most one result over both logs, each of
    which holds two messages with an [h]. *)
Definition cappedRun : searchService.Run :=
  searchService.searchSessions Posix.host fsTwo "h" 1 false never
    [summaryType; summaryB].




Definition worldRun : searchService.Run :=
  searchService.searchSessions Posix.host fsType "world" 500 false never [summaryType].

Definition helloHit : searchService.SearchHit :=
  {| searchService.messageIndex := 1; searchService.role := user;
     searchService.snippet := "hello world" |}.

Definition summaryBc : SessionSummary :=
  {| fsPath := bcFile; cacheKey := bcFile;
     meta := {| id := None; timestampIso := Some "-000001-03-04T05:06:07Z";
                cwd := Some "/proj"; originator := None; cliVersion := None;
                modelProvider := None; source := None |};
     inferredYmd := None;
     localDate := "-1-03-04"; timeLabel := "05:06";
     snippet := "rollout-bc.jsonl"; cwdShort := "/proj";
     previewMessages := [] |}.

End Scenario.

(** * Vocabulary of the statements *)

Section Vocabulary.
Context (h : Host).

(** The metadata that the first line of a file gives. *)
Definition metaOf (content : string) : SessionMetaInfo :=
  match sessionSummary.metaOfFirstLine h
          (fsUtils.firstLineOf fsUtils.maxBytesDefault content) with
  | Some m => m
  | None => noMeta
  end.

(** The start of the session when the first line is a [session_meta]
    record with a time stamp that parses. *)
Definition parsedStart (content : string) : option Z :=
  sessionSummary.startLocalOf h (metaOf content).



End Vocabulary.

(** The decimal rendering of [n] in two digits, for [0 <= n < 100]. *)
Definition twoDigits (n : Z) : string :=
  String (ascii_of_nat (Z.to_nat (48 + n / 10)))
    (String (ascii_of_nat (Z.to_nat (48 + n mod 10))) EmptyString).

(** [a] may stand before [b] in an array sorted with [cmp]. *)
Definition before {A : Type} (cmp : A -> A -> Z) (a b : A) : Prop := cmp a b <= 0.

(** The day bucket of a nested map, empty when a key is missing. *)
Definition bucketIn (m : gmap string (gmap string (gmap string (list SessionSummary))))
           (y mo d : string) : list SessionSummary :=
  default [] (default ∅ (default ∅ (m !! y) !! mo) !! d).

(** [s] belongs to the day with the keys [k]. *)
Definition inDay (k : string * string * string) (s : SessionSummary) : bool :=
  bool_decide (historyService.dayKey s = Some k).

(** The keys of the day buckets have the widths four, two and two. *)
Definition fixedWidthKeys (idx : HistoryIndex) : Prop :=
  forall y mo d, historyService.bucket idx y mo d <> [] ->
    String.length y = 4%nat /\ String.length mo = 2%nat /\ String.length d = 2%nat.

(** Every summary of the flat list is in some day bucket. *)
Definition everySessionInABucket (idx : HistoryIndex) : Prop :=
  forall s, In s (sessions idx) ->
    exists y mo d, In s (historyService.bucket idx y mo d).

(** The condition of reuse in the words of the specification: the pass is
    not forced, the stored cache file has the header of the current
    configuration, and it holds for [key] an entry [e] whose fingerprint is
    that of the file. *)
Definition reuseCondition (config : Config) (dtKey : string)
           (stored : option CacheFileV4) (force : bool)
           (key : string) (st : Stat) (e : CacheEntryV1) : Prop :=
  force = false /\
  exists c, stored = Some c /\
    version c = 4 /\
    summaryAlgoVersion c = historyService.SUMMARY_CACHE_ALGO_VERSION /\
    cacheSessionsRoot c = sessionsRoot config /\
    cachePreviewMaxMessages c = previewMaxMessages config /\
    cacheDateTimeSettingsKey c = dtKey /\
    entries c !! key = Some e /\
    cachedMtimeMs e = mtimeMs st /\ cachedSize e = size st.

(** The entry stored after a call of the extractor. *)
Definition freshEntry (st : Stat) (s : SessionSummary) : CacheEntryV1 :=
  {| cachedMtimeMs := mtimeMs st; cachedSize := size st; summary := s |}.

Section ReconcileVocabulary.
Context (h : Host) (fs : FileSys) (config : Config).
Context (cached : gmap string CacheEntryV1).

Definition keyOf (p : string) : string := fsUtils.normalizeCacheKey h p.

Definition extractorOn (p : string) : Result (option SessionSummary) :=
  sessionSummary.buildSessionSummary h fs (sessionsRoot config) p
    (previewMaxMessages config).

(** The pass hands the path to the extractor. *)
Definition extracted (p : string) : bool :=
  match fs_stat fs p with
  | Some st => match historyService.reusedEntry cached (keyOf p) st with
               | Some _ => false
               | None => true
               end
  | None => false
  end.

End ReconcileVocabulary.

Section SearchVocabulary.
Import searchService.
Context (h : Host) (fs : FileSys) (query : string) (caseSensitive : bool).

(** The messages of a file that the search counts, in order. *)
Definition searchable (lines : list string) : list (ChatRole * string) :=
  omap (messageOfLine h) lines.

(** The hits among messages numbered from [from + 1], without a cap. *)
Fixpoint hitsFrom (from : Z) (msgs : list (ChatRole * string)) : list SearchHit :=
  match msgs with
  | [] => []
  | (role, text) :: rest =>
      match hitAtOf h query caseSensitive text with
      | Some hitAt => hitOf query (from + 1) role text hitAt :: hitsFrom (from + 1) rest
      | None => hitsFrom (from + 1) rest
      end
  end.

(** The lines of the file of a session, none when it cannot be read. *)
Definition linesOf (s : SessionSummary) : list string :=
  match fs_read fs (fsPath s) with
  | Some content => Node.lines content
  | None => []
  end.

Definition fileHits (s : SessionSummary) : list SearchHit :=
  hitsFrom 0 (searchable (linesOf s)).

(** All matching messages of the candidates, each with its session. *)
Definition allHits (sessions : list SessionSummary) : list (SessionSummary * SearchHit) :=
  flat_map (fun s => map (pair s) (fileHits s)) sessions.

Definition record (m : list (string * SessionHits)) (sh : SessionSummary * SearchHit)
  : list (string * SessionHits) :=
  recordHit (fst sh) (snd sh) m.

Definition opened (evs : list Event) : list string :=
  omap (fun e => match e with Open p => Some p | _ => None end) evs.

(** The line holds a message that matches the query. *)
Definition matching (line : string) : bool :=
  match messageOfLine h line with
  | Some (_, text) =>
      match hitAtOf h query caseSensitive text with
      | Some _ => true
      | None => false
      end
  | None => false
  end.

(** The lines of a file up to and including the line of its [room]-th
    matching message, all of them when the file holds fewer. *)
Fixpoint upToMatch (room : nat) (lines : list string) : list string :=
  match lines with
  | [] => []
  | line :: rest =>
      match room with
      | O => []
      | S fewer =>
          line :: (if matching line then upToMatch fewer rest else upToMatch room rest)
      end
  end.

(** The lines that the search takes from the reader of a file when [room]
    more hits may be recorded: the lines up to the one that uses up the
    room, and with no room left the first line alone. *)
Definition taken (room : nat) (lines : list string) : list string :=
  match room with
  | O => firstn 1 lines
  | S _ => upToMatch room lines
  end.

(** Every candidate file can be read. *)
Definition readable (sessions : list SessionSummary) : Prop :=
  Forall (fun s => is_Some (fs_read fs (fsPath s))) sessions.

(** The events of a pass that is not cancelled over all candidates, the
    first with number [i + 1], when [room] more hits may be recorded: for
    every candidate the poll of the token, the progress report and the
    opening of the file, and then one poll for every line taken from it. *)
Fixpoint visits (room : nat) (total i : Z) (sessions : list SessionSummary)
  : list Event :=
  match sessions with
  | [] => []
  | s :: rest =>
      [Poll; Report (JS.toString (i + 1) +:+ "/" +:+ JS.toString total); Open (fsPath s)]
      ++ repeat Poll (length (taken room (linesOf s)))
      ++ visits (room - length (fileHits s)) total (i + 1) rest
  end.
End SearchVocabulary.

(** The number of polls among the events. *)
Definition pollCount (evs : list Event) : nat :=
  length (List.filter (fun e => match e with Poll => true | _ => false end) evs).

(** The events up to and including the poll number [n], counted from
    zero. *)
Fixpoint uptoPoll (n : nat) (evs : list Event) : list Event :=
  match evs with
  | [] => []
  | Poll :: rest => Poll :: match n with O => [] | S m => uptoPoll m rest end
  | e :: rest => e :: uptoPoll n rest
  end.

(** The events of a state grow, and its polls with them. *)
Definition grown (st st' : searchService.Scan) : Prop :=
  exists more, searchService.events st' = searchService.events st ++ more /\
               searchService.polls st' = (searchService.polls st + pollCount more)%nat.

(** The search with a token that is never set. *)
Definition uncancelled (h : Host) (fs : FileSys) (query : string) (maxResults : Z)
           (caseSensitive : bool) (sessions : list SessionSummary) : searchService.Run :=
  searchService.searchSessions h fs query maxResults caseSensitive (fun _ => false) sessions.

(** The state in which a loop ends. *)
Definition stateOf (f : searchService.Flow) : searchService.Scan :=
  match f with
  | searchService.Next st | searchService.ReturnNull st | searchService.StreamFault st => st
  end.

(** The token never answers that cancellation is requested. *)
Definition quiet (token : nat -> bool) : Prop := forall n, token n = false.


(** The number of hits that may still be recorded. *)
Definition budget (maxResults : Z) (st : searchService.Scan) : nat :=
  Z.to_nat (maxResults - searchService.totalHits st).

(** The number of hits in a list of sessions. *)
Definition hitCount (l : list searchService.SessionHits) : nat :=
  length (concat (map searchService.hits l)).

Section HitVocabulary.
Import searchService.
Context (h : Host) (query : string) (caseSensitive : bool).


End HitVocabulary.


(** No poll before the [n]-th answered that cancellation is requested. *)
Definition clean (token : nat -> bool) (n : nat) : Prop :=
  forall k, (k < n)%nat -> token k = false.

(** The last poll of a state answered that cancellation is requested, and
    no poll before it. *)
Definition cancelledAt (token : nat -> bool) (st : searchService.Scan) : Prop :=
  (1 <= searchService.polls st)%nat /\ token (searchService.polls st - 1)%nat = true /\ clean token (searchService.polls st - 1).

(** What the polls say at the end of a loop. *)
Definition flowGood (token : nat -> bool) (f : searchService.Flow) : Prop :=
  match f with
  | searchService.Next st | searchService.StreamFault st =>
      clean token (searchService.polls st)
  | searchService.ReturnNull st => cancelledAt token st
  end.


(** A date with a year of four digits. *)
Definition plainDate (ymd : Ymd) : Prop :=
  1000 <= year ymd <= 9999 /\ 0 <= month ymd < 100 /\ 0 <= day ymd < 100.

(** [a] is before [b] in the calendar. *)
Definition earlier (a b : Ymd) : Prop :=
  year a < year b \/
  (year a = year b /\ (month a < month b \/ (month a = month b /\ day a < day b))).

(** The lexicographic combination of two comparisons. *)
Definition thenBy (c d : comparison) : comparison :=
  match c with Eq => d | _ => c end.

(** The save that the specification recommends: write a temporary file,
    then rename it over the target. *)
Definition writeThenRename {T : Type} (stringify : T -> string) (uri : string) (data : T)
  : list jsonStorage.StorageOp :=
  [jsonStorage.WriteFile (uri +:+ ".tmp") (stringify data);
   jsonStorage.Rename (uri +:+ ".tmp") uri].

(** [s.replace(/\s+/g, " ").trim()]: the text on one line, every run of
    white space replaced by one space and the ends trimmed. *)
Definition onOneLine (s : string) : string :=
  JS.trim (JS.str (JS.collapseSpace false (JS.chars s))).

(** Every white space character of [s] is a plain space. *)
Definition plainSpaces (s : string) : Prop :=
  Forall (fun c => JS.isSpace c = true -> c = JS.SP) (JS.chars s).

(** The display width of a text: two units for a wide code point, one for
    any other. *)
Definition displayWidth (text : list Z) : Z :=
  fold_right (fun cp acc => textUtils.widthOf cp + acc) 0 text.

(** What the escape does to one character: a backslash before each of the
    four characters that Markdown reads as markup. *)
Definition escapedChar (c : ascii) : list ascii :=
  if Ascii.eqb c (ascii_of_nat 92) || Ascii.eqb c "`" || Ascii.eqb c "*" || Ascii.eqb c "_"
  then [ascii_of_nat 92; c] else [c].

(** The cache key of a pin is the normalized form of its path. *)
Definition keyed (h : Host) (p : pinStore.PinEntry) : Prop :=
  pinStore.pinCacheKey p = fsUtils.normalizeCacheKey h (pinStore.pinFsPath p).

(** The name of a session log. *)
Definition isSessionFile (name : string) : bool :=
  JS.startsWith "rollout-" name && JS.endsWith ".jsonl" name.

(** The session logs in and below a node of the directory [dir], by
    recursion on the tree: those of a directory that cannot be read are
    not seen. *)
Fixpoint sessionFilesBelow (pf : Platform) (dir : string) (n : sessionDiscovery.Node)
  : list string :=
  match n with
  | sessionDiscovery.FileNode name =>
      if isSessionFile name then [path_join pf dir name] else []
  | sessionDiscovery.OtherNode _ => []
  | sessionDiscovery.DirNode name None => []
  | sessionDiscovery.DirNode name (Some entries) =>
      flat_map (sessionFilesBelow pf (path_join pf dir name)) entries
  end.

(** The session logs and the directories that a frame of the stack stands
    for. *)
Definition frameFiles (pf : Platform) (fr : string * option (list sessionDiscovery.Node))
  : list string :=
  match snd fr with
  | Some entries => flat_map (sessionFilesBelow pf (fst fr)) entries
  | None => []
  end.

Definition frameDirs (fr : string * option (list sessionDiscovery.Node)) : nat :=
  sessionDiscovery.directories (sessionDiscovery.DirNode (fst fr) (snd fr)).

(** The messages that carry a number in the timeline of the chat view,
    each with its number and its role. *)
Definition numberedItems (items : list chatTypes.ChatTimelineItem) : list (Z * ChatRole) :=
  omap (fun item =>
          match item with
          | chatTypes.MessageItem chatTypes.user (Some i) _ _ _ _ => Some (i, user)
          | chatTypes.MessageItem chatTypes.assistant (Some i) _ _ _ _ => Some (i, assistant)
          | _ => None
          end) items.

(** The messages that the search counts, numbered from [from + 1]. *)
Fixpoint numberedFrom (from : Z) (msgs : list (ChatRole * string)) : list (Z * ChatRole) :=
  match msgs with
  | [] => []
  | (role, _) :: rest => (from + 1, role) :: numberedFrom (from + 1) rest
  end.

(** The heading that the transcript gives the message number [k]. *)
Definition headingOf (k : Z) (role : ChatRole) (text : string) : string :=
  "## [#" +:+ JS.toString k +:+ "] " +:+
  match role with user => "User" | assistant => "Assistant" end +:+
  (if ChatRole_eqb role user && sessionSummary.isBoilerplateUserMessage text
   then " (context)" else EmptyString).

(** The headings of the messages that the search counts, numbered from
    [from + 1]. *)
Fixpoint headingsFrom (from : Z) (msgs : list (ChatRole * string)) : list (Z * string) :=
  match msgs with
  | [] => []
  | (role, text) :: rest =>
      (from + 1, headingOf (from + 1) role text) :: headingsFrom (from + 1) rest
  end.

(** The text holds no line feed. *)
Definition singleLine (s : string) : Prop :=
  forallb (fun c => negb (Ascii.eqb c JS.LF)) (JS.chars s) = true.

(** An entry of the line map points at [heading] in the array [entries],
    past its first [base] elements. *)
Definition pointsAt (entries : list string) (base : nat) (e : Z * Z) (hd : Z * string)
  : Prop :=
  fst e = fst hd /\ Z.of_nat base < snd e /\
  entries !! Z.to_nat (snd e - 1) = Some (snd hd).

(** An entry of the line map points at [heading] in the array [entries]
    of the document [doc], and at the line of [doc] with that number when
    the entries before it are single lines. *)
Definition headedAt (doc : string) (entries : list string) (e : Z * Z) (hd : Z * string)
  : Prop :=
  pointsAt entries 0 e hd /\
  (Forall singleLine (firstn (Z.to_nat (snd e - 1)) entries) ->
   JS.split JS.LF doc !! Z.to_nat (snd e - 1) = Some (snd hd)).

(** The last [n] elements of a list, all of it when it has fewer. *)
Definition lastN {A : Type} (n : Z) (l : list A) : list A :=
  skipn (length l - Z.to_nat n) l.

(** The messages that one line of the file gives to the excerpt: none or
    one. *)
Definition lineMessages (h : Host) (includeContext : bool) (line : string)
  : list resumeContext.ResumeMessage :=
  resumeContext.recent
    (resumeContext.collectLine h 1 includeContext
       {| resumeContext.taskText := None; resumeContext.recent := [] |} line).

(** The keys are in descending order. *)
Definition descending (keys : list string) : Prop :=
  StronglySorted (fun a b => String.ltb b a = true) keys.

(** The object that [sanitizeDateScope] returns for a scope. *)
Definition scopeJson (scope : DateScope) : JSON :=
  match scope with
  | ScopeAll => JObj [("kind", JStr "all")]
  | ScopeYear yyyy => JObj [("kind", JStr "year"); ("yyyy", JStr yyyy)]
  | ScopeMonth ym => JObj [("kind", JStr "month"); ("ym", JStr ym)]
  | ScopeDay ymd => JObj [("kind", JStr "day"); ("ymd", JStr ymd)]
  end.

(** The value of a scope passes the validator of its kind. *)
Definition validScope (h : Host) (pf : Platform) (scope : DateScope) : bool :=
  match scope with
  | ScopeAll => true
  | ScopeYear yyyy => dateUtils.isValidYyyy yyyy
  | ScopeMonth ym => dateUtils.isValidYyyyMm ym
  | ScopeDay ymd => dateUtils.isValidYyyyMmDd h pf ymd
  end.

(** The text that the local clock gives for a time value, with seconds. *)
Definition localYmdHms (h : Host) (pf : Platform) (d : Z) : string :=
  dateUtils.ymdToString (dateUtils.toYmdLocal h d) +:+ " " +:+
  dateUtils.formatTimeHmLocal h d +:+ ":" +:+ dateUtils.pad2 (getSeconds pf d).

(** The formatter of the time zone cannot be used for the time value:
    the name is blank, the platform refuses it, or formatting throws. *)
Definition noFormatter (pf : Platform) (timeZone : string) (d : Z) : Prop :=
  JS.truthy (JS.trim timeZone) = false \/
  Intl_supports pf (JS.trim timeZone) = false \/
  Intl_formatToParts pf (JS.trim timeZone) d = None.

(** ** Further scenarios *)

(** A prompt with a task section. *)
Definition taskPrompt : string :=
  "# Task" +:+ String JS.LF "fix the bug" +:+ String JS.LF "# Notes".

(** The settings of two users, and a cache written under the second. *)
Definition utcSettings : DateTimeSettings :=
  {| uiLanguage := LangAuto; timeZone := "UTC" |}.
Definition tokyoSettings : DateTimeSettings :=
  {| uiLanguage := LangJa; timeZone := "Asia/Tokyo" |}.
Definition tokyoCache : CacheFileV4 :=
  {| version := 4; summaryAlgoVersion := historyService.SUMMARY_CACHE_ALGO_VERSION;
     cacheSessionsRoot := Scenario.root; cachePreviewMaxMessages := 6;
     cacheDateTimeSettingsKey := dateTimeSettings.getDateTimeSettingsKey tokyoSettings;
     entries := ∅ |}.

(** The scope of the first of May as the history view hands it over. *)
Definition mayFirst : option JSON :=
  Some (JObj [("kind", JStr "day"); ("ymd", JStr "2024-05-01")]).

(** The options of an excerpt with the defaults. *)
Definition defaultOptions : resumeContext.ResumeRenderOptions :=
  {| resumeContext.optTimeZone := "UTC"; resumeContext.maxMessages := None;
     resumeContext.maxChars := None; resumeContext.includeContext := false |}.

(** A platform whose [path.join] puts a slash between its arguments. *)
Definition slashPlatform : Platform :=
  {| path_join := fun dir name => dir +:+ "/" +:+ name;
     Date_ymd := Date_ymd Posix.platform;
     getSeconds := getSeconds Posix.platform;
     Intl_supports := Intl_supports Posix.platform;
     Intl_formatToParts := Intl_formatToParts Posix.platform;
     Intl_systemTimeZone := Intl_systemTimeZone Posix.platform;
     Number_ofString := Number_ofString Posix.platform;
     JSON_stringify2 := JSON_stringify2 Posix.platform |}.

(** What [readdir] shows below the root of the scenario: the log of the
    first of May, a file of another name, and a directory that cannot be
    read. *)
Definition rootEntries : list sessionDiscovery.Node :=
  [sessionDiscovery.DirNode "2024"
     (Some [sessionDiscovery.DirNode "05"
              (Some [sessionDiscovery.DirNode "01"
                       (Some [sessionDiscovery.FileNode "rollout-A.jsonl";
                              sessionDiscovery.FileNode "notes.txt"])]);
            sessionDiscovery.DirNode "06" None])].

(** The line map of the transcript of the scenario when the reader emitted
    [missed] lines before the loop started. *)
Definition lineMapAfter (missed : nat) : option (list (Z * Z)) :=
  match transcriptRenderer.renderTranscript Posix.host Posix.platform
          Scenario.fsType Scenario.fileA missed with
  | Ok t => Some (transcriptRenderer.lineOfMessage t)
  | Throw => None
  end.

(** The stored pins with the log of the scenario pinned. *)
Definition pinnedA : option JSON :=
  Some (JArr [JObj [("fsPath", JStr Scenario.fileA); ("pinnedAt", JNum 1)]]).

(** * The Summary Extractor *)

Section Extractor.
Context (h : Host) (fs : FileSys).
Import sessionSummary.

Lemma build_stat_fails root p n :
  fs_stat fs p = None -> buildSessionSummary h fs root p n = Ok None.
Proof. intros H. unfold buildSessionSummary, fsUtils.statSafe. now rewrite H. Qed.

Lemma build_unreadable root p n st :
  fs_stat fs p = Some st -> fs_read fs p = None ->
  buildSessionSummary h fs root p n = Throw.
Proof.
  intros Hs Hr. unfold buildSessionSummary, fsUtils.statSafe. rewrite Hs.
  unfold tryReadSessionMeta, fsUtils.readFirstLineUtf8. now rewrite Hr.
Qed.

Lemma build_readable root p n st content :
  fs_stat fs p = Some st -> fs_read fs p = Some content ->
  exists s,
    buildSessionSummary h fs root p n = Ok (Some s) /\
    fsPath s = p /\
    meta s = metaOf h content /\
    inferredYmd s = inferYmdFromPath h root p /\
    previewMessages s = previewLoop h n (Node.lines content) [] /\
    localDate s =
      dateUtils.ymdToString
        match inferYmdFromPath h root p with
        | Some i => i
        | None => match parsedStart h content with
                  | Some d => dateUtils.toYmdLocal h d
                  | None => dateUtils.toYmdLocal h (mtimeMs st)
                  end
        end /\
    timeLabel s =
      match parsedStart h content with
      | Some d => dateUtils.formatTimeHmLocal h d
      | None => "--:--"
      end /\
    snippet s =
      match pickSessionSnippetSource (previewLoop h n (Node.lines content) []) with
      | Some src => if JS.truthy src then textUtils.singleLineSnippet src 70
                    else path_basename h p
      | None => path_basename h p
      end.
Proof.
  intros Hs Hr. unfold buildSessionSummary, fsUtils.statSafe. rewrite Hs.
  unfold tryReadSessionMeta, readPreviewMessages, fsUtils.readFirstLineUtf8.
  rewrite Hr. unfold mbind, Result_bind.
  eexists. split; [reflexivity|]. unfold parsedStart, metaOf.
  repeat split; reflexivity.
Qed.

(** Every outcome of the extractor, by the state of the file. *)
(** The first lines that carry no metadata: a missing or empty line, a line
    that does not parse, and a record whose [type] is not [session_meta]. *)
Lemma metaOfFirstLine_none firstLine :
  (firstLine = None \/
   (exists line, firstLine = Some line /\
      (line = EmptyString \/ JSON_parse h line = None \/
       exists obj, JSON_parse h line = Some obj /\
                   isStr "session_meta" (prop "type" (Some obj)) = false))) ->
  metaOfFirstLine h firstLine = None.
Proof.
  intros [->|(line & -> & [->|[Hp|(obj & Hp & Ht)]])]; try reflexivity;
    unfold metaOfFirstLine.
  - destruct (negb (JS.truthy line)); [reflexivity|]. now rewrite Hp.
  - destruct (negb (JS.truthy line)); [reflexivity|]. now rewrite Hp, Ht.
Qed.

(** A readable file without metadata still gets a summary: every metadata
    field is absent, the time is the placeholder, and the date is the one of
    the path or else the one of the modification time. *)
Lemma build_without_meta root p n st content :
  fs_stat fs p = Some st -> fs_read fs p = Some content ->
  metaOfFirstLine h (fsUtils.firstLineOf fsUtils.maxBytesDefault content) = None ->
  exists s,
    buildSessionSummary h fs root p n = Ok (Some s) /\
    meta s = noMeta /\
    timeLabel s = "--:--"%string /\
    localDate s =
      dateUtils.ymdToString
        match inferYmdFromPath h root p with
        | Some i => i
        | None => dateUtils.toYmdLocal h (mtimeMs st)
        end.
Proof.
  intros Hs Hr Hm.
  destruct (build_readable root p n st content Hs Hr)
    as (s & Hb & _ & Hmeta & _ & _ & Hd & Ht & _).
  exists s. unfold parsedStart in Hd, Ht. unfold metaOf in Hmeta, Hd, Ht.
  rewrite Hm in Hmeta, Hd, Ht. cbn in Hd, Ht. auto.
Qed.

Lemma build_cases root p n :
  (fs_stat fs p = None /\ buildSessionSummary h fs root p n = Ok None) \/
  (exists st, fs_stat fs p = Some st /\ fs_read fs p = None /\
              buildSessionSummary h fs root p n = Throw) \/
  (exists st content s, fs_stat fs p = Some st /\ fs_read fs p = Some content /\
              buildSessionSummary h fs root p n = Ok (Some s)).
Proof.
  destruct (fs_stat fs p) as [st|] eqn:Hs.
  - destruct (fs_read fs p) as [content|] eqn:Hr.
    + right; right. destruct (build_readable root p n st content Hs Hr) as (s & Hb & _).
      now exists st, content, s.
    + right; left. exists st. split; [reflexivity|]. split; [reflexivity|].
      now apply build_unreadable with st.
  - left. split; [reflexivity|]. now apply build_stat_fails.
Qed.

Lemma previewLoop_none n lines acc :
  Forall (fun l => previewOfLine h l = None) lines ->
  previewLoop h n lines acc = acc.
Proof.
  induction 1 as [|l ls Hl _ IH]; cbn [previewLoop]; [reflexivity|].
  rewrite Hl, IH. now destruct (_ >=? _).
Qed.

Lemma previewLoop_skip n line rest acc :
  Z.of_nat (length acc) < n -> previewOfLine h line = None ->
  previewLoop h n (line :: rest) acc = previewLoop h n rest acc.
Proof.
  intros Hn Hl. cbn [previewLoop]. rewrite Hl.
  destruct (Z.geb_spec (Z.of_nat (length acc)) n); [lia|reflexivity].
Qed.

Lemma previewLoop_take n line rest acc m :
  Z.of_nat (length acc) < n -> previewOfLine h line = Some m ->
  previewLoop h n (line :: rest) acc = previewLoop h n rest (acc ++ [m]).
Proof.
  intros Hn Hl. cbn [previewLoop]. rewrite Hl.
  destruct (Z.geb_spec (Z.of_nat (length acc)) n); [lia|reflexivity].
Qed.

End Extractor.

Section ExtractorClaims.
Context (h : Host) (fs : FileSys).
Import sessionSummary.

Lemma build_null_iff root p n :
  buildSessionSummary h fs root p n = Ok None <-> fs_stat fs p = None.
Proof.
  split.
  - intros Hb. destruct (build_cases h fs root p n)
      as [[Hs _]|[(st & _ & _ & Ht)|(st & c & s & _ & _ & Hok)]]; congruence.
  - apply build_stat_fails.
Qed.

Lemma build_Some_inv root p n s :
  buildSessionSummary h fs root p n = Ok (Some s) ->
  exists st content, fs_stat fs p = Some st /\ fs_read fs p = Some content.
Proof.
  intros Hb. destruct (build_cases h fs root p n)
    as [[_ Hn]|[(st & _ & _ & Ht)|(st & c & s' & Hs & Hr & _)]]; try congruence.
  now exists st, c.
Qed.








Lemma pad2_twoDigits n : 0 <= n < 100 -> dateUtils.pad2 n = twoDigits n.
Proof.
  intros Hn.
  assert (Hall : forallb (fun k => String.eqb (dateUtils.pad2 (Z.of_nat k))
                                     (twoDigits (Z.of_nat k))) (seq 0 100) = true)
    by (vm_compute; reflexivity).
  rewrite forallb_forall in Hall.
  specialize (Hall (Z.to_nat n)). rewrite Z2Nat.id in Hall by lia.
  apply String.eqb_eq, Hall, in_seq. lia.
Qed.


End ExtractorClaims.

(** ** The extractor on the scenario log *)

Section ScenarioClaims.
Import Scenario sessionSummary.

(** On the log tagged by [kind] the program finds no metadata and no
    message: the snippet is the file name. *)
Lemma kindTagged_summary :
  buildSessionSummary Posix.host fsKind root fileA 6 = Ok (Some summaryKind).
Proof. vm_compute. reflexivity. Qed.

Lemma typeTagged_summary :
  buildSessionSummary Posix.host fsType root fileA 6 = Ok (Some summaryType).
Proof. vm_compute. reflexivity. Qed.

(** C1, as stated: on the log whose records are tagged by [kind] the
    summary has neither the snippet [hello world] nor a preview message. *)
Lemma C1_kind_tagged_counterexample :
  ~ exists s,
      buildSessionSummary Posix.host fsKind root fileA 6 = Ok (Some s) /\
      localDate s = "2024-05-01" /\ snippet s = "hello world" /\
      onePerRole (previewMessages s).
Proof.
  intros (s & Hb & _ & Hsn & _).
  rewrite kindTagged_summary in Hb. injection Hb as <-. discriminate Hsn.
Qed.

(** C1, amended: on the log whose records are tagged by [type], under
    [2024/05/01] below the root, the summary has the date [2024-05-01],
    the snippet [hello world] and one preview message per role, for every
    preview limit of at least two. *)
Theorem C1_type_tagged_scenario (st : Stat) (n : Z) :
  2 <= n ->
  exists s,
    buildSessionSummary Posix.host (oneFile fileA st (Some typeTagged))
      root fileA n = Ok (Some s) /\
    localDate s = "2024-05-01" /\ snippet s = "hello world" /\
    previewMessages s = [helloWorld; hiThere] /\
    onePerRole (previewMessages s).
Proof.
  intros Hn.
  destruct (build_readable Posix.host (oneFile fileA st (Some typeTagged))
              root fileA n st typeTagged)
    as (s & Hb & _ & _ & _ & Hpm & Hd & _ & Hsn); [reflexivity|reflexivity|].
  assert (Hloop : previewLoop Posix.host n (Node.lines typeTagged) []
                  = [helloWorld; hiThere]).
  { replace (Node.lines typeTagged) with (logLines "type") by (vm_compute; reflexivity).
    unfold logLines.
    rewrite previewLoop_skip; [|cbn; lia|vm_compute; reflexivity].
    rewrite (previewLoop_take _ _ _ _ _ helloWorld); [|cbn; lia|vm_compute; reflexivity].
    rewrite (previewLoop_take _ _ _ _ _ hiThere); [|cbn; lia|vm_compute; reflexivity].
    reflexivity. }
  exists s. rewrite Hpm, Hsn, Hd, Hloop.
  split; [exact Hb|]. split; [vm_compute; reflexivity|].
  split; [vm_compute; reflexivity|]. split; [reflexivity|].
  split; reflexivity.
Qed.

Lemma C1_type_tagged_scenario_witness :
  exists s,
    buildSessionSummary Posix.host (oneFile fileA someStat (Some typeTagged))
      root fileA 6 = Ok (Some s) /\
    localDate s = "2024-05-01" /\ snippet s = "hello world" /\
    previewMessages s = [helloWorld; hiThere] /\
    onePerRole (previewMessages s).
Proof. apply (C1_type_tagged_scenario someStat 6). lia. Defined.



(** C8 at the failing input: a file that [stat] sees and that cannot be
    opened makes the extractor reject instead of returning a summary. *)
Lemma C8_unreadable_file_rejects :
  fs_stat fsLocked fileA = Some someStat /\
  buildSessionSummary Posix.host fsLocked root fileA 6 = Throw.
Proof. split; vm_compute; reflexivity. Qed.

End ScenarioClaims.

(** * The date index *)

Section ArraySortFacts.
Context {A : Type} (cmp : A -> A -> Z).

Lemma insertSorted_perm x l : Permutation (x :: l) (insertSorted cmp x l).
Proof.
  induction l as [|y r IH]; cbn [insertSorted]; [reflexivity|].
  destruct (cmp x y <=? 0); [reflexivity|].
  rewrite perm_swap. now constructor.
Qed.

Lemma Array_sort_perm l : Permutation l (Array_sort cmp l).
Proof.
  induction l as [|x r IH]; cbn [Array_sort]; [constructor|].
  rewrite <- insertSorted_perm. now constructor.
Qed.

Lemma Array_sort_In x l : In x (Array_sort cmp l) <-> In x l.
Proof.
  split; apply Permutation_in; [symmetry|]; apply Array_sort_perm.
Qed.

  Hypothesis total : forall a b, cmp a b <= 0 \/ cmp b a <= 0.
  Hypothesis trans : forall a b c, cmp a b <= 0 -> cmp b c <= 0 -> cmp a c <= 0.

Lemma insertSorted_sorted x l :
  StronglySorted (before cmp) l -> StronglySorted (before cmp) (insertSorted cmp x l).
Proof.
  induction 1 as [|y r Hr IH Hy]; cbn [insertSorted].
  - repeat constructor.
  - destruct (Z.leb_spec (cmp x y) 0) as [Hxy|Hxy].
    + constructor; [now constructor|]. constructor; [exact Hxy|].
      rewrite List.Forall_forall in *. intros z Hz. apply trans with y; auto.
      apply Hy, Hz.
    + constructor; [exact IH|].
      rewrite List.Forall_forall in *. intros z Hz.
      apply (Permutation_in _ (Permutation_sym (insertSorted_perm x r))) in Hz.
      destruct Hz as [<-|Hz]; [|now apply Hy].
      destruct (total y x); [assumption|]. unfold before. lia.
Qed.

Lemma Array_sort_sorted l : StronglySorted (before cmp) (Array_sort cmp l).
Proof.
  induction l; cbn [Array_sort]; [constructor|now apply insertSorted_sorted].
Qed.

Lemma Array_sort_id l : StronglySorted (before cmp) l -> Array_sort cmp l = l.
Proof.
  induction 1 as [|x r Hr IH Hx]; cbn [Array_sort]; [reflexivity|].
  rewrite IH. destruct r as [|y r']; [reflexivity|]. cbn [insertSorted].
  apply Forall_inv in Hx. unfold before in Hx.
  destruct (Z.leb_spec (cmp x y) 0); [reflexivity|lia].
Qed.
End ArraySortFacts.

Lemma StronglySorted_lookup {A} (R : A -> A -> Prop) (l : list A) i j a b :
  StronglySorted R l -> l !! i = Some a -> l !! j = Some b -> (i < j)%nat -> R a b.
Proof.
  intros Hs. revert i j. induction Hs as [|x r Hr IH Hx]; intros i j Hi Hj Hij.
  - discriminate.
  - destruct j as [|j]; [lia|]. cbn in Hj. destruct i as [|i].
    + cbn in Hi. injection Hi as <-. rewrite List.Forall_forall in Hx. apply Hx.
      apply list_elem_of_In. eapply list_elem_of_lookup_2; eauto.
    + cbn in Hi. apply (IH i j); auto. lia.
Qed.

(** The order of strings *)
Lemma ascii_compare_spec x y :
  CompareSpec (x = y) (N_of_ascii x < N_of_ascii y)%N (N_of_ascii y < N_of_ascii x)%N
              (Ascii.compare x y).
Proof.
  unfold Ascii.compare.
  destruct (N.compare_spec (N_of_ascii x) (N_of_ascii y)) as [H|H|H]; constructor; auto.
  apply (f_equal ascii_of_N) in H. now rewrite !ascii_N_embedding in H.
Qed.

Lemma string_compare_refl s : String.compare s s = Eq.
Proof.
  induction s as [|c s IH]; cbn; [reflexivity|].
  destruct (ascii_compare_spec c c); auto; lia.
Qed.

Lemma string_compare_Lt_trans a b c :
  String.compare a b = Lt -> String.compare b c = Lt -> String.compare a c = Lt.
Proof.
  revert b c. induction a as [|x a IH]; intros [|y b] [|z c]; cbn; try congruence.
  destruct (ascii_compare_spec x y), (ascii_compare_spec y z), (ascii_compare_spec x z);
    subst; try congruence; try lia; eauto.
Qed.

Lemma string_ltb_irrefl s : String.ltb s s = false.
Proof. unfold String.ltb. now rewrite string_compare_refl. Qed.

Lemma string_ltb_trans a b c :
  String.ltb a b = true -> String.ltb b c = true -> String.ltb a c = true.
Proof.
  unfold String.ltb. intros H1 H2.
  destruct (String.compare a b) eqn:E1; try discriminate.
  destruct (String.compare b c) eqn:E2; try discriminate.
  now rewrite (string_compare_Lt_trans a b c).
Qed.

Lemma string_trichotomy a b :
  String.ltb a b = true \/ a = b \/ String.ltb b a = true.
Proof.
  unfold String.ltb. rewrite (String.compare_antisym b a).
  destruct (String.compare a b) eqn:E; cbn; auto.
  right; left. now apply String.compare_eq_iff.
Qed.

Lemma string_ltb_asym a b : String.ltb a b = true -> String.ltb b a = false.
Proof.
  unfold String.ltb. rewrite (String.compare_antisym b a).
  destruct (String.compare a b); cbn; congruence.
Qed.

Section IndexFacts.
Import historyService.

Lemma compareSessions_le a b :
  compareSessions a b <= 0 <->
  String.ltb (localDate b) (localDate a) = true \/
  (localDate a = localDate b /\ String.ltb (timeLabel a) (timeLabel b) = false).
Proof.
  unfold compareSessions.
  destruct (String.eqb_spec (localDate a) (localDate b)) as [He|Hne]; cbn [negb].
  - rewrite He, string_ltb_irrefl.
    destruct (String.ltb (timeLabel a) (timeLabel b)) eqn:Ht.
    + split; [lia|]. intros [H|[_ H]]; discriminate.
    + split; [auto|]. intros _. destruct (String.ltb (timeLabel b) (timeLabel a)); lia.
  - destruct (String.ltb (localDate a) (localDate b)) eqn:Hd.
    + split; [lia|]. intros [H|[H _]]; [|contradiction].
      apply string_ltb_asym in H. congruence.
    + split; [|lia]. intros _. left.
      destruct (string_trichotomy (localDate a) (localDate b)) as [H|[H|H]];
        [congruence|contradiction|exact H].
Qed.

Lemma compareTimeLabels_le a b :
  compareTimeLabels a b <= 0 <-> String.ltb (timeLabel a) (timeLabel b) = false.
Proof.
  unfold compareTimeLabels.
  destruct (String.ltb (timeLabel a) (timeLabel b)); [split; [lia|discriminate]|].
  split; [reflexivity|]. destruct (String.ltb _ _); lia.
Qed.

Lemma not_ltb_trans a b c :
  String.ltb a b = false -> String.ltb b c = false -> String.ltb a c = false.
Proof.
  intros H1 H2. destruct (String.ltb a c) eqn:H3; [|reflexivity].
  destruct (string_trichotomy a b) as [H|[->|H]]; [congruence|congruence|].
  rewrite (string_ltb_trans b a c H H3) in H2. discriminate.
Qed.

Lemma compareTimeLabels_total a b :
  compareTimeLabels a b <= 0 \/ compareTimeLabels b a <= 0.
Proof.
  rewrite !compareTimeLabels_le.
  destruct (String.ltb (timeLabel a) (timeLabel b)) eqn:H; [|now left].
  right. now apply string_ltb_asym.
Qed.

Lemma compareTimeLabels_trans a b c :
  compareTimeLabels a b <= 0 -> compareTimeLabels b c <= 0 -> compareTimeLabels a c <= 0.
Proof. rewrite !compareTimeLabels_le. apply not_ltb_trans. Qed.

Lemma compareSessions_total a b :
  compareSessions a b <= 0 \/ compareSessions b a <= 0.
Proof.
  rewrite !compareSessions_le.
  destruct (string_trichotomy (localDate a) (localDate b)) as [H|[H|H]]; [auto| |auto].
  destruct (String.ltb (timeLabel a) (timeLabel b)) eqn:Ht; [|auto].
  right. right. split; [auto|]. now apply string_ltb_asym.
Qed.

Lemma compareSessions_trans a b c :
  compareSessions a b <= 0 -> compareSessions b c <= 0 -> compareSessions a c <= 0.
Proof.
  rewrite !compareSessions_le.
  intros [H1|[E1 T1]] [H2|[E2 T2]].
  - left. eapply string_ltb_trans; eauto.
  - left. now rewrite <- E2.
  - left. now rewrite E1.
  - right. split; [congruence|]. eapply not_ltb_trans; eauto.
Qed.

(** ** The buckets of [buildIndex] *)
Lemma gmap_lookup_insert_eq {A} (m : gmap string A) k v : <[k := v]> m !! k = Some v.
Proof. apply lookup_insert_eq. Qed.

Lemma gmap_lookup_insert_ne {A} (m : gmap string A) k k' v :
  k <> k' -> <[k := v]> m !! k' = m !! k'.
Proof. apply lookup_insert_ne. Qed.

Lemma gmap_lookup_fmap {A B} (f : A -> B) (m : gmap string A) k :
  (f <$> m) !! k = f <$> (m !! k).
Proof. apply lookup_fmap. Qed.

Lemma indexStep_bucket idx s y mo d :
  bucketIn (byY (indexStep idx s)) y mo d =
  bucketIn (byY idx) y mo d ++ (if inDay (y, mo, d) s then [s] else []).
Proof.
  unfold indexStep, inDay.
  destruct (dayKey s) as [[[y0 m0] d0]|] eqn:Hk.
  2:{ rewrite bool_decide_eq_false_2 by discriminate. now rewrite app_nil_r. }
  cbn [byY]. unfold bucketIn, pushTo.
  destruct (decide (y0 = y)) as [->|Hy].
  - rewrite gmap_lookup_insert_eq. cbn [from_option Datatypes.id].
    destruct (decide (m0 = mo)) as [->|Hm].
    + rewrite gmap_lookup_insert_eq. cbn [from_option Datatypes.id].
      destruct (decide (d0 = d)) as [->|Hd].
      * rewrite gmap_lookup_insert_eq. cbn [from_option Datatypes.id].
        now rewrite bool_decide_eq_true_2.
      * rewrite gmap_lookup_insert_ne by done.
        rewrite bool_decide_eq_false_2 by congruence. now rewrite app_nil_r.
    + rewrite gmap_lookup_insert_ne by done.
      rewrite bool_decide_eq_false_2 by congruence. now rewrite app_nil_r.
  - rewrite gmap_lookup_insert_ne by done.
    rewrite bool_decide_eq_false_2 by congruence. now rewrite app_nil_r.
Qed.

Lemma fold_indexStep_bucket l idx y mo d :
  bucketIn (byY (fold_left indexStep l idx)) y mo d =
  bucketIn (byY idx) y mo d ++ filter (fun s => inDay (y, mo, d) s = true) l.
Proof.
  revert idx. induction l as [|s l IH]; intros idx; cbn [fold_left].
  - now rewrite app_nil_r.
  - rewrite IH, indexStep_bucket, <- app_assoc. f_equal.
    rewrite filter_cons. destruct (inDay (y, mo, d) s) eqn:E.
    + rewrite decide_True by done. reflexivity.
    + rewrite decide_False by done. reflexivity.
Qed.

Lemma fold_indexStep_sessions l idx :
  sessions (fold_left indexStep l idx) = sessions idx.
Proof.
  revert idx. induction l as [|s l IH]; intros idx; cbn [fold_left]; [reflexivity|].
  rewrite IH. unfold indexStep. now destruct (dayKey s) as [[[? ?] ?]|].
Qed.

Lemma bucket_sortDays idx y mo d :
  bucket (sortDays idx) y mo d = Array_sort compareTimeLabels (bucketIn (byY idx) y mo d).
Proof.
  unfold bucket, bucketIn, sortDays. cbn [byY].
  rewrite gmap_lookup_fmap.
  destruct (byY idx !! y) as [months|]; cbn; [|reflexivity].
  rewrite gmap_lookup_fmap. destruct (months !! mo) as [days|]; cbn; [|reflexivity].
  rewrite gmap_lookup_fmap. destruct (days !! d) as [day|]; cbn; reflexivity.
Qed.

Lemma bucket_buildIndex root l y mo d :
  bucket (buildIndex root l) y mo d =
  Array_sort compareTimeLabels (filter (fun s => inDay (y, mo, d) s = true) l).
Proof.
  unfold buildIndex. rewrite bucket_sortDays, fold_indexStep_bucket.
  reflexivity.
Qed.

Lemma sessions_buildIndex root l : sessions (buildIndex root l) = l.
Proof. unfold buildIndex, sortDays. cbn [sessions]. now rewrite fold_indexStep_sessions. Qed.

Lemma chars_append a b : JS.chars (a +:+ b) = JS.chars a ++ JS.chars b.
Proof.
  unfold JS.chars. induction a as [|c a IH]; [reflexivity|].
  change (String c a +:+ b) with (String c (a +:+ b)).
  cbn [list_ascii_of_string app]. now rewrite IH.
Qed.

Lemma str_chars s : JS.str (JS.chars s) = s.
Proof. apply String.string_of_list_ascii_of_string. Qed.

Lemma splitL_no_sep sep l cur :
  forallb (fun c => negb (Ascii.eqb c sep)) l = true ->
  JS.splitL sep l cur = [JS.str (rev cur ++ l)].
Proof.
  revert cur. induction l as [|c l IH]; intros cur H; cbn in *.
  - now rewrite app_nil_r.
  - apply andb_true_iff in H as [Hc Hl]. apply negb_true_iff in Hc. rewrite Hc.
    rewrite IH by exact Hl. cbn. now rewrite <- app_assoc.
Qed.

Lemma splitL_sep sep l r cur :
  forallb (fun c => negb (Ascii.eqb c sep)) l = true ->
  JS.splitL sep (l ++ sep :: r) cur = JS.str (rev cur ++ l) :: JS.splitL sep r [].
Proof.
  revert cur. induction l as [|c l IH]; intros cur H; cbn in *.
  - rewrite Ascii.eqb_refl. now rewrite app_nil_r.
  - apply andb_true_iff in H as [Hc Hl]. apply negb_true_iff in Hc. rewrite Hc.
    rewrite IH by exact Hl. cbn. now rewrite <- app_assoc.
Qed.

Lemma split3 a b c :
  forallb JS.isDigit (JS.chars a) = true ->
  forallb JS.isDigit (JS.chars b) = true ->
  forallb JS.isDigit (JS.chars c) = true ->
  JS.split "-" (a +:+ "-" +:+ b +:+ "-" +:+ c) = [a; b; c].
Proof.
  assert (Hd : forall l, forallb JS.isDigit l = true ->
                         forallb (fun c => negb (Ascii.eqb c "-")) l = true).
  { intros l H. rewrite forallb_forall in *. intros x Hx. specialize (H x Hx).
    destruct (Ascii.eqb_spec x "-") as [->|]; [discriminate H|reflexivity]. }
  intros Ha Hb Hc. unfold JS.split.
  rewrite !chars_append. change (JS.chars "-") with ["-"%char]. cbn [app].
  rewrite splitL_sep by auto. rewrite splitL_sep by auto. rewrite splitL_no_sep by auto.
  cbn [rev app]. now rewrite !str_chars.
Qed.

Lemma string_of_uint_digits d :
  forallb JS.isDigit (JS.chars (NilEmpty.string_of_uint d)) = true.
Proof. induction d; cbn; auto. Qed.

Lemma toString_digits y :
  0 <= y ->
  forallb JS.isDigit (JS.chars (JS.toString y)) = true /\ JS.truthy (JS.toString y) = true.
Proof.
  intros Hy. unfold JS.toString. destruct y as [|p|p]; [split; reflexivity| |lia].
  cbn [Z.to_int NilZero.string_of_int]. unfold NilZero.string_of_uint.
  destruct (Pos.to_uint p) eqn:E; try (split; [apply (string_of_uint_digits (_ u))|reflexivity]).
  - split; reflexivity.
Qed.

Lemma twoDigits_digits n :
  0 <= n < 100 ->
  forallb JS.isDigit (JS.chars (twoDigits n)) = true /\ JS.truthy (twoDigits n) = true.
Proof.
  intros Hn.
  assert (Hall : forallb (fun k => forallb JS.isDigit (JS.chars (twoDigits (Z.of_nat k))))
                         (seq 0 100) = true) by (vm_compute; reflexivity).
  rewrite forallb_forall in Hall. specialize (Hall (Z.to_nat n)).
  rewrite Z2Nat.id in Hall by lia. split; [|reflexivity].
  apply Hall, in_seq. lia.
Qed.

Lemma toString_four_digits y :
  1000 <= y <= 9999 -> String.length (JS.toString y) = 4%nat.
Proof.
  intros Hy.
  assert (Hall : forallb (fun k => Nat.eqb (String.length
                                             (JS.toString (1000 + Z.of_nat k))) 4)
                         (seq 0 (Z.to_nat 9000)) = true) by (vm_compute; reflexivity).
  rewrite forallb_forall in Hall. specialize (Hall (Z.to_nat (y - 1000))).
  rewrite Z2Nat.id in Hall by lia.
  replace (1000 + (y - 1000)) with y in Hall by lia.
  apply Nat.eqb_eq, Hall, in_seq. lia.
Qed.

Lemma dayKey_ymdToString s ymd :
  localDate s = dateUtils.ymdToString ymd ->
  0 <= year ymd -> 0 <= month ymd < 100 -> 0 <= day ymd < 100 ->
  dayKey s = Some (JS.toString (year ymd), twoDigits (month ymd), twoDigits (day ymd)).
Proof.
  intros Hl Hy Hm Hd. unfold dayKey. rewrite Hl. unfold dateUtils.ymdToString.
  rewrite !pad2_twoDigits by lia.
  destruct (toString_digits (year ymd) Hy) as [Hy1 Hy2].
  destruct (twoDigits_digits (month ymd) Hm) as [Hm1 Hm2].
  destruct (twoDigits_digits (day ymd) Hd) as [Hd1 Hd2].
  rewrite split3 by assumption. now rewrite Hy2, Hm2, Hd2.
Qed.

(** ** The order of display dates *)

Lemma compare_append a b : forall a' b',
  String.length a = String.length a' ->
  String.compare (a +:+ b) (a' +:+ b') = thenBy (String.compare a a') (String.compare b b').
Proof.
  induction a as [|c a IH]; intros [|c' a'] b' Hl; try discriminate Hl; [reflexivity|].
  change (String c a +:+ b) with (String c (a +:+ b)).
  change (String c' a' +:+ b') with (String c' (a' +:+ b')).
  cbn [String.compare]. destruct (Ascii.compare c c'); [|reflexivity|reflexivity].
  apply IH. now injection Hl.
Qed.

Lemma twoDigits_compare m n :
  0 <= m < 100 -> 0 <= n < 100 ->
  String.compare (twoDigits m) (twoDigits n) = Z.compare m n.
Proof.
  intros Hm Hn.
  assert (Hall : forallb (fun i => forallb (fun j =>
            match String.compare (twoDigits (Z.of_nat i)) (twoDigits (Z.of_nat j)),
                  Z.compare (Z.of_nat i) (Z.of_nat j) with
            | Eq, Eq | Lt, Lt | Gt, Gt => true
            | _, _ => false
            end) (seq 0 100)) (seq 0 100) = true) by (vm_compute; reflexivity).
  rewrite forallb_forall in Hall.
  specialize (Hall (Z.to_nat m) ltac:(apply in_seq; lia)).
  rewrite forallb_forall in Hall.
  specialize (Hall (Z.to_nat n) ltac:(apply in_seq; lia)).
  rewrite !Z2Nat.id in Hall by lia.
  destruct (String.compare _ _), (m ?= n); congruence.
Qed.

Lemma twoDigits_length n : String.length (twoDigits n) = 2%nat.
Proof. reflexivity. Qed.

Lemma toString_year y :
  1000 <= y <= 9999 -> JS.toString y = twoDigits (y / 100) +:+ twoDigits (y mod 100).
Proof.
  intros Hy.
  assert (Hall : forallb (fun k =>
            String.eqb (JS.toString (1000 + Z.of_nat k))
                       (twoDigits ((1000 + Z.of_nat k) / 100)
                        +:+ twoDigits ((1000 + Z.of_nat k) mod 100)))
            (seq 0 (Z.to_nat 9000)) = true) by (vm_compute; reflexivity).
  rewrite forallb_forall in Hall. specialize (Hall (Z.to_nat (y - 1000))).
  rewrite Z2Nat.id in Hall by lia.
  replace (1000 + (y - 1000)) with y in Hall by lia.
  apply String.eqb_eq, Hall, in_seq. lia.
Qed.

Lemma append_assoc a b c : (a +:+ b) +:+ c = a +:+ (b +:+ c).
Proof.
  induction a as [|x a IH]; [reflexivity|].
  change ((String x a +:+ b) +:+ c) with (String x ((a +:+ b) +:+ c)). now rewrite IH.
Qed.

Lemma append_length a b : String.length (a +:+ b) = (String.length a + String.length b)%nat.
Proof.
  induction a as [|x a IH]; [reflexivity|].
  change (String x a +:+ b) with (String x (a +:+ b)). cbn [String.length]. now rewrite IH.
Qed.

Lemma ymdToString_compare a b :
  plainDate a -> plainDate b ->
  String.compare (dateUtils.ymdToString a) (dateUtils.ymdToString b) =
  thenBy (year a ?= year b) (thenBy (month a ?= month b) (day a ?= day b)).
Proof.
  intros (Ya & Ma & Da) (Yb & Mb & Db). unfold dateUtils.ymdToString.
  rewrite !pad2_twoDigits by lia. rewrite !toString_year by lia.
  pose proof (Z.div_mod (year a) 100 ltac:(lia)) as Ea.
  pose proof (Z.div_mod (year b) 100 ltac:(lia)) as Eb.
  pose proof (Z.mod_pos_bound (year a) 100 ltac:(lia)) as Ba.
  pose proof (Z.mod_pos_bound (year b) 100 ltac:(lia)) as Bb.
  assert (0 <= year a / 100 < 100) by (split; [apply Z.div_pos|apply Z.div_lt_upper_bound]; lia).
  assert (0 <= year b / 100 < 100) by (split; [apply Z.div_pos|apply Z.div_lt_upper_bound]; lia).
  rewrite compare_append by (now rewrite !append_length, !twoDigits_length).
  rewrite compare_append by apply twoDigits_length.
  rewrite (compare_append "-" _ "-") by reflexivity.
  rewrite compare_append by apply twoDigits_length.
  rewrite (compare_append "-" _ "-") by reflexivity.
  rewrite !twoDigits_compare by lia. cbn [String.compare thenBy].
  change ("-" ?= "-")%string with Eq. cbn [thenBy].
  destruct (Z.compare_spec (year a / 100) (year b / 100)),
           (Z.compare_spec (year a mod 100) (year b mod 100)),
           (Z.compare_spec (year a) (year b)); cbn [thenBy]; try reflexivity; lia.
Qed.

Lemma ymdToString_ltb a b :
  plainDate a -> plainDate b ->
  (String.ltb (dateUtils.ymdToString a) (dateUtils.ymdToString b) = true <-> earlier a b).
Proof.
  intros Ha Hb. unfold String.ltb, earlier. rewrite (ymdToString_compare a b Ha Hb).
  destruct (Z.compare_spec (year a) (year b)), (Z.compare_spec (month a) (month b)),
           (Z.compare_spec (day a) (day b)); cbn [thenBy];
    (split; [try discriminate; intros _; lia | try (intros _; reflexivity); lia]).
Qed.

Lemma bucket_emptyIndex root y mo d : bucket (emptyIndex root) y mo d = [].
Proof. reflexivity. Qed.

Lemma refresh_index h fs config dtKey files stored force r :
  refresh h fs config dtKey files stored force = Ok r ->
  exists l,
    sessions (index r) = Array_sort compareSessions l /\
    forall y mo d,
      bucket (index r) y mo d =
      Array_sort compareTimeLabels
        (filter (fun s => inDay (y, mo, d) s = true) (Array_sort compareSessions l)).
Proof.
  unfold refresh. destruct (negb _).
  - intros [= <-]. exists []. split; reflexivity.
  - destruct (reconcile _ _ _ _ _ _) as [p|]; [|discriminate].
    intros [= <-]. exists (summaries p). cbn [index]. split.
    + apply sessions_buildIndex.
    + intros. apply bucket_buildIndex.
Qed.

Lemma refresh_bucket_In h fs config dtKey files stored force r s y mo d :
  refresh h fs config dtKey files stored force = Ok r ->
  In s (bucket (index r) y mo d) ->
  In s (sessions (index r)) /\ dayKey s = Some (y, mo, d).
Proof.
  intros Hr. destruct (refresh_index _ _ _ _ _ _ _ _ Hr) as (l & Hs & Hb).
  rewrite Hb, Array_sort_In, Hs, <- !list_elem_of_In.
  rewrite list_elem_of_filter. unfold inDay. rewrite bool_decide_eq_true. tauto.
Qed.

(** The index that [refresh] builds, on every input: a session whose
    display-date string is greater in code-unit order stands before one
    whose string is smaller, ties broken by time label descending; a
    summary whose display date splits at [-] into a non-empty year, month
    and day is in the day bucket of these three keys and in no other, and
    a summary without them is in no bucket; each day bucket is in
    descending order of the time label.  On display dates with a year of
    four digits this is what the index is to do: the later date stands
    first, and the keys are the year of four digits and the two-digit
    month and day. *)
Theorem index_invariants (h : Host) (fs : FileSys) (config : Config)
        (dtKey : string) (files : list string) (stored : option CacheFileV4)
        (force : bool) (r : Refreshed) :
  refresh h fs config dtKey files stored force = Ok r ->
  (forall i j A B,
      sessions (index r) !! i = Some A -> sessions (index r) !! j = Some B ->
      String.ltb (localDate B) (localDate A) = true \/
      (localDate A = localDate B /\ String.ltb (timeLabel B) (timeLabel A) = true) ->
      (i < j)%nat) /\
  (forall i j A B a b,
      sessions (index r) !! i = Some A -> sessions (index r) !! j = Some B ->
      localDate A = dateUtils.ymdToString a -> localDate B = dateUtils.ymdToString b ->
      plainDate a -> plainDate b -> earlier b a -> (i < j)%nat) /\
  (forall s y mo d,
      In s (sessions (index r)) -> dayKey s = Some (y, mo, d) ->
      In s (bucket (index r) y mo d) /\
      forall y' mo' d', In s (bucket (index r) y' mo' d') -> (y', mo', d') = (y, mo, d)) /\
  (forall s y mo d, dayKey s = None -> ~ In s (bucket (index r) y mo d)) /\
  (forall y mo d i j A B,
      bucket (index r) y mo d !! i = Some A -> bucket (index r) y mo d !! j = Some B ->
      (i < j)%nat -> String.ltb (timeLabel A) (timeLabel B) = false) /\
  (forall s ymd,
      In s (sessions (index r)) -> localDate s = dateUtils.ymdToString ymd ->
      0 <= year ymd -> 0 <= month ymd < 100 -> 0 <= day ymd < 100 ->
      dayKey s = Some (JS.toString (year ymd), twoDigits (month ymd), twoDigits (day ymd)) /\
      (1000 <= year ymd <= 9999 -> String.length (JS.toString (year ymd)) = 4%nat)).
Proof.
  intros Hr. destruct (refresh_index _ _ _ _ _ _ _ _ Hr) as (l & Hs & Hb).
  pose proof (Array_sort_sorted compareSessions compareSessions_total
                compareSessions_trans l) as Hsorted.
  rewrite <- Hs in Hsorted.
  assert (Hin : forall s y mo d, In s (bucket (index r) y mo d) <->
                                 In s (sessions (index r)) /\ dayKey s = Some (y, mo, d)).
  { intros s y mo d. rewrite Hb, Array_sort_In, <- Hs, <- !list_elem_of_In.
    rewrite list_elem_of_filter. unfold inDay. rewrite bool_decide_eq_true. tauto. }
  assert (Horder : forall i j A B,
             sessions (index r) !! i = Some A -> sessions (index r) !! j = Some B ->
             String.ltb (localDate B) (localDate A) = true \/
             (localDate A = localDate B /\ String.ltb (timeLabel B) (timeLabel A) = true) ->
             (i < j)%nat); [|split; [exact Horder|split; [|split; [|split; [|split]]]]].
  - intros i j A B Hi Hj Hlt.
    destruct (Nat.lt_trichotomy i j) as [Hij|[->|Hji]]; [exact Hij| |].
    + assert (A = B) as -> by congruence.
      rewrite !string_ltb_irrefl in Hlt. destruct Hlt as [?|[_ ?]]; discriminate.
    + pose proof (StronglySorted_lookup _ _ _ _ _ _ Hsorted Hj Hi Hji) as Hba.
      apply compareSessions_le in Hba.
      destruct Hlt as [Hlt|[He Hlt]], Hba as [Hba|[He' Hba]].
      * apply string_ltb_asym in Hlt. congruence.
      * rewrite He', string_ltb_irrefl in Hlt. discriminate.
      * rewrite He, string_ltb_irrefl in Hba. discriminate.
      * congruence.
  - intros i j A B a b Hi Hj HA HB Pa Pb Hlater. apply (Horder i j A B Hi Hj).
    left. rewrite HA, HB. now apply ymdToString_ltb.
  - intros s y mo d Hs' Hk. split; [now apply Hin|].
    intros y' mo' d' H'. apply Hin in H' as [_ H']. congruence.
  - intros s y mo d Hk H'. apply Hin in H' as [_ H']. congruence.
  - intros y mo d i j A B Hi Hj Hij.
    pose proof (Array_sort_sorted compareTimeLabels compareTimeLabels_total
                  compareTimeLabels_trans
                  (filter (fun s => inDay (y, mo, d) s = true)
                          (Array_sort compareSessions l))) as Hsb.
    rewrite <- Hb in Hsb.
    apply compareTimeLabels_le.
    exact (StronglySorted_lookup _ _ _ _ _ _ Hsb Hi Hj Hij).
  - intros s ymd _ Hl Hy Hm Hd. split; [now apply dayKey_ymdToString|].
    apply toString_four_digits.
Qed.

End IndexFacts.

Section IndexScenario.
Import Scenario historyService.

Lemma refreshedThree_ok :
  refresh Posix.host fsThree config6 settingsKey [fileA; oldFile; bcFile] None false
  = Ok refreshedThree.
Proof. vm_compute. reflexivity. Qed.

(** C9: beside the log of the first of May 2024 stand, right below the
    root, a log that starts in the year 99 and a log that starts before
    the year 0.  Their display dates are rendered without the padding of
    the year.  The session of the year 99 stands first in the flat list,
    before the session of 2024; the year keys of the index are [99] and
    [2024], of different widths; and the session of the third log is in
    the flat list and in no bucket. *)
Lemma C9_year_below_1000_breaks_index :
  refresh Posix.host fsThree config6 settingsKey [fileA; oldFile; bcFile] None false
  = Ok refreshedThree /\
  map localDate (sessions (index refreshedThree)) = ["99-03-04"; "2024-05-01"; "-1-03-04"] /\
  ~ fixedWidthKeys (index refreshedThree) /\
  ~ everySessionInABucket (index refreshedThree).
Proof.
  split; [apply refreshedThree_ok|]. split; [vm_compute; reflexivity|]. split.
  - intros H. destruct (H "99" "03" "04") as [Hy _].
    + vm_compute. intros E. discriminate E.
    + vm_compute in Hy. discriminate Hy.
  - intros H. destruct (H summaryBc) as (y & mo & d & Hin).
    + vm_compute. right; right; left; reflexivity.
    + destruct (refresh_bucket_In Posix.host fsThree config6 settingsKey
                  [fileA; oldFile; bcFile] None false refreshedThree
                  summaryBc y mo d refreshedThree_ok Hin) as [_ Hk].
      vm_compute in Hk. discriminate Hk.
Qed.

Lemma index_invariants_witness :
  refresh Posix.host fsThree config6 settingsKey [fileA; oldFile; bcFile] None false
  = Ok refreshedThree /\
  (forall i j A B,
      sessions (index refreshedThree) !! i = Some A ->
      sessions (index refreshedThree) !! j = Some B ->
      String.ltb (localDate B) (localDate A) = true \/
      (localDate A = localDate B /\ String.ltb (timeLabel B) (timeLabel A) = true) ->
      (i < j)%nat).
Proof.
  destruct (index_invariants Posix.host fsThree config6 settingsKey
              [fileA; oldFile; bcFile] None false refreshedThree) as (Horder & _).
  - vm_compute. reflexivity.
  - split; [vm_compute; reflexivity|exact Horder].
Defined.

End IndexScenario.

(** * Cache reconciliation *)

Section Reconcile.
Import historyService.
Context (h : Host) (fs : FileSys) (config : Config).

Lemma headerMatches_iff dtKey c :
  headerMatches config dtKey c = true <->
  version c = 4 /\ summaryAlgoVersion c = SUMMARY_CACHE_ALGO_VERSION /\
  cacheSessionsRoot c = sessionsRoot config /\
  cachePreviewMaxMessages c = previewMaxMessages config /\
  cacheDateTimeSettingsKey c = dtKey.
Proof.
  unfold headerMatches. rewrite !andb_true_iff, !Z.eqb_eq, !String.eqb_eq. tauto.
Qed.

Lemma reusedEntry_iff dtKey stored force key st e :
  reusedEntry (cachedEntriesOf config dtKey stored force) key st = Some e <->
  reuseCondition config dtKey stored force key st e.
Proof.
  unfold reusedEntry, cachedEntriesOf, reuseCondition, sameFingerprint.
  destruct force.
  { rewrite lookup_empty. split; [discriminate|]. intros [? _]. discriminate. }
  destruct stored as [c|].
  2:{ rewrite lookup_empty. split; [discriminate|]. intros [_ (c & ? & _)]. discriminate. }
  destruct (headerMatches config dtKey c) eqn:Hh.
  - apply headerMatches_iff in Hh. split.
    + destruct (entries c !! key) as [e'|] eqn:He; [|discriminate].
      destruct (_ && _) eqn:Hf; [|discriminate]. intros [= <-].
      apply andb_true_iff in Hf as [H1 H2]. apply Z.eqb_eq in H1, H2.
      split; [reflexivity|]. exists c. tauto.
    + intros [_ (c' & [= <-] & _ & _ & _ & _ & _ & He & H1 & H2)].
      rewrite He. apply Z.eqb_eq in H1, H2. now rewrite H1, H2.
  - rewrite lookup_empty. split; [discriminate|].
    intros [_ (c' & [= <-] & H)].
    assert (headerMatches config dtKey c = true) by (apply headerMatches_iff; tauto).
    congruence.
Qed.

Context (cached : gmap string CacheEntryV1).

Lemma reconcileStep_skip pass p :
  fs_stat fs p = None -> reconcileStep h fs config cached pass p = Ok pass.
Proof. intros H. unfold reconcileStep. now rewrite H. Qed.

Lemma reconcileStep_reuse pass p st e :
  fs_stat fs p = Some st -> reusedEntry cached (keyOf h p) st = Some e ->
  reconcileStep h fs config cached pass p =
  Ok {| nextEntries := <[keyOf h p := e]> (nextEntries pass);
        summaries := summaries pass ++ [summary e];
        extractorCalls := extractorCalls pass |}.
Proof. intros Hs Hr. unfold reconcileStep. fold (keyOf h p). now rewrite Hs, Hr. Qed.

Lemma reconcileStep_extract pass p st :
  fs_stat fs p = Some st -> reusedEntry cached (keyOf h p) st = None ->
  reconcileStep h fs config cached pass p =
  match extractorOn h fs config p with
  | Throw => Throw
  | Ok None => Ok {| nextEntries := nextEntries pass; summaries := summaries pass;
                     extractorCalls := extractorCalls pass ++ [p] |}
  | Ok (Some s) => Ok {| nextEntries := <[keyOf h p := freshEntry st s]> (nextEntries pass);
                         summaries := summaries pass ++ [s];
                         extractorCalls := extractorCalls pass ++ [p] |}
  end.
Proof.
  intros Hs Hr. unfold reconcileStep. fold (keyOf h p). rewrite Hs, Hr.
  fold (extractorOn h fs config p). destruct (extractorOn h fs config p) as [[s|]|]; reflexivity.
Qed.

Lemma reconcile_calls files : forall pass pass',
  reconcile h fs config cached pass files = Ok pass' ->
  extractorCalls pass' =
  extractorCalls pass ++ filter (fun p => extracted h fs cached p = true) files.
Proof.
  induction files as [|p files IH]; intros pass pass' H; cbn [reconcile] in H.
  - injection H as <-. now rewrite app_nil_r.
  - destruct (reconcileStep h fs config cached pass p) as [p1|] eqn:Hstep; [|discriminate].
    cbn in H. apply IH in H. rewrite H. rewrite filter_cons.
    destruct (fs_stat fs p) as [st|] eqn:Hs.
    + destruct (reusedEntry cached (keyOf h p) st) as [e|] eqn:Hr.
      * assert (Hex : extracted h fs cached p = false) by (unfold extracted; now rewrite Hs, Hr).
        rewrite (reconcileStep_reuse _ _ _ _ Hs Hr) in Hstep. injection Hstep as <-.
        rewrite Hex, decide_False by done. reflexivity.
      * assert (Hex : extracted h fs cached p = true) by (unfold extracted; now rewrite Hs, Hr).
        rewrite (reconcileStep_extract _ _ _ Hs Hr) in Hstep.
        rewrite Hex, decide_True by done.
        destruct (extractorOn h fs config p) as [[s|]|]; [| |discriminate]; injection Hstep as <-;
          cbn [extractorCalls]; now rewrite <- app_assoc.
    + assert (Hex : extracted h fs cached p = false) by (unfold extracted; now rewrite Hs).
      rewrite (reconcileStep_skip _ _ Hs) in Hstep. injection Hstep as <-.
      rewrite Hex, decide_False by done. reflexivity.
Qed.

Lemma reconcile_summaries_mono files : forall pass pass' s,
  reconcile h fs config cached pass files = Ok pass' ->
  In s (summaries pass) -> In s (summaries pass').
Proof.
  induction files as [|p files IH]; intros pass pass' s H Hin; cbn [reconcile] in H.
  - now injection H as <-.
  - destruct (reconcileStep h fs config cached pass p) as [p1|] eqn:Hstep; [|discriminate].
    cbn in H. apply (IH _ _ s H). clear H IH.
    unfold reconcileStep in Hstep. destruct (fs_stat fs p) as [st|];
      [|now injection Hstep as <-].
    destruct (reusedEntry _ _ _) as [e|].
    + injection Hstep as <-. cbn. apply in_or_app. now left.
    + destruct (sessionSummary.buildSessionSummary _ _ _ _ _) as [[s'|]|];
        cbn in Hstep; [| |discriminate]; injection Hstep as <-; cbn; auto.
      apply in_or_app. now left.
Qed.

(** the summary each discovered path contributes *)
Lemma reconcile_summaries files : forall pass pass' p st,
  reconcile h fs config cached pass files = Ok pass' ->
  In p files -> fs_stat fs p = Some st ->
  (forall e, reusedEntry cached (keyOf h p) st = Some e -> In (summary e) (summaries pass')) /\
  (reusedEntry cached (keyOf h p) st = None ->
   exists s, extractorOn h fs config p = Ok (Some s) /\ In s (summaries pass')).
Proof.
  induction files as [|q files IH]; intros pass pass' p st H Hin Hs; [destruct Hin|].
  cbn [reconcile] in H.
  destruct (reconcileStep h fs config cached pass q) as [p1|] eqn:Hstep; [|discriminate].
  cbn in H. destruct Hin as [->|Hin]; [|now apply (IH p1 pass' p st)].
  split.
  - intros e Hr. rewrite (reconcileStep_reuse _ _ _ _ Hs Hr) in Hstep.
    injection Hstep as <-. apply (reconcile_summaries_mono _ _ _ _ H).
    cbn. apply in_or_app. right. now left.
  - intros Hr. rewrite (reconcileStep_extract _ _ _ Hs Hr) in Hstep.
    destruct (build_cases h fs (sessionsRoot config) p (previewMaxMessages config))
      as [[Hn _]|[(st' & _ & _ & Ht)|(st' & c & s & _ & _ & Hb)]]; [congruence| |].
    + unfold extractorOn in Hstep. rewrite Ht in Hstep. discriminate.
    + unfold extractorOn in *. rewrite Hb in Hstep. injection Hstep as <-.
      exists s. split; [exact Hb|]. apply (reconcile_summaries_mono _ _ _ _ H).
      cbn. apply in_or_app. right. now left.
Qed.

Lemma reconcile_entries_other files : forall pass pass' k,
  reconcile h fs config cached pass files = Ok pass' ->
  ~ In k (map (keyOf h) files) -> nextEntries pass' !! k = nextEntries pass !! k.
Proof.
  induction files as [|q files IH]; intros pass pass' k H Hk; cbn [reconcile] in H.
  - now injection H as <-.
  - destruct (reconcileStep h fs config cached pass q) as [p1|] eqn:Hstep; [|discriminate].
    cbn in H. cbn in Hk. rewrite (IH p1 pass' k H) by tauto.
    unfold reconcileStep in Hstep. fold (keyOf h q) in Hstep.
    destruct (fs_stat fs q) as [st|]; [|now injection Hstep as <-].
    destruct (reusedEntry _ _ _) as [e|].
    + injection Hstep as <-. cbn. apply lookup_insert_ne. tauto.
    + destruct (sessionSummary.buildSessionSummary _ _ _ _ _) as [[s'|]|];
        cbn in Hstep; [| |discriminate]; injection Hstep as <-; cbn; auto.
      apply lookup_insert_ne. tauto.
Qed.

Lemma reconcile_entries files : forall pass pass' p st,
  reconcile h fs config cached pass files = Ok pass' ->
  NoDup (map (keyOf h) files) ->
  In p files -> fs_stat fs p = Some st ->
  (forall e, reusedEntry cached (keyOf h p) st = Some e ->
             nextEntries pass' !! keyOf h p = Some e) /\
  (forall s, reusedEntry cached (keyOf h p) st = None -> extractorOn h fs config p = Ok (Some s) ->
             nextEntries pass' !! keyOf h p = Some (freshEntry st s)).
Proof.
  induction files as [|q files IH]; intros pass pass' p st H Hnd Hin Hs; [destruct Hin|].
  cbn [reconcile] in H. cbn [map] in Hnd. apply NoDup_cons in Hnd as [Hq Hnd].
  rewrite list_elem_of_In in Hq.
  destruct (reconcileStep h fs config cached pass q) as [p1|] eqn:Hstep; [|discriminate].
  cbn in H. destruct Hin as [->|Hin]; [|now apply (IH p1 pass' p st)].
  rewrite (reconcile_entries_other _ _ _ _ H Hq).
  split.
  - intros e Hr. rewrite (reconcileStep_reuse _ _ _ _ Hs Hr) in Hstep.
    injection Hstep as <-. cbn. apply lookup_insert_eq.
  - intros s Hr Hb. rewrite (reconcileStep_extract _ _ _ Hs Hr), Hb in Hstep.
    injection Hstep as <-. cbn. apply lookup_insert_eq.
Qed.
End Reconcile.

Section ReconcileClaim.
Import historyService.

(** C6, amended: in a pass that completes, for every discovered path that
    can be stat'd the stored summary is reused, and the extractor not called
    on the path, if and only if the pass is not forced, the header of the
    stored cache file (version, summaryAlgoVersion, sessionsRoot,
    previewMaxMessages, dateTimeSettingsKey) is that of the configuration and
    the file holds for the key of the path an entry with the mtime and size
    of the file; otherwise the extractor is called on the path and the entry
    of its summary with the current fingerprint is stored.  A discovered path
    that cannot be stat'd is skipped and the extractor is not called on it. *)
Theorem C6_reuse_iff_unchanged (h : Host) (fs : FileSys) (config : Config)
        (dtKey : string) (files : list string) (stored : option CacheFileV4)
        (force : bool) (r : Refreshed) :
  refresh h fs config dtKey files stored force = Ok r ->
  fs_exists fs (sessionsRoot config) = true ->
  forall p, In p files ->
    match fs_stat fs p with
    | None => ~ In p (calls r)
    | Some st =>
        ((exists e, reuseCondition config dtKey stored force
                      (fsUtils.normalizeCacheKey h p) st e) <-> ~ In p (calls r)) /\
        (forall e, reuseCondition config dtKey stored force
                     (fsUtils.normalizeCacheKey h p) st e ->
           In (summary e) (sessions (index r)) /\
           (NoDup (map (fsUtils.normalizeCacheKey h) files) ->
            exists c, written r = Some c /\
                      entries c !! fsUtils.normalizeCacheKey h p = Some e)) /\
        ((~ exists e, reuseCondition config dtKey stored force
                        (fsUtils.normalizeCacheKey h p) st e) ->
           In p (calls r) /\
           exists s,
             sessionSummary.buildSessionSummary h fs (sessionsRoot config) p
               (previewMaxMessages config) = Ok (Some s) /\
             In s (sessions (index r)) /\
             (NoDup (map (fsUtils.normalizeCacheKey h) files) ->
              exists c, written r = Some c /\
                        entries c !! fsUtils.normalizeCacheKey h p
                        = Some (freshEntry st s)))
    end.
Proof.
  intros Hr Hroot p Hin. unfold refresh, fsUtils.pathExists in Hr.
  rewrite Hroot in Hr. cbn [negb] in Hr.
  set (cached := cachedEntriesOf config dtKey stored force) in *.
  destruct (reconcile h fs config cached _ files) as [pass|] eqn:Hpass; [|discriminate].
  cbn in Hr. injection Hr as <-. cbn [calls index written].
  rewrite sessions_buildIndex.
  pose proof (reconcile_calls h fs config cached files _ _ Hpass) as Hcalls.
  cbn [extractorCalls app] in Hcalls.
  assert (Hc : In p (extractorCalls pass) <-> extracted h fs cached p = true).
  { rewrite Hcalls, <- list_elem_of_In, list_elem_of_filter, list_elem_of_In. tauto. }
  destruct (fs_stat fs p) as [st|] eqn:Hs.
  2:{ rewrite Hc. unfold extracted. rewrite Hs. discriminate. }
  destruct (reconcile_summaries h fs config cached files _ _ p st Hpass Hin Hs)
    as [Hsum1 Hsum2].
  assert (Hre : forall e, reuseCondition config dtKey stored force
                            (fsUtils.normalizeCacheKey h p) st e <->
                          reusedEntry cached (keyOf h p) st = Some e).
  { intros e. symmetry. apply reusedEntry_iff. }
  split; [|split].
  - rewrite Hc. unfold extracted. rewrite Hs.
    destruct (reusedEntry cached (keyOf h p) st) as [e|] eqn:Hr0.
    + split; [discriminate|]. intros _. exists e. now apply Hre.
    + split; [|intros H; now elim H]. intros (e & He). apply Hre in He. discriminate.
  - intros e He. apply Hre in He. split.
    + apply Array_sort_In. now apply Hsum1.
    + intros Hnd. eexists. split; [reflexivity|]. cbn [entries].
      now apply (reconcile_entries h fs config cached files _ _ p st Hpass Hnd Hin Hs).
  - intros Hno.
    assert (Hr0 : reusedEntry cached (keyOf h p) st = None).
    { destruct (reusedEntry cached (keyOf h p) st) as [e|] eqn:E; [|reflexivity].
      elim Hno. exists e. now apply Hre. }
    split.
    + apply Hc. unfold extracted. now rewrite Hs, Hr0.
    + destruct (Hsum2 Hr0) as (s & Hb & Hs').
      exists s. split; [exact Hb|]. split; [now apply Array_sort_In|].
      intros Hnd. eexists. split; [reflexivity|]. cbn [entries].
      now apply (reconcile_entries h fs config cached files _ _ p st Hpass Hnd Hin Hs).
Qed.

Import Scenario.

Lemma refreshedGone_ok :
  refresh Posix.host fsType config6 settingsKey [fileA; goneFile] None false
  = Ok refreshedGone.
Proof. vm_compute. reflexivity. Qed.

(** C6, as stated: a discovered path that cannot be stat'd has no reusable
    entry, and yet the extractor is not called on it and no entry is stored
    for it. *)
Lemma C6_unstatable_path_counterexample :
  refresh Posix.host fsType config6 settingsKey [fileA; goneFile] None false
  = Ok refreshedGone /\
  In goneFile [fileA; goneFile] /\ fs_stat fsType goneFile = None /\
  ~ In goneFile (calls refreshedGone) /\
  (forall c, written refreshedGone = Some c ->
             entries c !! fsUtils.normalizeCacheKey Posix.host goneFile = None) /\
  ~ exists s, In s (sessions (index refreshedGone)) /\ fsPath s = goneFile.
Proof.
  split; [exact refreshedGone_ok|]. split; [right; left; reflexivity|].
  split; [vm_compute; reflexivity|]. split; [|split].
  - vm_compute. intros [H|[]]. discriminate H.
  - intros c Hc. vm_compute in Hc. injection Hc as <-. vm_compute. reflexivity.
  - intros (s & Hin & Hp). vm_compute in Hin. destruct Hin as [<-|[]].
    vm_compute in Hp. discriminate Hp.
Qed.

Lemma C6_reuse_iff_unchanged_witness :
  refresh Posix.host fsType config6 settingsKey [fileA; goneFile] None false
  = Ok refreshedGone /\
  fs_exists fsType (sessionsRoot config6) = true /\
  In fileA [fileA; goneFile] /\
  In fileA (calls refreshedGone).
Proof.
  pose proof (C6_reuse_iff_unchanged Posix.host fsType config6 settingsKey
                [fileA; goneFile] None false refreshedGone) as H.
  assert (Hr : refresh Posix.host fsType config6 settingsKey [fileA; goneFile] None false
               = Ok refreshedGone) by (vm_compute; reflexivity).
  assert (He : fs_exists fsType (sessionsRoot config6) = true) by (vm_compute; reflexivity).
  assert (Hi : In fileA [fileA; goneFile]) by (left; reflexivity).
  specialize (H Hr He fileA Hi).
  change (fs_stat fsType fileA) with (Some someStat) in H.
  destruct H as (_ & _ & H). destruct H as [Hc _].
  - intros (e & _ & c & Hc & _). discriminate Hc.
  - repeat split; assumption.
Defined.

(** The call log of the scenario: the second pass on unchanged files does
    not call the extractor; a changed modification time and a changed
    preview limit make it call the extractor again. *)
Example second_pass_reuses :
  refresh Posix.host fsType config6 settingsKey [fileA] (written refreshedFirst) false
  = Ok refreshedSecond /\
  calls refreshedFirst = [fileA] /\ calls refreshedSecond = [] /\
  sessions (index refreshedSecond) = sessions (index refreshedFirst).
Proof. repeat split; vm_compute; reflexivity. Qed.

Example changed_mtime_recomputes :
  refresh Posix.host fsTouched config6 settingsKey [fileA] (written refreshedFirst) false
  = Ok refreshedTouched /\ calls refreshedTouched = [fileA].
Proof. repeat split; vm_compute; reflexivity. Qed.

Example changed_previewLimit_recomputes :
  calls refreshedRelimited = [fileA].
Proof. vm_compute; reflexivity. Qed.

End ReconcileClaim.

(** * The cache file *)

Section CacheFile.
Import jsonStorage.

(** C2, amended: [writeJson] serialises the value and makes one call of
    [writeFile] on the target itself, with no temporary file and no rename.
    When the call completes the target holds exactly the new text; when it
    fails after [n] bytes the save rejects and the target holds the first
    [n] bytes of the new text, not the text stored before; no other file
    changes. *)
Theorem C2_write_in_place {T : Type} (stringify : T -> string)
        (store : gmap string string) (uri : string) (data : T) :
  writeJson stringify uri data = [WriteFile uri (stringify data)] /\
  (snd (perform store (writeJson stringify uri data) None) = Ok tt /\
   fst (perform store (writeJson stringify uri data) None) !! uri
   = Some (stringify data)) /\
  (forall n,
      snd (perform store (writeJson stringify uri data) (Some (0%nat, n))) = Throw /\
      fst (perform store (writeJson stringify uri data) (Some (0%nat, n))) !! uri
      = Some (String.substring 0 n (stringify data))) /\
  (forall fault u, u <> uri ->
      fst (perform store (writeJson stringify uri data) fault) !! u = store !! u).
Proof.
  unfold writeJson. split; [reflexivity|]. split; [|split].
  - split; [reflexivity|]. cbn. apply lookup_insert_eq.
  - intros n. split; [reflexivity|]. cbn. apply lookup_insert_eq.
  - intros [[[|k] n]|] u Hu; cbn; apply lookup_insert_ne; congruence.
Qed.

(** A text that does not parse reads as no cache at all. *)
Lemma readJson_unparseable {T : Type} (parse : string -> option T)
      (store : gmap string string) (uri text : string) :
  store !! uri = Some text -> parse text = None -> readJson parse store uri = None.
Proof. intros Hs Hp. unfold readJson. now rewrite Hs. Qed.

Lemma temporary_differs uri : uri +:+ ".tmp" <> uri.
Proof.
  intros H. apply (f_equal String.length) in H. rewrite append_length in H.
  cbn in H. lia.
Qed.

(** Under the same storage the save by write-then-rename keeps the target
    as it was whenever one of its two calls fails. *)
Lemma writeThenRename_keeps_target {T : Type} (stringify : T -> string)
      (store : gmap string string) (uri : string) (data : T) (k n : nat) :
  (k < 2)%nat ->
  snd (perform store (writeThenRename stringify uri data) (Some (k, n))) = Throw /\
  fst (perform store (writeThenRename stringify uri data) (Some (k, n))) !! uri
  = store !! uri.
Proof.
  intros Hk. pose proof (temporary_differs uri) as Hne.
  destruct k as [|[|k]]; [| |lia]; cbn; (split; [reflexivity|]);
    now apply lookup_insert_ne.
Qed.

Import Scenario.

(** C2, as stated: the save of the new cache makes a single [writeFile] on
    the cache file; failing after forty bytes it leaves a truncated text
    there: the cache stored before is gone and the file no longer parses. *)
Lemma C2_partial_write_counterexample :
  writeJson Posix.stringify cacheUri newCache
  = [WriteFile cacheUri (Posix.stringify newCache)] /\
  snd failedWrite = Throw /\
  fst failedWrite !! cacheUri <> storeBefore !! cacheUri /\
  readJson Posix.parseJson storeBefore cacheUri = Some oldCache /\
  readJson Posix.parseJson (fst failedWrite) cacheUri = None.
Proof.
  split; [reflexivity|]. split; [reflexivity|]. split; [|split].
  - vm_compute. intros H. discriminate H.
  - vm_compute. reflexivity.
  - vm_compute. reflexivity.
Qed.

Lemma C2_write_in_place_witness :
  "/other"%string <> cacheUri /\
  fst (perform storeBefore (writeJson Posix.stringify cacheUri newCache) None) !! "/other"%string
  = storeBefore !! "/other"%string.
Proof.
  assert (Hne : "/other"%string <> cacheUri) by (intros H; discriminate H).
  split; [exact Hne|].
  destruct (C2_write_in_place Posix.stringify storeBefore cacheUri newCache)
    as (_ & _ & _ & Hother).
  exact (Hother None "/other"%string Hne).
Defined.

End CacheFile.

(** * The search *)

Section SearchFacts.
Import searchService.
Context (h : Host) (fs : FileSys).
Context (query : string) (maxResults : Z) (caseSensitive : bool).
Context (token : nat -> bool).

Lemma taken_nil room : taken h query caseSensitive room [] = [].
Proof. now destruct room. Qed.

Lemma taken_miss room line rest :
  matching h query caseSensitive line = false ->
  taken h query caseSensitive (S room) (line :: rest)
  = line :: taken h query caseSensitive (S room) rest.
Proof. intros Hm. cbn [taken upToMatch]. now rewrite Hm. Qed.

Lemma taken_match room line rest :
  matching h query caseSensitive line = true ->
  taken h query caseSensitive (S room) (line :: rest)
  = line :: match room with
            | O => []
            | S _ => taken h query caseSensitive room rest
            end.
Proof.
  intros Hm. cbn [taken upToMatch]. rewrite Hm. f_equal.
  destruct room; [now destruct rest|reflexivity].
Qed.

Lemma scanLines_quiet s lines : forall idx st,
  quiet token ->
  exists st',
    scanLines h query maxResults caseSensitive token s lines idx st = Next st' /\
    bySession st' =
      fold_left (fun m hit => recordHit s hit m)
                (firstn (budget maxResults st) (hitsFrom h query caseSensitive idx (searchable h lines)))
                (bySession st) /\
    totalHits st' =
      totalHits st +
      Z.of_nat (length (firstn (budget maxResults st)
                          (hitsFrom h query caseSensitive idx (searchable h lines)))) /\
    events st' =
      events st ++
      repeat Poll (length (taken h query caseSensitive (budget maxResults st) lines)) /\
    polls st' =
      (polls st + length (taken h query caseSensitive (budget maxResults st) lines))%nat.
Proof.
  induction lines as [|line rest IH]; intros idx st Hq.
  - exists st. cbn [scanLines searchable omap list_omap hitsFrom].
    rewrite firstn_nil, taken_nil. cbn. rewrite app_nil_r.
    repeat split; (reflexivity || lia).
  - cbn [scanLines]. rewrite Hq.
    change (totalHits (tick st)) with (totalHits st).
    destruct (Z.geb_spec (totalHits st) maxResults) as [Hge|Hlt].
    { exists (tick st). unfold budget. replace (Z.to_nat _) with 0%nat by lia.
      change (taken h query caseSensitive 0 (line :: rest)) with [line].
      rewrite firstn_O. cbn. repeat split; (reflexivity || lia). }
    assert (Hroom : exists room, budget maxResults st = S room).
    { exists (Nat.pred (budget maxResults st)). unfold budget. lia. }
    destruct Hroom as [room Hroom].
    assert (Hstep : forall st1 st',
               budget maxResults st1 = S room ->
               events st1 = events st ++ [Poll] -> polls st1 = S (polls st) ->
               events st' = events st1 ++
                 repeat Poll (length (taken h query caseSensitive (S room) rest)) ->
               polls st' = (polls st1 + length (taken h query caseSensitive (S room) rest))%nat ->
               matching h query caseSensitive line = false ->
               events st' = events st ++
                 repeat Poll (length (taken h query caseSensitive (budget maxResults st)
                                        (line :: rest))) /\
               polls st' = (polls st + length (taken h query caseSensitive
                                                 (budget maxResults st) (line :: rest)))%nat).
    { intros st1 st' _ He Hp He' Hp' Hm. rewrite Hroom, (taken_miss _ _ _ Hm).
      cbn [length repeat]. rewrite He', He, Hp', Hp, <- app_assoc. split; [reflexivity|lia]. }
    unfold searchable. cbn [omap list_omap].
    fold (searchable h rest).
    destruct (messageOfLine h line) as [[role text]|] eqn:Hm.
    2:{ destruct (IH idx (tick st) Hq) as (st' & H1 & H2 & H3 & H4 & H5).
        change (budget maxResults (tick st)) with (budget maxResults st) in H4, H5.
        rewrite Hroom in H4, H5.
        exists st'. split; [exact H1|]. split; [exact H2|]. split; [exact H3|].
        apply (Hstep (tick st) st'); auto. unfold matching. now rewrite Hm. }
    cbn [hitsFrom].
    destruct (hitAtOf h query caseSensitive text) as [hitAt|] eqn:Hh.
    2:{ destruct (IH (idx + 1) (tick st) Hq) as (st' & H1 & H2 & H3 & H4 & H5).
        change (budget maxResults (tick st)) with (budget maxResults st) in H4, H5.
        rewrite Hroom in H4, H5.
        exists st'. split; [exact H1|]. split; [exact H2|]. split; [exact H3|].
        apply (Hstep (tick st) st'); auto. unfold matching. now rewrite Hm, Hh. }
    assert (Hmatch : matching h query caseSensitive line = true)
      by (unfold matching; now rewrite Hm, Hh).
    set (hit := hitOf query (idx + 1) role text hitAt).
    set (st2 := addHit s hit (tick st)).
    assert (Hb : budget maxResults st2 = room).
    { unfold budget in *. unfold st2. cbn. lia. }
    rewrite Hroom, (taken_match _ _ _ Hmatch). cbn [firstn fold_left length].
    change (totalHits st2) with (totalHits st + 1).
    destruct (Z.geb_spec (totalHits st + 1) maxResults) as [Hge|Hlt2].
    + exists st2. assert (room = 0%nat) as -> by (unfold budget in Hroom; lia).
      rewrite firstn_O. cbn. repeat split; (reflexivity || lia).
    + destruct (IH (idx + 1) st2 Hq) as (st' & H1 & H2 & H3 & H4 & H5).
      rewrite Hb in H2, H3, H4, H5.
      assert (Hpos : exists fewer, room = S fewer).
      { exists (Nat.pred room). unfold budget in Hroom. lia. }
      destruct Hpos as [fewer ->].
      exists st'. split; [exact H1|]. split; [exact H2|]. split; [|split].
      * rewrite H3. unfold st2 at 1. cbn [totalHits addHit tick]. lia.
      * rewrite H4. unfold st2 at 1. cbn [events addHit tick length repeat].
        now rewrite <- app_assoc.
      * rewrite H5. unfold st2 at 1. cbn [polls addHit tick length]. lia.
Qed.

Lemma fold_record_map s hits0 m :
  fold_left record (map (pair s) hits0) m =
  fold_left (fun m hit => recordHit s hit m) hits0 m.
Proof. revert m. induction hits0 as [|x l IH]; intros m; cbn; [reflexivity|apply IH]. Qed.

Lemma pollCount_app a b : pollCount (a ++ b) = (pollCount a + pollCount b)%nat.
Proof. unfold pollCount. now rewrite List.filter_app, length_app. Qed.

Lemma pollCount_repeat n : pollCount (repeat Poll n) = n.
Proof. induction n as [|n IH]; [reflexivity|]. cbn [repeat]. unfold pollCount in *. cbn. now rewrite IH. Qed.

Lemma searchLoop_quiet total sessions : forall i st,
  quiet token -> readable fs sessions ->
  exists st',
    searchLoop h fs query maxResults caseSensitive token total i sessions st = Next st' /\
    bySession st' =
      fold_left record (firstn (budget maxResults st) (allHits h fs query caseSensitive sessions))
                (bySession st) /\
    totalHits st' =
      totalHits st +
      Z.of_nat (length (firstn (budget maxResults st)
                          (allHits h fs query caseSensitive sessions))) /\
    events st' =
      events st ++ visits h fs query caseSensitive (budget maxResults st) total i sessions /\
    polls st' =
      (polls st +
       pollCount (visits h fs query caseSensitive (budget maxResults st) total i sessions))%nat.
Proof.
  induction sessions as [|s rest IH]; intros i st Hq Hr.
  - exists st. cbn. rewrite firstn_nil, app_nil_r. cbn. repeat split; (reflexivity || lia).
  - apply Forall_cons in Hr as [[content Hc] Hr].
    cbn [searchLoop]. rewrite Hq, Hc.
    set (st1 := emit _ (tick st)).
    destruct (scanLines_quiet s (Node.lines content) 0 st1 Hq)
      as (st2 & H1 & H2 & H3 & H4 & H5).
    rewrite H1.
    destruct (IH (i + 1) st2 Hq Hr) as (st' & G1 & G2 & G3 & G4 & G5).
    exists st'. split; [exact G1|].
    assert (Hl : hitsFrom h query caseSensitive 0 (searchable h (Node.lines content))
                 = fileHits h fs query caseSensitive s).
    { unfold fileHits, linesOf. now rewrite Hc. }
    assert (Hlines : Node.lines content = linesOf fs s).
    { unfold linesOf. now rewrite Hc. }
    rewrite Hl in H2, H3. rewrite Hlines in H4, H5.
    change (budget maxResults st1) with (budget maxResults st) in H2, H3, H4, H5.
    change (bySession st1) with (bySession st) in H2.
    change (totalHits st1) with (totalHits st) in H3.
    set (F := fileHits h fs query caseSensitive s) in *.
    set (A := allHits h fs query caseSensitive rest) in *.
    assert (Hroom : budget maxResults st2 = (budget maxResults st - length F)%nat).
    { unfold budget at 1. rewrite H3, length_firstn. unfold budget. lia. }
    assert (Hb : firstn (budget maxResults st) (allHits h fs query caseSensitive (s :: rest))
                 = map (pair s) (firstn (budget maxResults st) F) ++ firstn (budget maxResults st2) A).
    { cbn [allHits flat_map]. fold F. fold (allHits h fs query caseSensitive rest). fold A.
      rewrite firstn_app, firstn_map. f_equal. rewrite length_map. f_equal.
      exact (eq_sym Hroom). }
    rewrite Hb. split; [|split; [|split]].
    + rewrite fold_left_app, fold_record_map, <- H2. exact G2.
    + rewrite G3, H3, length_app, length_map. lia.
    + rewrite G4, H4, Hroom. unfold st1. cbn [events emit tick visits]. fold F.
      rewrite <- !app_assoc. reflexivity.
    + rewrite G5, H5, Hroom. unfold st1. cbn [polls emit tick visits]. fold F.
      rewrite !pollCount_app, pollCount_repeat. cbn. lia.
Qed.
End SearchFacts.

Section HitCounts.
Import searchService.

Lemma hitCount_cons e l : hitCount (e :: l) = (length (hits e) + hitCount l)%nat.
Proof. unfold hitCount. cbn. now rewrite length_app. Qed.

Lemma recordHit_count s hit m :
  hitCount (map snd (recordHit s hit m)) = S (hitCount (map snd m)).
Proof.
  induction m as [|[k e] m IH]; cbn [recordHit]; [reflexivity|].
  destruct (String.eqb k (cacheKey s)); cbn [map snd]; rewrite !hitCount_cons.
  - cbn [hits]. rewrite length_app. cbn. lia.
  - rewrite IH. lia.
Qed.

Lemma fold_record_count tagged : forall m,
  hitCount (map snd (fold_left record tagged m)) = (hitCount (map snd m) + length tagged)%nat.
Proof.
  induction tagged as [|x l IH]; intros m; cbn [fold_left length]; [lia|].
  rewrite IH. unfold record. rewrite recordHit_count. lia.
Qed.

Lemma hitCount_perm l l' : Permutation l l' -> hitCount l = hitCount l'.
Proof.
  induction 1; rewrite ?hitCount_cons in *; try reflexivity; lia.
Qed.

Lemma hitCount_sortHits l : hitCount (map sortHits l) = hitCount l.
Proof.
  induction l as [|e l IH]; [reflexivity|]. cbn [map]. rewrite !hitCount_cons, IH.
  f_equal. cbn [sortHits hits]. apply Permutation_length. symmetry. apply Array_sort_perm.
Qed.

Lemma opened_polls n : opened (repeat Poll n) = [].
Proof. induction n as [|n IH]; [reflexivity|exact IH]. Qed.

Lemma opened_visits h fs query caseSensitive total sessions : forall room i,
  opened (visits h fs query caseSensitive room total i sessions) = map fsPath sessions.
Proof.
  induction sessions as [|s rest IH]; intros room i; [reflexivity|].
  cbn [visits map]. unfold opened at 1. rewrite !omap_app. fold opened.
  rewrite opened_polls, IH. reflexivity.
Qed.

End HitCounts.

Section SearchClaims.
Import searchService.
Context (h : Host) (fs : FileSys).
Context (query : string) (maxResults : Z) (caseSensitive : bool).
Context (token : nat -> bool).


Lemma searchSessions_quiet sessions :
  quiet token -> readable fs sessions ->
  exists st,
    searchLoop h fs query maxResults caseSensitive token
      (Z.of_nat (length sessions)) 0 sessions
      {| bySession := []; totalHits := 0; polls := 0; events := [] |} = Next st /\
    searchSessions h fs query maxResults caseSensitive token sessions = {| outcome := Done (resultOf st); polled := polls st; trace := events st |} /\
    bySession st = fold_left record (firstn (Z.to_nat maxResults) (allHits h fs query caseSensitive sessions)) [] /\
    totalHits st = Z.of_nat (length (firstn (Z.to_nat maxResults) (allHits h fs query caseSensitive sessions))) /\
    events st = visits h fs query caseSensitive (Z.to_nat maxResults)
                  (Z.of_nat (length sessions)) 0 sessions /\
    polls st = pollCount (events st).
Proof.
  intros Hq Hr.
  destruct (searchLoop_quiet h fs query maxResults caseSensitive token
              (Z.of_nat (length sessions)) sessions 0
              {| bySession := []; totalHits := 0; polls := 0; events := [] |} Hq Hr)
    as (st & H1 & H2 & H3 & H4 & H5).
  exists st. unfold searchSessions. rewrite H1.
  unfold budget in *. cbn [totalHits bySession events polls app] in *.
  rewrite Z.sub_0_r in *. rewrite H4. repeat split; assumption.
Qed.

(** C3, amended: without cancellation and with readable candidates, the
    search records the matching messages in candidate order up to
    [maxResults] and no further hit: [totalHits] is the smaller of
    [maxResults] and the number of matching messages, so exactly
    [maxResults] when there are more, and it is the number of hits in the
    result.  In a file the search takes the lines up to the one whose hit
    uses up the room and no line after it.  The search as a whole does not
    stop at the cap: every candidate still gets its poll of the token, its
    progress report and its file opened, in order, and of a file that is
    entered with no room left the first line alone is taken. *)
Theorem C3_cap_on_hits (sessions : list SessionSummary) :
  quiet token -> readable fs sessions -> 0 <= maxResults ->
  exists r,
    outcome (searchSessions h fs query maxResults caseSensitive token sessions) = Done r /\
    resultTotalHits r = Z.min maxResults (Z.of_nat (length (allHits h fs query caseSensitive sessions))) /\
    (maxResults < Z.of_nat (length (allHits h fs query caseSensitive sessions)) -> resultTotalHits r = maxResults) /\
    Z.of_nat (hitCount (resultSessions r)) = resultTotalHits r /\
    trace (searchSessions h fs query maxResults caseSensitive token sessions)
    = visits h fs query caseSensitive (Z.to_nat maxResults)
        (Z.of_nat (length sessions)) 0 sessions /\
    polled (searchSessions h fs query maxResults caseSensitive token sessions)
    = pollCount (trace (searchSessions h fs query maxResults caseSensitive token sessions)) /\
    opened (trace (searchSessions h fs query maxResults caseSensitive token sessions)) = map fsPath sessions.
Proof.
  intros Hq Hr Hk.
  destruct (searchSessions_quiet sessions Hq Hr) as (st & _ & Hrun & Hm & Ht & He & Hp).
  exists (resultOf st). rewrite Hrun.
  cbn [outcome trace polled resultOf resultTotalHits resultSessions].
  assert (Htot : totalHits st = Z.min maxResults (Z.of_nat (length (allHits h fs query caseSensitive sessions)))).
  { rewrite Ht, length_firstn. lia. }
  split; [reflexivity|]. split; [exact Htot|]. split; [lia|]. split; [|split; [|split]].
  - rewrite hitCount_sortHits.
    rewrite <- (hitCount_perm _ _ (Array_sort_perm compareEntries (map snd (bySession st)))).
    rewrite Hm, fold_record_count. cbn. now rewrite Ht.
  - exact He.
  - exact Hp.
  - rewrite He. apply opened_visits.
Qed.
End SearchClaims.

Section HitFacts.
Import searchService.
Context (h : Host) (fs : FileSys) (query : string) (caseSensitive : bool).




End HitFacts.

Section EntryFacts.
Import searchService.





End EntryFacts.

Section IndexClaim.
Import searchService.
Context (h : Host) (fs : FileSys).
Context (query : string) (maxResults : Z) (caseSensitive : bool).
Context (token : nat -> bool).

End IndexClaim.

Section Cancellation.
Import searchService.
Context (h : Host) (fs : FileSys).
Context (query : string) (maxResults : Z) (caseSensitive : bool).
Context (token : nat -> bool).

Lemma clean_tick st : clean token (polls st) -> token (polls st) = false ->
  clean token (polls (tick st)).
Proof.
  intros Hc Ht k Hk. cbn in Hk.
  destruct (Nat.eq_dec k (polls st)) as [->|]; [exact Ht|]. apply Hc. lia.
Qed.

Lemma cancelled_tick st : clean token (polls st) -> token (polls st) = true ->
  cancelledAt token (tick st).
Proof.
  intros Hc Ht. unfold cancelledAt. cbn [polls tick].
  replace (S (polls st) - 1)%nat with (polls st) by lia. repeat split; auto. lia.
Qed.

Lemma scanLines_polls s lines : forall idx st,
  clean token (polls st) -> flowGood token (scanLines h query maxResults caseSensitive token s lines idx st).
Proof.
  induction lines as [|line rest IH]; intros idx st Hc; [exact Hc|].
  cbn [scanLines]. destruct (token (polls st)) eqn:Ht.
  { now apply cancelled_tick. }
  pose proof (clean_tick st Hc Ht) as Hc1.
  destruct (_ >=? _); [exact Hc1|].
  destruct (messageOfLine h line) as [[role text]|]; [|now apply IH].
  destruct (hitAtOf h query caseSensitive text) as [hitAt|]; [|now apply IH].
  destruct (_ >=? _); [exact Hc1|]. now apply IH.
Qed.

Lemma searchLoop_polls total sessions : forall i st,
  clean token (polls st) -> flowGood token (searchLoop h fs query maxResults caseSensitive token total i sessions st).
Proof.
  induction sessions as [|s rest IH]; intros i st Hc; [exact Hc|].
  cbn [searchLoop]. destruct (token (polls st)) eqn:Ht.
  { now apply cancelled_tick. }
  pose proof (clean_tick st Hc Ht) as Hc1.
  destruct (fs_read fs (fsPath s)) as [content|]; [|exact Hc1].
  set (st1 := emit _ (tick st)).
  pose proof (scanLines_polls s (Node.lines content) 0 st1 Hc1) as Hs.
  destruct (scanLines h query maxResults caseSensitive token s (Node.lines content) 0 st1) as [st2|st2|st2]; [|exact Hs|exact Hs].
  now apply IH.
Qed.

Lemma grown_refl st : grown st st.
Proof. exists []. rewrite app_nil_r. split; [reflexivity|]. cbn. lia. Qed.

Lemma grown_trans a b c : grown a b -> grown b c -> grown a c.
Proof.
  intros (m1 & E1 & P1) (m2 & E2 & P2). exists (m1 ++ m2).
  rewrite E2, E1, P2, P1, pollCount_app, <- app_assoc. split; [reflexivity|lia].
Qed.

Lemma grown_tick st : grown st (tick st).
Proof. exists [Poll]. split; reflexivity || (cbn; lia). Qed.

Lemma grown_counted st st' :
  pollCount (events st) = polls st -> grown st st' -> pollCount (events st') = polls st'.
Proof. intros Hc (more & -> & ->). rewrite pollCount_app. lia. Qed.

Lemma scanLines_grown tok s lines : forall idx st,
  grown st (stateOf (scanLines h query maxResults caseSensitive tok s lines idx st)).
Proof.
  induction lines as [|line rest IH]; intros idx st; [apply grown_refl|].
  cbn [scanLines]. destruct (tok (polls st)); [apply grown_tick|].
  destruct (_ >=? _); [apply grown_tick|].
  destruct (messageOfLine h line) as [[role text]|];
    [|exact (grown_trans _ _ _ (grown_tick st) (IH _ _))].
  destruct (hitAtOf h query caseSensitive text) as [hitAt|];
    [|exact (grown_trans _ _ _ (grown_tick st) (IH _ _))].
  destruct (_ >=? _); [apply grown_tick|].
  refine (grown_trans _ _ _ (grown_tick st) _).
  exact (IH (idx + 1) (addHit s (hitOf query (idx + 1) role text hitAt) (tick st))).
Qed.

Lemma searchLoop_grown tok total sessions : forall i st,
  grown st (stateOf (searchLoop h fs query maxResults caseSensitive tok total i sessions st)).
Proof.
  induction sessions as [|s rest IH]; intros i st; [apply grown_refl|].
  cbn [searchLoop]. destruct (tok (polls st)); [apply grown_tick|].
  set (st1 := emit _ (tick st)).
  assert (H1 : grown st st1).
  { eexists. unfold st1. cbn [events polls emit tick]. rewrite <- app_assoc.
    split; [reflexivity|]. cbn. lia. }
  destruct (fs_read fs (fsPath s)) as [content|]; [|exact H1].
  pose proof (scanLines_grown tok s (Node.lines content) 0 st1) as H2.
  destruct (scanLines h query maxResults caseSensitive tok s (Node.lines content) 0 st1)
    as [st2|st2|st2]; cbn [stateOf] in *.
  - exact (grown_trans _ _ _ H1 (grown_trans _ _ _ H2 (IH _ _))).
  - exact (grown_trans _ _ _ H1 H2).
  - exact (grown_trans _ _ _ H1 H2).
Qed.

Lemma scanLines_calm s lines idx st :
  exists st', scanLines h query maxResults caseSensitive (fun _ : nat => false) s lines idx st = Next st'.
Proof.
  revert idx st. induction lines as [|line rest IH]; intros idx st; [now exists st|].
  cbn [scanLines]. destruct (_ >=? _); [eauto|].
  destruct (messageOfLine h line) as [[role text]|]; [|apply IH].
  destruct (hitAtOf h query caseSensitive text) as [hitAt|]; [|apply IH].
  destruct (_ >=? _); [eauto|apply IH].
Qed.

Lemma uptoPoll_app_ge E : forall n l,
  (pollCount E <= n)%nat -> uptoPoll n (E ++ l) = E ++ uptoPoll (n - pollCount E) l.
Proof.
  induction E as [|e E IH]; intros n l Hn; [now rewrite Nat.sub_0_r|].
  destruct e; cbn [app uptoPoll].
  - change (pollCount (Poll :: E)) with (S (pollCount E)) in *.
    destruct n as [|m]; [lia|]. rewrite IH by lia. reflexivity.
  - change (pollCount (Report message :: E)) with (pollCount E) in *. now rewrite IH.
  - change (pollCount (Open path :: E)) with (pollCount E) in *. now rewrite IH.
Qed.

Lemma uptoPoll_app_lt E : forall n l,
  (n < pollCount E)%nat -> uptoPoll n (E ++ l) = uptoPoll n E.
Proof.
  induction E as [|e E IH]; intros n l Hn; [cbn in Hn; lia|].
  destruct e; cbn [app uptoPoll].
  - change (pollCount (Poll :: E)) with (S (pollCount E)) in *.
    destruct n as [|m]; [reflexivity|]. rewrite IH by lia. reflexivity.
  - change (pollCount (Report message :: E)) with (pollCount E) in *. now rewrite IH.
  - change (pollCount (Open path :: E)) with (pollCount E) in *. now rewrite IH.
Qed.

(** A state that grew by at least the poll [Poll] right after [st]. *)
Lemma uptoPoll_next st st' :
  pollCount (events st) = polls st -> grown (tick st) st' ->
  uptoPoll (polls st) (events st') = events st ++ [Poll].
Proof.
  intros Hc (more & -> & _). cbn [events tick]. rewrite <- app_assoc.
  rewrite uptoPoll_app_ge by lia. rewrite Hc, Nat.sub_diag. reflexivity.
Qed.

Lemma scanLines_cancelled s lines n : forall idx st,
  pollCount (events st) = polls st ->
  clean token n -> token n = true -> (polls st <= n)%nat ->
  (n < polls (stateOf (scanLines h query maxResults caseSensitive (fun _ : nat => false) s lines idx st)))%nat ->
  exists st',
    scanLines h query maxResults caseSensitive token s lines idx st = ReturnNull st' /\
    polls st' = S n /\
    events st' =
      uptoPoll n (events (stateOf (scanLines h query maxResults caseSensitive (fun _ : nat => false)
                                     s lines idx st))).
Proof.
  induction lines as [|line rest IH]; intros idx st Hc Hclean Hn Hle;
    [cbn; lia|].
  destruct (Nat.eq_dec (polls st) n) as [He|Hne].
  - intros _. subst n. cbn [scanLines]. rewrite Hn. exists (tick st).
    split; [reflexivity|]. split; [reflexivity|].
    symmetry. apply uptoPoll_next; [exact Hc|].
    destruct (_ >=? _); [apply grown_refl|].
    destruct (messageOfLine h line) as [[role text]|]; [|apply scanLines_grown].
    destruct (hitAtOf h query caseSensitive text) as [hitAt|]; [|apply scanLines_grown].
    destruct (_ >=? _).
    + exists []. rewrite app_nil_r. split; [reflexivity|]. cbn. lia.
    + refine (grown_trans _ _ _ _ (scanLines_grown _ _ _ _ _)).
      exists []. rewrite app_nil_r. split; [reflexivity|]. cbn. lia.
  - assert (Hf : token (polls st) = false) by (apply Hclean; lia).
    assert (Hc1 : pollCount (events (tick st)) = polls (tick st)).
    { cbn [events polls tick]. rewrite pollCount_app. cbn. lia. }
    cbn [scanLines]. rewrite Hf.
    destruct (_ >=? _); [cbn [stateOf polls tick]; lia|].
    destruct (messageOfLine h line) as [[role text]|];
      [|apply IH; auto; cbn; lia].
    destruct (hitAtOf h query caseSensitive text) as [hitAt|];
      [|apply IH; auto; cbn; lia].
    destruct (_ >=? _); [cbn [stateOf polls tick addHit]; lia|].
    apply IH; auto; cbn; lia.
Qed.

Lemma scanLines_undisturbed s lines : forall idx st,
  (forall k, (polls st <= k)%nat ->
             (k < polls (stateOf (scanLines h query maxResults caseSensitive (fun _ : nat => false)
                                    s lines idx st)))%nat ->
             token k = false) ->
  scanLines h query maxResults caseSensitive token s lines idx st
  = scanLines h query maxResults caseSensitive (fun _ : nat => false) s lines idx st.
Proof.
  induction lines as [|line rest IH]; intros idx st; [reflexivity|].
  intros Hk.
  assert (Hf : token (polls st) = false).
  { apply Hk; [lia|].
    pose proof (scanLines_grown (fun _ : nat => false) s (line :: rest) idx st) as Hg.
    revert Hg. cbn [scanLines].
    set (F := if _ >=? _ then _ else _).
    intros Hg.
    assert (Hg1 : grown (tick st) (stateOf F)).
    { unfold F. destruct (_ >=? _); [apply grown_refl|].
      destruct (messageOfLine h line) as [[role text]|]; [|apply scanLines_grown].
      destruct (hitAtOf h query caseSensitive text) as [hitAt|]; [|apply scanLines_grown].
      destruct (_ >=? _).
      - exists []. rewrite app_nil_r. split; [reflexivity|]. cbn. lia.
      - refine (grown_trans _ _ _ _ (scanLines_grown _ _ _ _ _)).
        exists []. rewrite app_nil_r. split; [reflexivity|]. cbn. lia. }
    destruct Hg1 as (more & _ & Hp). rewrite Hp. cbn. lia. }
  revert Hk. cbn [scanLines]. rewrite Hf.
  destruct (_ >=? _); [reflexivity|].
  destruct (messageOfLine h line) as [[role text]|];
    [|intros Hk; apply IH; intros k Hk1 Hk2; apply Hk; [cbn in Hk1; lia|exact Hk2]].
  destruct (hitAtOf h query caseSensitive text) as [hitAt|];
    [|intros Hk; apply IH; intros k Hk1 Hk2; apply Hk; [cbn in Hk1; lia|exact Hk2]].
  destruct (_ >=? _); [reflexivity|].
  intros Hk. apply IH. intros k Hk1 Hk2. apply Hk; [cbn in Hk1; lia|exact Hk2].
Qed.

Lemma searchLoop_cancelled total sessions n : forall i st,
  pollCount (events st) = polls st ->
  clean token n -> token n = true -> (polls st <= n)%nat ->
  (n < polls (stateOf (searchLoop h fs query maxResults caseSensitive (fun _ : nat => false)
                         total i sessions st)))%nat ->
  exists st',
    searchLoop h fs query maxResults caseSensitive token total i sessions st
    = ReturnNull st' /\
    polls st' = S n /\
    events st' =
      uptoPoll n (events (stateOf (searchLoop h fs query maxResults caseSensitive (fun _ : nat => false)
                                     total i sessions st))).
Proof.
  induction sessions as [|s rest IH]; intros i st Hc Hclean Hn Hle;
    [cbn; lia|].
  destruct (Nat.eq_dec (polls st) n) as [He|Hne].
  - intros _. subst n. cbn [searchLoop]. rewrite Hn. exists (tick st).
    split; [reflexivity|]. split; [reflexivity|].
    symmetry. apply uptoPoll_next; [exact Hc|].
    set (st1 := emit _ (tick st)).
    assert (H1 : grown (tick st) st1).
    { eexists. unfold st1. cbn [events polls emit tick].
      split; [reflexivity|]. cbn. lia. }
    destruct (fs_read fs (fsPath s)) as [content|]; [|exact H1].
    pose proof (scanLines_grown (fun _ : nat => false) s (Node.lines content) 0 st1) as H2.
    destruct (scanLines h query maxResults caseSensitive (fun _ : nat => false) s (Node.lines content) 0 st1)
      as [st2|st2|st2]; cbn [stateOf] in *.
    + exact (grown_trans _ _ _ H1 (grown_trans _ _ _ H2 (searchLoop_grown _ _ _ _ _))).
    + exact (grown_trans _ _ _ H1 H2).
    + exact (grown_trans _ _ _ H1 H2).
  - assert (Hf : token (polls st) = false) by (apply Hclean; lia).
    cbn [searchLoop]. rewrite Hf.
    set (st1 := emit _ (tick st)).
    assert (Hc1 : pollCount (events st1) = polls st1).
    { unfold st1. cbn [events polls emit tick]. rewrite !pollCount_app. cbn. lia. }
    assert (Hp1 : polls st1 = S (polls st)) by reflexivity.
    destruct (fs_read fs (fsPath s)) as [content|]; [|cbn [stateOf]; lia].
    destruct (scanLines_calm s (Node.lines content) 0 st1) as [st2 Hcalm].
    pose proof (scanLines_grown (fun _ : nat => false) s (Node.lines content) 0 st1) as Hg2.
    rewrite Hcalm in Hg2 |- *. cbn [stateOf] in Hg2.
    pose proof (grown_counted _ _ Hc1 Hg2) as Hc2.
    destruct (Nat.lt_ge_cases n (polls st2)) as [Hin|Hout].
    + intros Hlt.
      destruct (scanLines_cancelled s (Node.lines content) n 0 st1 Hc1 Hclean Hn
                  ltac:(lia)) as (st' & Hrun & Hp & Hev).
      { rewrite Hcalm. exact Hin. }
      rewrite Hrun. exists st'. split; [reflexivity|]. split; [exact Hp|].
      rewrite Hev, Hcalm. cbn [stateOf].
      destruct (searchLoop_grown (fun _ : nat => false) total rest (i + 1) st2) as (more & -> & _).
      now rewrite uptoPoll_app_lt by lia.
    + rewrite (scanLines_undisturbed s (Node.lines content) 0 st1), Hcalm.
      * apply IH; auto.
      * rewrite Hcalm. cbn [stateOf]. intros k _ Hk. apply Hclean. lia.
Qed.

Lemma searchLoop_undisturbed total sessions : forall i st,
  (forall k, (polls st <= k)%nat ->
             (k < polls (stateOf (searchLoop h fs query maxResults caseSensitive (fun _ : nat => false)
                                    total i sessions st)))%nat ->
             token k = false) ->
  searchLoop h fs query maxResults caseSensitive token total i sessions st
  = searchLoop h fs query maxResults caseSensitive (fun _ : nat => false) total i sessions st.
Proof.
  induction sessions as [|s rest IH]; intros i st; [reflexivity|].
  intros Hk.
  assert (Hf : token (polls st) = false).
  { apply Hk; [lia|].
    revert Hk. cbn [searchLoop]. intros _.
    set (st1 := emit _ (tick st)).
    assert (Hp1 : polls st1 = S (polls st)) by reflexivity.
    destruct (fs_read fs (fsPath s)) as [content|]; [|cbn [stateOf]; lia].
    pose proof (scanLines_grown (fun _ : nat => false) s (Node.lines content) 0 st1) as H2.
    destruct (scanLines h query maxResults caseSensitive (fun _ : nat => false) s (Node.lines content) 0 st1)
      as [st2|st2|st2]; cbn [stateOf] in *.
    - destruct (searchLoop_grown (fun _ : nat => false) total rest (i + 1) st2) as (m3 & _ & P3).
      destruct H2 as (m2 & _ & P2). lia.
    - destruct H2 as (m2 & _ & P2). lia.
    - destruct H2 as (m2 & _ & P2). lia. }
  revert Hk. cbn [searchLoop]. rewrite Hf.
  set (st1 := emit _ (tick st)).
  assert (Hp1 : polls st1 = S (polls st)) by reflexivity.
  destruct (fs_read fs (fsPath s)) as [content|]; [|reflexivity].
  destruct (scanLines_calm s (Node.lines content) 0 st1) as [st2 Hcalm].
  pose proof (scanLines_grown (fun _ : nat => false) s (Node.lines content) 0 st1) as Hg2.
  rewrite Hcalm in Hg2 |- *. cbn [stateOf] in Hg2.
  intros Hk.
  pose proof (searchLoop_grown (fun _ : nat => false) total rest (i + 1) st2) as (m3 & _ & P3).
  destruct Hg2 as (m2 & _ & P2).
  rewrite (scanLines_undisturbed s (Node.lines content) 0 st1), Hcalm.
  - apply IH. intros k Hk1 Hk2. apply Hk; [lia|exact Hk2].
  - rewrite Hcalm. cbn [stateOf]. intros k Hk1 Hk2. apply Hk; lia.
Qed.

Lemma searchLoop_calm_not_null total sessions : forall i st st',
  searchLoop h fs query maxResults caseSensitive (fun _ : nat => false) total i sessions st
  <> ReturnNull st'.
Proof.
  induction sessions as [|s rest IH]; intros i st st'; [discriminate|].
  cbn [searchLoop]. destruct (fs_read fs (fsPath s)) as [content|]; [|discriminate].
  destruct (scanLines_calm s (Node.lines content) 0
              (emit [Report (JS.toString (i + 1) +:+ "/" +:+ JS.toString total);
                     Open (fsPath s)] (tick st))) as [st2 ->].
  apply IH.
Qed.

(** C5: the search returns null at the first poll of the token that
    answers that cancellation is requested, and it returns nothing else
    then: what it did up to that poll is what the search that is never
    cancelled does up to that poll, and no more.  The token is polled at
    the start of every file, before the progress report and before the
    file is opened, and at every line taken from a file; when no poll of
    the run answers yes the search is the search that is never cancelled,
    which does not return null.  With a candidate to scan and the token
    set from the start, the search returns null after one poll, having
    opened no file and reported no progress. *)
Theorem C5_cancellation (sessions : list SessionSummary) :
  outcome (uncancelled h fs query maxResults caseSensitive sessions) <> Null /\
  (forall n,
      clean token n -> token n = true ->
      (n < polled (uncancelled h fs query maxResults caseSensitive sessions))%nat ->
      searchSessions h fs query maxResults caseSensitive token sessions
      = {| outcome := Null; polled := S n;
           trace := uptoPoll n
                      (trace (uncancelled h fs query maxResults caseSensitive sessions)) |}) /\
  (clean token (polled (uncancelled h fs query maxResults caseSensitive sessions)) ->
   searchSessions h fs query maxResults caseSensitive token sessions
   = uncancelled h fs query maxResults caseSensitive sessions) /\
  (readable fs sessions ->
   trace (uncancelled h fs query maxResults caseSensitive sessions)
   = visits h fs query caseSensitive (Z.to_nat maxResults)
       (Z.of_nat (length sessions)) 0 sessions /\
   polled (uncancelled h fs query maxResults caseSensitive sessions)
   = pollCount (trace (uncancelled h fs query maxResults caseSensitive sessions))) /\
  (outcome (searchSessions h fs query maxResults caseSensitive token sessions) = Null <->
   (1 <= polled (searchSessions h fs query maxResults caseSensitive token sessions))%nat /\
   token (polled (searchSessions h fs query maxResults caseSensitive token sessions) - 1)%nat
   = true) /\
  (sessions <> [] -> token 0%nat = true ->
   searchSessions h fs query maxResults caseSensitive token sessions
   = {| outcome := Null; polled := 1; trace := [Poll] |}).
Proof.
  set (start := {| bySession := []; totalHits := 0; polls := 0; events := [] |}).
  assert (Hrun : forall tok,
             searchSessions h fs query maxResults caseSensitive tok sessions
             = match searchLoop h fs query maxResults caseSensitive tok
                       (Z.of_nat (length sessions)) 0 sessions start with
               | Next st => {| outcome := Done (resultOf st); polled := polls st;
                               trace := events st |}
               | ReturnNull st => {| outcome := Null; polled := polls st; trace := events st |}
               | StreamFault st => {| outcome := Fault; polled := polls st; trace := events st |}
               end) by reflexivity.
  assert (Hstate : polled (uncancelled h fs query maxResults caseSensitive sessions)
                   = polls (stateOf (searchLoop h fs query maxResults caseSensitive (fun _ : nat => false)
                                       (Z.of_nat (length sessions)) 0 sessions start)) /\
                   trace (uncancelled h fs query maxResults caseSensitive sessions)
                   = events (stateOf (searchLoop h fs query maxResults caseSensitive (fun _ : nat => false)
                                        (Z.of_nat (length sessions)) 0 sessions start))).
  { unfold uncancelled. rewrite Hrun.
    destruct (searchLoop h fs query maxResults caseSensitive (fun _ : nat => false) _ _ _ _); now split. }
  destruct Hstate as [Hpolled Htrace].
  split; [|split; [|split; [|split; [|split]]]].
  - unfold uncancelled. rewrite Hrun.
    pose proof (searchLoop_calm_not_null (Z.of_nat (length sessions)) sessions 0 start) as Hnn.
    destruct (searchLoop h fs query maxResults caseSensitive (fun _ : nat => false) _ _ _ _) as [st|st|st];
      cbn [outcome]; [discriminate|now destruct (Hnn st)|discriminate].
  - intros n Hclean Hn Hlt. rewrite Hpolled in Hlt. rewrite Htrace.
    destruct (searchLoop_cancelled (Z.of_nat (length sessions)) sessions n 0 start
                eq_refl Hclean Hn ltac:(cbn; lia) Hlt) as (st' & Hloop & Hp & He).
    rewrite Hrun, Hloop, Hp, He. reflexivity.
  - intros Hclean. unfold uncancelled. rewrite !Hrun.
    rewrite searchLoop_undisturbed; [reflexivity|].
    intros k _ Hk. apply Hclean. now rewrite Hpolled.
  - intros Hr.
    destruct (searchSessions_quiet h fs query maxResults caseSensitive (fun _ : nat => false) sessions
                ltac:(intros k; reflexivity) Hr) as (st & _ & Hq & _ & _ & He & Hp).
    unfold uncancelled. rewrite Hq. cbn [trace polled]. split; [exact He|exact Hp].
  - rewrite Hrun.
    pose proof (searchLoop_polls (Z.of_nat (length sessions)) sessions 0 start) as Hg.
    destruct (searchLoop h fs query maxResults caseSensitive token _ _ _ _) as [st|st|st]; cbn [outcome polled].
    + split; [discriminate|]. intros [H1 H2].
      rewrite (Hg ltac:(intros k Hk; cbn in Hk; lia)) in H2 by lia. discriminate.
    + split; [|reflexivity]. intros _.
      destruct (Hg ltac:(intros k Hk; cbn in Hk; lia)) as (H1 & H2 & _). auto.
    + split; [discriminate|]. intros [H1 H2].
      rewrite (Hg ltac:(intros k Hk; cbn in Hk; lia)) in H2 by lia. discriminate.
  - intros Hne Ht. destruct sessions as [|s rest]; [contradiction|].
    rewrite Hrun. unfold start. cbn [searchLoop polls]. rewrite Ht. reflexivity.
Qed.
End Cancellation.

Section SearchScenario.
Import searchService Scenario.

(** The search of the scenario: one hit, of the user, with the index 1. *)
Example search_for_world :
  outcome worldRun
  = Done {| resultTotalHits := 1;
            resultSessions := [{| session := summaryType; hits := [helloHit] |}] |}.
Proof. vm_compute. reflexivity. Qed.

(** C3, as stated: the two logs hold four matching messages and
    [maxResults] is 1.  The hit is recorded at the second line of the first
    file, and the third line is not taken; the search does not stop there:
    it polls the token for the second file, reports its progress, opens it
    and polls the token at its first line, and cancelled at the second
    file it returns null instead of the hit. *)
Lemma C3_later_files_visited_counterexample :
  length (allHits Posix.host fsTwo "h" false [summaryType; summaryB]) = 4%nat /\
  outcome cappedRun
  = Done {| resultTotalHits := 1;
            resultSessions := [{| session := summaryType; hits := [helloHit] |}] |} /\
  trace cappedRun
  = [Poll; Report "1/2"; Open fileA; Poll; Poll;
     Poll; Report "2/2"; Open fileB; Poll] /\
  polled cappedRun = 5%nat /\
  outcome (searchSessions Posix.host fsTwo "h" 1 false (atPoll 3)
             [summaryType; summaryB]) = Null.
Proof. repeat split; vm_compute; reflexivity. Qed.

Lemma C3_cap_on_hits_witness :
  exists r,
    outcome (searchSessions Posix.host fsTwo "h" 1 false never
               [summaryType; summaryB]) = Done r /\
    resultTotalHits r
    = Z.min 1 (Z.of_nat (length (allHits Posix.host fsTwo "h" false
                                   [summaryType; summaryB]))) /\
    (1 < Z.of_nat (length (allHits Posix.host fsTwo "h" false
                             [summaryType; summaryB])) -> resultTotalHits r = 1) /\
    Z.of_nat (hitCount (resultSessions r)) = resultTotalHits r /\
    trace (searchSessions Posix.host fsTwo "h" 1 false never [summaryType; summaryB])
    = visits Posix.host fsTwo "h" false (Z.to_nat 1)
        (Z.of_nat (length [summaryType; summaryB])) 0 [summaryType; summaryB] /\
    polled (searchSessions Posix.host fsTwo "h" 1 false never [summaryType; summaryB])
    = pollCount (trace (searchSessions Posix.host fsTwo "h" 1 false never
                          [summaryType; summaryB])) /\
    opened (trace (searchSessions Posix.host fsTwo "h" 1 false never
                     [summaryType; summaryB]))
    = map fsPath [summaryType; summaryB].
Proof.
  apply (C3_cap_on_hits Posix.host fsTwo "h" 1 false never [summaryType; summaryB]).
  - intros n. reflexivity.
  - repeat constructor; eexists; vm_compute; reflexivity.
  - lia.
Defined.



(** The search for [h] cancelled at its third poll, the one at the line
    that holds the first match, and at its fourth, the one at the start of
    the second file: in either case null is returned, not the hit. *)
Lemma C5_cancellation_witness :
  searchSessions Posix.host fsTwo "h" 1 false (atPoll 2) [summaryType; summaryB]
  = {| outcome := Null; polled := 3;
       trace := uptoPoll 2 (trace (uncancelled Posix.host fsTwo "h" 1 false
                                     [summaryType; summaryB])) |} /\
  searchSessions Posix.host fsTwo "h" 1 false (atPoll 3) [summaryType; summaryB]
  = {| outcome := Null; polled := 4;
       trace := [Poll; Report "1/2"; Open fileA; Poll; Poll; Poll] |}.
Proof.
  destruct (C5_cancellation Posix.host fsTwo "h" 1 false (atPoll 2)
              [summaryType; summaryB]) as (_ & Hline & _).
  destruct (C5_cancellation Posix.host fsTwo "h" 1 false (atPoll 3)
              [summaryType; summaryB]) as (_ & Hfile & _).
  split.
  - apply Hline; [intros [|[|k]] Hk; (reflexivity || lia)|reflexivity|].
    vm_compute. repeat constructor.
  - rewrite (Hfile 3%nat); [vm_compute; reflexivity| |reflexivity|].
    + intros [|[|[|k]]] Hk; (reflexivity || lia).
    + vm_compute. repeat constructor.
Defined.

End SearchScenario.

(** * Text helpers *)

Section TextFacts.

Lemma chars_str l : JS.chars (JS.str l) = l.
Proof. apply String.list_ascii_of_string_of_list_ascii. Qed.

Lemma len_chars s : String.length s = length (JS.chars s).
Proof. induction s as [|c s IH]; [reflexivity|]. cbn. now rewrite IH. Qed.

Lemma chars_substring a n s :
  JS.chars (String.substring a n s) = firstn n (skipn a (JS.chars s)).
Proof.
  revert a n. induction s as [|c s IH]; intros a n.
  - destruct a, n; reflexivity.
  - destruct a as [|a].
    + destruct n as [|n]; [reflexivity|]. cbn. f_equal. apply (IH 0%nat n).
    + cbn. apply IH.
Qed.

Lemma chars_inj a b : JS.chars a = JS.chars b -> a = b.
Proof. intros H. rewrite <- (str_chars a), <- (str_chars b). now rewrite H. Qed.

Lemma Forall_dropWhile {A} (P : A -> Prop) p l :
  Forall P l -> Forall P (JS.dropWhile p l).
Proof.
  induction 1 as [|x l Hx Hl IH]; cbn; [constructor|].
  destruct (p x); [exact IH|now constructor].
Qed.

Lemma Forall_takeWhile {A} (P : A -> Prop) p l :
  Forall P l -> Forall P (JS.takeWhile p l).
Proof.
  induction 1 as [|x l Hx Hl IH]; cbn; [constructor|].
  destruct (p x); now constructor.
Qed.

Lemma Forall_trimL (P : ascii -> Prop) l : Forall P l -> Forall P (JS.trimL l).
Proof.
  intros H. unfold JS.trimL, JS.trimEndL, JS.trimStartL.
  apply List.Forall_rev, Forall_dropWhile, List.Forall_rev, Forall_dropWhile, H.
Qed.

Lemma collapseSpace_plain b l :
  Forall (fun c => JS.isSpace c = true -> c = JS.SP) (JS.collapseSpace b l).
Proof.
  revert b. induction l as [|c l IH]; intros b; cbn; [constructor|].
  destruct (JS.isSpace c) eqn:Hc.
  - destruct b; [apply IH|]. constructor; [reflexivity|apply IH].
  - constructor; [congruence|apply IH].
Qed.

Lemma ellipsis_plain :
  Forall (fun c => JS.isSpace c = true -> c = JS.SP) (JS.chars textUtils.ELLIPSIS).
Proof. repeat constructor; intros H; discriminate H. Qed.

Lemma len_slice_prefix s n :
  0 <= n <= JS.len s -> JS.len (JS.slice s 0 n) = n.
Proof.
  intros Hn. unfold JS.slice, JS.len in *. rewrite len_chars, chars_substring.
  rewrite Z.sub_0_r. change (Z.to_nat 0) with 0%nat. rewrite skipn_O, length_firstn.
  rewrite len_chars in Hn. lia.
Qed.

End TextFacts.

Lemma ellipsis_one_unit : JS.len textUtils.ELLIPSIS = 1.
Proof. reflexivity. Qed.

(** X1: [singleLineSnippet]: the snippet is one line, every white space in
    it a plain space, and for a limit of at least one it has at most
    [maxLen] characters.  A text that fits on its one line is returned as
    that line; of a longer one the snippet is the first [maxLen - 1]
    characters of the line, none for a limit below one, followed by the
    ellipsis. *)
Theorem singleLineSnippet_one_line (s : string) (maxLen : Z) :
  plainSpaces (textUtils.singleLineSnippet s maxLen) /\
  (1 <= maxLen -> JS.len (textUtils.singleLineSnippet s maxLen) <= maxLen) /\
  (JS.len (onOneLine s) <= maxLen -> textUtils.singleLineSnippet s maxLen = onOneLine s) /\
  (maxLen < JS.len (onOneLine s) ->
   exists p rest,
     onOneLine s = p +:+ rest /\
     textUtils.singleLineSnippet s maxLen = p +:+ textUtils.ELLIPSIS /\
     JS.len p = Z.max 0 (maxLen - 1)).
Proof.
  unfold textUtils.singleLineSnippet, plainSpaces. fold (onOneLine s).
  set (oneLine := onOneLine s).
  assert (Hone : Forall (fun c => JS.isSpace c = true -> c = JS.SP) (JS.chars oneLine)).
  { unfold oneLine, onOneLine, JS.trim. rewrite !chars_str.
    apply Forall_trimL, collapseSpace_plain. }
  assert (Hcut : maxLen < JS.len oneLine ->
                 JS.len (JS.slice oneLine 0 (Z.max 0 (maxLen - 1))) = Z.max 0 (maxLen - 1)).
  { intros Hgt. apply len_slice_prefix. unfold JS.len in *. lia. }
  destruct (Z.leb_spec (JS.len oneLine) maxLen) as [Hle|Hgt].
  - split; [exact Hone|]. split; [intros _; exact Hle|]. split; [reflexivity|]. lia.
  - split; [|split; [|split; [lia|]]].
    + rewrite chars_append. apply Forall_app. split; [|apply ellipsis_plain].
      unfold JS.slice. rewrite chars_substring. apply Forall_take, Forall_drop, Hone.
    + intros H1. unfold JS.len in *. rewrite append_length, Nat2Z.inj_add.
      change (Z.of_nat (String.length textUtils.ELLIPSIS)) with 1. rewrite (Hcut Hgt). lia.
    + intros _. exists (JS.slice oneLine 0 (Z.max 0 (maxLen - 1))),
        (JS.slice oneLine (Z.max 0 (maxLen - 1)) (JS.len oneLine)).
      split; [|split; [reflexivity|exact (Hcut Hgt)]].
      apply chars_inj. rewrite chars_append. unfold JS.slice.
      rewrite !chars_substring. rewrite Z.sub_0_r. change (Z.to_nat 0) with 0%nat.
      rewrite skipn_O.
      replace (Z.to_nat (JS.len oneLine - Z.max 0 (maxLen - 1)))
        with (length (skipn (Z.to_nat (Z.max 0 (maxLen - 1))) (JS.chars oneLine))).
      * now rewrite firstn_all, firstn_skipn.
      * rewrite length_skipn. unfold JS.len. rewrite len_chars. lia.
Qed.

Section SliceFacts.
Context {A : Type}.

Lemma firstn_plus (a b : nat) (l : list A) :
  firstn (a + b) l = firstn a l ++ firstn b (skipn a l).
Proof.
  revert l. induction a as [|a IH]; intros l; [reflexivity|].
  destruct l as [|x l]; cbn; [now rewrite firstn_nil|]. f_equal. apply IH.
Qed.

Lemma window_split (l : list A) (i j e : nat) :
  (i <= j <= e)%nat ->
  firstn (e - i) (skipn i l) = firstn (j - i) (skipn i l) ++ firstn (e - j) (skipn j l).
Proof.
  intros H. replace (e - i)%nat with ((j - i) + (e - j))%nat by lia.
  rewrite firstn_plus, skipn_skipn. do 3 f_equal. lia.
Qed.

Lemma prefix_window (l : list A) (i : nat) : l = firstn i l ++ skipn i l.
Proof. symmetry. apply firstn_skipn. Qed.

End SliceFacts.

Lemma chars_slice s a b :
  0 <= a -> JS.chars (JS.slice s a b) =
            firstn (Z.to_nat b - Z.to_nat a) (skipn (Z.to_nat a) (JS.chars s)).
Proof.
  intros Ha. unfold JS.slice. rewrite chars_substring. do 2 f_equal. lia.
Qed.

Lemma truthy_chars s : JS.truthy s = negb (Nat.eqb (length (JS.chars s)) 0).
Proof. destruct s; reflexivity. Qed.

(** X2: [safeDisplayPath]: a path that fits is shown as it is; of a longer one
    the tail is shown after the ellipsis, ten characters or three quarters
    of [maxLen], whichever is more. *)
Theorem safeDisplayPath_tail (p : string) (maxLen : Z) :
  (JS.len p <= maxLen -> textUtils.safeDisplayPath p maxLen = p) /\
  (maxLen < JS.len p ->
   exists dropped kept,
     p = dropped +:+ kept /\
     textUtils.safeDisplayPath p maxLen = textUtils.ELLIPSIS +:+ kept /\
     JS.len kept = Z.min (JS.len p) (Z.max 10 (3 * maxLen / 4))).
Proof.
  unfold textUtils.safeDisplayPath. split; intros H.
  - destruct (Z.leb_spec (JS.len p) maxLen); [reflexivity|lia].
  - destruct (Z.leb_spec (JS.len p) maxLen); [lia|].
    set (tailLen := Z.max 10 (3 * maxLen / 4)).
    set (k := Z.to_nat (Z.max 0 (JS.len p - tailLen))).
    exists (JS.str (firstn k (JS.chars p))), (JS.sliceTail p tailLen).
    assert (Hk : JS.chars (JS.sliceTail p tailLen) = skipn k (JS.chars p)).
    { unfold JS.sliceTail. rewrite chars_substring. fold k.
      apply firstn_all2. rewrite length_skipn, len_chars. lia. }
    split; [|split; [reflexivity|]].
    + apply chars_inj. rewrite chars_append, chars_str, Hk. apply prefix_window.
    + unfold JS.len at 1. rewrite len_chars, Hk, length_skipn.
      unfold k, JS.len. rewrite len_chars. lia.
Qed.

(** X3: [buildAround]: the window holds the match, at most forty characters
    before it and at most eighty after it, and an ellipsis on each side
    where text is left out. *)
Theorem buildAround_covers (text : string) (hitAt needleLen : Z) :
  0 <= hitAt -> 0 <= needleLen -> hitAt + needleLen <= JS.len text ->
  exists a pre post b,
    text = a +:+ pre +:+ JS.slice text hitAt (hitAt + needleLen) +:+ post +:+ b /\
    JS.len a = Z.max 0 (hitAt - 40) /\
    JS.len pre = Z.min 40 hitAt /\
    JS.len post = Z.min 80 (JS.len text - (hitAt + needleLen)) /\
    searchService.buildAround text hitAt needleLen =
      (if JS.truthy a then textUtils.ELLIPSIS else EmptyString) +:+ pre +:+
      JS.slice text hitAt (hitAt + needleLen) +:+ post +:+
      (if JS.truthy b then textUtils.ELLIPSIS else EmptyString).
Proof.
  intros Hh Hn Hfit. unfold searchService.buildAround.
  set (L := JS.chars text).
  assert (HL : JS.len text = Z.of_nat (length L)) by (unfold JS.len; now rewrite len_chars).
  set (start := Z.max 0 (hitAt - 40)).
  set (end_ := Z.min (JS.len text) (hitAt + needleLen + 80)).
  set (i := Z.to_nat start). set (j := Z.to_nat hitAt).
  set (k := Z.to_nat (hitAt + needleLen)). set (e := Z.to_nat end_).
  assert (Hord : (i <= j <= k)%nat /\ (k <= e <= length L)%nat) by (unfold i, j, k, e, start, end_; lia).
  exists (JS.str (firstn i L)), (JS.str (firstn (j - i) (skipn i L))),
         (JS.str (firstn (e - k) (skipn k L))), (JS.str (skipn e L)).
  assert (Hm : JS.chars (JS.slice text hitAt (hitAt + needleLen)) = firstn (k - j) (skipn j L)).
  { rewrite chars_slice by lia. reflexivity. }
  assert (Hw : JS.chars (JS.slice text start end_) =
               firstn (j - i) (skipn i L) ++ firstn (k - j) (skipn j L)
               ++ firstn (e - k) (skipn k L)).
  { rewrite chars_slice by (unfold start; lia). fold i e L.
    rewrite (window_split L i j e) by lia. f_equal. apply window_split. lia. }
  split; [|split; [|split; [|split]]].
  - apply chars_inj. rewrite !chars_append, !chars_str, Hm. fold L.
    rewrite (prefix_window L i) at 1. f_equal.
    rewrite (prefix_window (skipn i L) (e - i)) at 1.
    rewrite skipn_skipn. replace (e - i + i)%nat with e by lia.
    rewrite (window_split L i j e) by lia. rewrite (window_split L j k e) by lia.
    now rewrite <- !app_assoc.
  - unfold JS.len. rewrite len_chars, chars_str, length_firstn.
    unfold i, j, k, e, start, end_ in *. lia.
  - unfold JS.len. rewrite len_chars, chars_str, length_firstn, length_skipn.
    unfold i, j, k, e, start, end_ in *. lia.
  - unfold JS.len at 1. rewrite len_chars, chars_str, length_firstn, length_skipn.
    rewrite HL. unfold i, j, k, e, start, end_ in *. rewrite HL in *. lia.
  - apply chars_inj. rewrite !chars_append, Hw, Hm, !chars_str, <- !app_assoc.
    f_equal; [|do 3 f_equal].
    + rewrite truthy_chars, chars_str, length_firstn.
      destruct (Z.ltb_spec 0 start) as [H0|H0];
        destruct (Nat.eqb_spec (Nat.min i (length L)) 0) as [H1|H1];
        try reflexivity; exfalso; unfold i, j, k, e, start, end_ in *; lia.
    + rewrite truthy_chars, chars_str, length_skipn.
      destruct (Z.ltb_spec end_ (JS.len text)) as [H0|H0];
        destruct (Nat.eqb_spec (length L - e) 0) as [H1|H1];
        try reflexivity; exfalso; unfold i, j, k, e, start, end_ in *; rewrite HL in *; lia.
Qed.

Section TruncateFacts.

Lemma widthOf_pos cp : 1 <= textUtils.widthOf cp.
Proof. unfold textUtils.widthOf. destruct (textUtils.isWideCodePoint cp); lia. Qed.

Lemma displayWidth_nonneg l : 0 <= displayWidth l.
Proof.
  induction l as [|cp l IH]; [cbn; lia|].
  change (displayWidth (cp :: l)) with (textUtils.widthOf cp + displayWidth l).
  pose proof (widthOf_pos cp). lia.
Qed.

Lemma displayWidth_app a b : displayWidth (a ++ b) = displayWidth a + displayWidth b.
Proof.
  induction a as [|cp a IH]; [reflexivity|].
  change (displayWidth ((cp :: a) ++ b)) with (textUtils.widthOf cp + displayWidth (a ++ b)).
  change (displayWidth (cp :: a)) with (textUtils.widthOf cp + displayWidth a).
  rewrite IH. lia.
Qed.

Lemma truncateLoop_spec max suffix rest kept :
  displayWidth kept <= max ->
  (displayWidth kept + displayWidth rest <= max ->
   textUtils.truncateLoop max (displayWidth kept) kept rest suffix = kept ++ rest) /\
  (max < displayWidth kept + displayWidth rest ->
   exists more cp left,
     rest = more ++ cp :: left /\
     textUtils.truncateLoop max (displayWidth kept) kept rest suffix
     = (kept ++ more) ++ suffix /\
     displayWidth (kept ++ more) <= max < displayWidth (kept ++ more) + textUtils.widthOf cp).
Proof.
  revert kept. induction rest as [|cp rest IH]; intros kept Hk;
    cbn [textUtils.truncateLoop].
  - split; intros H.
    + now rewrite app_nil_r.
    + change (displayWidth []) with 0 in H. lia.
  - change (displayWidth (cp :: rest)) with (textUtils.widthOf cp + displayWidth rest).
    pose proof (displayWidth_nonneg rest) as Hr.
    specialize (IH (kept ++ [cp])).
    rewrite displayWidth_app in IH.
    change (displayWidth [cp]) with (textUtils.widthOf cp + 0) in IH.
    rewrite Z.add_0_r in IH.
    destruct (Z.ltb_spec max (displayWidth kept + textUtils.widthOf cp)) as [Hc|Hc].
    + clear IH. split; intros H; [lia|].
      exists [], cp, rest. rewrite app_nil_r. split; [reflexivity|]. split; [reflexivity|].
      lia.
    + destruct (IH Hc) as [IH1 IH2]. split; intros H.
      * rewrite IH1 by lia. now rewrite <- app_assoc.
      * destruct IH2 as (more & cp' & left & -> & Heq & Hw); [lia|].
        exists (cp :: more), cp', left. split; [reflexivity|].
        replace (kept ++ cp :: more) with ((kept ++ [cp]) ++ more)
          by now rewrite <- app_assoc.
        split; [exact Heq|exact Hw].
Qed.

End TruncateFacts.

(** X4: [truncateByDisplayWidth]: nothing is shown for a width that is not
    positive; a text that fits is shown as it is; of a longer one the
    longest start that fits is shown, followed by the suffix. *)
Theorem truncateByDisplayWidth_spec (text : list Z) (max : Z) (suffix : list Z) :
  (max <= 0 -> textUtils.truncateByDisplayWidth text max suffix = []) /\
  (0 < max -> displayWidth text <= max ->
   textUtils.truncateByDisplayWidth text max suffix = text) /\
  (0 < max -> max < displayWidth text ->
   exists kept cp left,
     text = kept ++ cp :: left /\
     textUtils.truncateByDisplayWidth text max suffix = kept ++ suffix /\
     displayWidth kept <= max < displayWidth kept + textUtils.widthOf cp).
Proof.
  unfold textUtils.truncateByDisplayWidth.
  split; [|split].
  - intros H. destruct (Z.leb_spec max 0); [reflexivity|lia].
  - intros H Hfit. destruct (Z.leb_spec max 0); [lia|].
    destruct (truncateLoop_spec max suffix text []) as [H1 _]; [cbn; lia|].
    apply H1. cbn. lia.
  - intros H Hlong. destruct (Z.leb_spec max 0); [lia|].
    destruct (truncateLoop_spec max suffix text []) as [_ H2]; [cbn; lia|].
    destruct H2 as (more & cp & left & Ht & Heq & Hw); [cbn; lia|].
    exists more, cp, left. auto.
Qed.

Section EscapeFacts.

Lemma replaceChar_app c repl a b :
  JS.replaceChar c repl (a ++ b) = JS.replaceChar c repl a ++ JS.replaceChar c repl b.
Proof. apply flat_map_app. Qed.

Lemma escape_one (c : ascii) :
  JS.replaceChar "_" (String (ascii_of_nat 92) (String "_" EmptyString))
    (JS.replaceChar "*" (String (ascii_of_nat 92) (String "*" EmptyString))
      (JS.replaceChar "`" (String (ascii_of_nat 92) (String "`" EmptyString))
        (JS.replaceChar (ascii_of_nat 92)
           (String (ascii_of_nat 92) (String (ascii_of_nat 92) EmptyString)) [c])))
  = escapedChar c.
Proof. destruct c as [[] [] [] [] [] [] [] []]; reflexivity. Qed.

Lemma escape_chars (l : list ascii) :
  JS.replaceChar "_" (String (ascii_of_nat 92) (String "_" EmptyString))
    (JS.replaceChar "*" (String (ascii_of_nat 92) (String "*" EmptyString))
      (JS.replaceChar "`" (String (ascii_of_nat 92) (String "`" EmptyString))
        (JS.replaceChar (ascii_of_nat 92)
           (String (ascii_of_nat 92) (String (ascii_of_nat 92) EmptyString)) l)))
  = flat_map escapedChar l.
Proof.
  induction l as [|c l IH]; [reflexivity|].
  change (c :: l) with ([c] ++ l). rewrite !replaceChar_app, IH, escape_one.
  reflexivity.
Qed.

Lemma escapedChar_cases c :
  (escapedChar c = [c] /\ c <> ascii_of_nat 92) \/ escapedChar c = [ascii_of_nat 92; c].
Proof.
  unfold escapedChar.
  destruct (Ascii.eqb_spec c (ascii_of_nat 92)) as [->|Hn]; [now right|].
  cbn [orb]. destruct (_ || _); [now right|now left].
Qed.

Lemma flat_map_escapedChar_inj a b :
  flat_map escapedChar a = flat_map escapedChar b -> a = b.
Proof.
  revert b. induction a as [|c a IH]; intros [|d b] H; cbn [flat_map] in H.
  - reflexivity.
  - destruct (escapedChar_cases d) as [[Hd _]|Hd]; rewrite Hd in H; discriminate H.
  - destruct (escapedChar_cases c) as [[Hc _]|Hc]; rewrite Hc in H; discriminate H.
  - destruct (escapedChar_cases c) as [[Hc Hc']|Hc], (escapedChar_cases d) as [[Hd Hd']|Hd];
      rewrite Hc, Hd in H; cbn [app] in H.
    + injection H as -> H. f_equal. now apply IH.
    + injection H as -> H. congruence.
    + injection H as <- H. congruence.
    + injection H as -> H. f_equal. now apply IH.
Qed.

End EscapeFacts.

(** X5: [escapeForMarkdown]: each backslash, grave accent, asterisk and
    underscore of the text gets one backslash before it and nothing else
    changes, so that two texts with one escape are the same text. *)
Theorem escapeForMarkdown_each (s : string) :
  JS.chars (historyTree.escapeForMarkdown s) = flat_map escapedChar (JS.chars s) /\
  forall t, historyTree.escapeForMarkdown s = historyTree.escapeForMarkdown t -> s = t.
Proof.
  assert (H : forall x, JS.chars (historyTree.escapeForMarkdown x)
                        = flat_map escapedChar (JS.chars x)).
  { intros x. unfold historyTree.escapeForMarkdown. rewrite chars_str. apply escape_chars. }
  split; [apply H|].
  intros t Heq. apply chars_inj, flat_map_escapedChar_inj. now rewrite <- !H, Heq.
Qed.

Section TrimFacts.

Lemma dropWhile_idem {A} (p : A -> bool) l :
  JS.dropWhile p (JS.dropWhile p l) = JS.dropWhile p l.
Proof.
  induction l as [|x l IH]; [reflexivity|]. cbn. destruct (p x) eqn:Hx; [exact IH|].
  cbn. now rewrite Hx.
Qed.

Lemma dropWhile_last_stop {A} (p : A -> bool) l x :
  p x = false -> exists m, JS.dropWhile p (l ++ [x]) = m ++ [x].
Proof.
  intros Hx. induction l as [|y l IH]; cbn.
  - rewrite Hx. now exists [].
  - destruct (p y); [exact IH|]. now exists (y :: l).
Qed.

Lemma trimEndL_head c l :
  JS.isSpace c = false -> exists m, JS.trimEndL (c :: l) = c :: m.
Proof.
  intros Hc. unfold JS.trimEndL. cbn [rev].
  destruct (dropWhile_last_stop JS.isSpace (rev l) c Hc) as (m & ->).
  rewrite rev_app_distr. cbn. now eexists.
Qed.

Lemma trimL_idem l : JS.trimL (JS.trimL l) = JS.trimL l.
Proof.
  change (JS.trimL l) with (JS.trimEndL (JS.dropWhile JS.isSpace l)).
  destruct (JS.dropWhile JS.isSpace l) as [|c m] eqn:Hd; [reflexivity|].
  assert (Hc : JS.isSpace c = false).
  { clear -Hd. induction l as [|x l IH]; [discriminate|]. cbn in Hd.
    destruct (JS.isSpace x) eqn:Hx; [auto|]. now injection Hd as <- _. }
  destruct (trimEndL_head c m Hc) as (m' & Hm). rewrite Hm.
  unfold JS.trimL, JS.trimStartL. cbn [JS.dropWhile]. rewrite Hc. rewrite <- Hm.
  unfold JS.trimEndL. rewrite rev_involutive, dropWhile_idem. reflexivity.
Qed.

Lemma trim_idem s : JS.trim (JS.trim s) = JS.trim s.
Proof. unfold JS.trim. now rewrite chars_str, trimL_idem. Qed.

Lemma bodyOf_trimmed lines r :
  textUtils.bodyOf lines = Some r -> JS.truthy r = true /\ JS.trim r = r.
Proof.
  unfold textUtils.bodyOf. destruct (JS.truthy _) eqn:Ht; [|discriminate].
  intros [= <-]. split; [exact Ht|apply trim_idem].
Qed.

Lemma taskSection_trimmed lines b r :
  textUtils.taskSection b lines = Some (Some r) -> JS.truthy r = true /\ JS.trim r = r.
Proof.
  revert b. induction lines as [|l lines IH]; intros b; cbn; [discriminate|].
  destruct (textUtils.isFenceLine l); [apply IH|].
  destruct b; [apply IH|].
  destruct (textUtils.taskHeading l); [|apply IH].
  intros [= H]. now apply bodyOf_trimmed in H.
Qed.

End TrimFacts.

(** X6: The request texts: whatever [extractTaskSectionText],
    [extractMyRequestForCodex] and [extractUserRequestText] return is not
    empty and has no white space at either end. *)
Theorem extracted_text_is_trimmed (text r : string) :
  textUtils.extractTaskSectionText text = Some r \/
  textUtils.extractMyRequestForCodex text = Some r \/
  textUtils.extractUserRequestText text = Some r ->
  JS.truthy r = true /\ JS.trim r = r.
Proof.
  assert (Hm : forall t, textUtils.extractMyRequestForCodex t = Some r ->
                         JS.truthy r = true /\ JS.trim r = r).
  { intros t. unfold textUtils.extractMyRequestForCodex.
    destruct (textUtils.afterMarker _); [apply bodyOf_trimmed|discriminate]. }
  intros [H|[H|H]].
  - unfold textUtils.extractTaskSectionText in H.
    destruct (textUtils.taskSection _ _) as [[r'|]|] eqn:Ht.
    + injection H as ->. eapply taskSection_trimmed, Ht.
    + discriminate H.
    + destruct (textUtils.inlineTask _ _); [|discriminate H].
      destruct (JS.truthy (JS.trim _)) eqn:Hb; [|discriminate H].
      injection H as <-. split; [exact Hb|apply trim_idem].
  - eapply Hm, H.
  - unfold textUtils.extractUserRequestText in H.
    destruct (negb _); [discriminate H|].
    destruct (textUtils.extractMyRequestForCodex _) eqn:Hq.
    + injection H as ->. eapply Hm, Hq.
    + unfold textUtils.extractUserContentFromHeading in H.
      destruct (JS.dropWhile _ _); [discriminate H|].
      destruct (textUtils.userHeadingTest _); [|discriminate H].
      eapply bodyOf_trimmed, H.
Qed.

Section PreviewFacts.
Context (h : Host).
Import sessionSummary.

Lemma previewOfLine_shape line m :
  previewOfLine h line = Some m ->
  JS.truthy (text m) = true /\
  (JS.len (text m) <= 1200 \/
   exists q, text m = q +:+ textUtils.ELLIPSIS /\ JS.len q = 1199).
Proof.
  unfold previewOfLine. destruct (negb (JS.truthy line)); [discriminate|].
  destruct (JSON_parse h line) as [o|]; [|discriminate].
  destruct (negb (isStr "response_item" _)); [discriminate|].
  destruct (negb (isStr "message" _)); [discriminate|].
  destruct (chatRoleOf _) as [r|]; [|discriminate].
  set (t := match r with user => _ | assistant => _ end).
  destruct (negb (JS.truthy t)) eqn:Ht; [discriminate|].
  destruct (_ && _); [discriminate|]. intros [= <-]. cbn [text].
  apply negb_false_iff in Ht.
  destruct (Z.ltb_spec 1200 (JS.len t)) as [Hlong|Hshort].
  - split.
    + destruct (JS.slice t 0 1199); reflexivity.
    + right. eexists. split; [reflexivity|]. apply len_slice_prefix. lia.
  - split; [exact Ht|now left].
Qed.

Lemma previewLoop_bounded P n lines acc :
  (forall line m, previewOfLine h line = Some m -> P m) ->
  Forall P acc ->
  Z.of_nat (length (previewLoop h n lines acc)) <= Z.max (Z.of_nat (length acc)) n /\
  Forall P (previewLoop h n lines acc).
Proof.
  intros HP. revert acc. induction lines as [|line lines IH]; intros acc Hacc;
    cbn [previewLoop].
  - split; [lia|exact Hacc].
  - destruct (Z.geb_spec (Z.of_nat (length acc)) n) as [Hfull|Hroom].
    + split; [lia|exact Hacc].
    + destruct (previewOfLine h line) as [m|] eqn:Hm.
      * destruct (IH (acc ++ [m])) as [Hlen Hall].
        { apply Forall_app. split; [exact Hacc|]. constructor; [|constructor]. eauto. }
        split; [|exact Hall]. rewrite length_app in Hlen. cbn in Hlen. lia.
      * apply IH, Hacc.
Qed.

End PreviewFacts.

(** X7: The preview of a summary: it holds at most [previewMaxMessages]
    messages; none has an empty text, and a text has at most 1200
    characters or is the first 1199 characters of the message followed by
    the ellipsis. *)
Theorem previews_bounded (h : Host) (fs : FileSys) (root p : string) (n : Z)
        (s : SessionSummary) :
  sessionSummary.buildSessionSummary h fs root p n = Ok (Some s) ->
  Z.of_nat (length (previewMessages s)) <= Z.max 0 n /\
  Forall (fun m => JS.truthy (text m) = true /\
                   (JS.len (text m) <= 1200 \/
                    exists q, text m = q +:+ textUtils.ELLIPSIS /\ JS.len q = 1199))
         (previewMessages s).
Proof.
  intros Hb. destruct (build_Some_inv h fs root p n s Hb) as (st & content & Hs & Hr).
  destruct (build_readable h fs root p n st content Hs Hr)
    as (s' & Hb' & _ & _ & _ & Hp & _).
  rewrite Hb in Hb'. injection Hb' as <-. rewrite Hp.
  apply (previewLoop_bounded h _ n (Node.lines content) []); [|constructor].
  apply previewOfLine_shape.
Qed.

(** * Date and time settings *)

Lemma getDateTimeSettingsKey_inj (a b : DateTimeSettings) :
  dateTimeSettings.getDateTimeSettingsKey a = dateTimeSettings.getDateTimeSettingsKey b ->
  a = b.
Proof.
  destruct a as [la ta], b as [lb tb]. unfold dateTimeSettings.getDateTimeSettingsKey.
  cbn [uiLanguage timeZone].
  destruct la, lb; cbn; intros H; try discriminate H; f_equal; injection H; auto.
Qed.

(** X8: The settings key tells the settings apart, so a cache file written
    under other settings of language or time zone gives no entry to
    reuse. *)
Theorem cache_of_other_settings_is_dropped (config : Config)
        (settings cached : DateTimeSettings) (c : CacheFileV4) (force : bool) :
  cacheDateTimeSettingsKey c = dateTimeSettings.getDateTimeSettingsKey cached ->
  cached <> settings ->
  historyService.cachedEntriesOf config (dateTimeSettings.getDateTimeSettingsKey settings)
    (Some c) force = ∅.
Proof.
  intros Hc Hne. unfold historyService.cachedEntriesOf. destruct force; [reflexivity|].
  unfold historyService.headerMatches. rewrite Hc.
  destruct (String.eqb_spec (dateTimeSettings.getDateTimeSettingsKey cached)
                            (dateTimeSettings.getDateTimeSettingsKey settings)) as [He|He].
  - now apply getDateTimeSettingsKey_inj in He.
  - now rewrite andb_false_r.
Qed.

(** * The pin store *)

Section PinFacts.
Context (h : Host).
Import pinStore.

Lemma NoDup_List_filter {A} (f : A -> bool) (l : list A) :
  NoDup l -> NoDup (List.filter f l).
Proof.
  induction 1 as [|x l Hx Hl IH]; cbn [List.filter]; [constructor|].
  destruct (f x); [|exact IH]. constructor; [|exact IH].
  rewrite list_elem_of_In, filter_In. rewrite list_elem_of_In in Hx. tauto.
Qed.

Lemma has_In k set : JS.has k set = true <-> In k set.
Proof.
  unfold JS.has. rewrite existsb_exists. split.
  - intros (x & Hx & He). apply String.eqb_eq in He. now subst.
  - intros H. exists k. split; [exact H|apply String.eqb_refl].
Qed.

Lemma has_false k set : JS.has k set = false <-> ~ In k set.
Proof. rewrite <- has_In. now destruct (JS.has k set). Qed.

Lemma setOf_In k keys : In k (JS.setOf keys) <-> In k keys.
Proof.
  unfold JS.setOf.
  assert (H : forall acc, In k (fold_left (fun set x => JS.add x set) keys acc)
                          <-> In k keys \/ In k acc).
  { induction keys as [|x keys IH]; intros acc; cbn [fold_left].
    - cbn. tauto.
    - rewrite IH. unfold JS.add. destruct (JS.has x acc) eqn:Hx.
      + apply has_In in Hx. cbn. split; [tauto|]. intros [[<-|?]|?]; tauto.
      + rewrite in_app_iff. cbn. tauto. }
  rewrite H. cbn. tauto.
Qed.

Lemma has_setOf k keys : JS.has k (JS.setOf keys) = JS.has k keys.
Proof.
  destruct (JS.has k keys) eqn:Hk.
  - apply has_In, setOf_In, has_In, Hk.
  - apply has_false. rewrite setOf_In. now apply has_false.
Qed.

Lemma normalizeFrom_spec l seen out :
  (forall k, In k seen <-> In k (map snd out)) ->
  exists more,
    normalizeFrom h l seen out = out ++ more /\
    (forall p k, In (p, k) more ->
       k = fsUtils.normalizeCacheKey h p /\
       exists raw, In raw l /\ p = JS.trim raw /\ JS.truthy p = true) /\
    (forall raw, In raw l -> JS.truthy (JS.trim raw) = true ->
       In (fsUtils.normalizeCacheKey h (JS.trim raw)) (map snd (out ++ more))) /\
    (NoDup (map snd out) -> NoDup (map snd (out ++ more))).
Proof.
  revert seen out. induction l as [|raw l IH]; intros seen out Hinv; cbn [normalizeFrom].
  - exists []. rewrite app_nil_r. repeat split; auto; intros; contradiction.
  - destruct (JS.truthy (JS.trim raw)) eqn:Ht; cbn [negb].
    + destruct (JS.has _ seen) eqn:Hs.
      * destruct (IH seen out Hinv) as (more & Heq & Hk & Hc & Hd).
        exists more. split; [exact Heq|]. split; [|split; [|exact Hd]].
        -- intros p k Hp. destruct (Hk p k Hp) as (? & raw' & ? & ? & ?).
           split; [assumption|]. exists raw'. cbn. auto.
        -- intros raw' [<-|Hin] Hr; [|now apply Hc].
           rewrite map_app, in_app_iff. left. apply Hinv, has_In, Hs.
      * set (key := fsUtils.normalizeCacheKey h (JS.trim raw)) in *.
        apply has_false in Hs.
        destruct (IH (JS.add key seen) (out ++ [(JS.trim raw, key)]))
          as (more & Heq & Hk & Hc & Hd).
        { intros k. unfold JS.add. destruct (JS.has key seen) eqn:Hh.
          - apply has_In in Hh. contradiction.
          - rewrite map_app, !in_app_iff, Hinv. reflexivity. }
        exists ((JS.trim raw, key) :: more).
        rewrite <- app_assoc in Heq, Hc, Hd. cbn [app] in Heq, Hc, Hd.
        split; [exact Heq|]. split; [|split].
        -- intros p k [[= <- <-]|Hp].
           ++ split; [reflexivity|]. exists raw. cbn. auto.
           ++ destruct (Hk p k Hp) as (? & raw' & ? & ? & ?).
              split; [assumption|]. exists raw'. cbn. auto.
        -- intros raw' [<-|Hin] Hr; [|now apply Hc].
           rewrite map_app, in_app_iff. right. now left.
        -- intros Hnd. apply Hd. rewrite map_app. apply NoDup_app. split; [exact Hnd|].
           split; [|apply NoDup_singleton].
           intros k Hk1 Hk2. apply list_elem_of_In in Hk1, Hk2. cbn in Hk2.
           destruct Hk2 as [<-|[]]. apply Hs, Hinv, Hk1.
    + destruct (IH seen out Hinv) as (more & Heq & Hk & Hc & Hd).
      exists more. split; [exact Heq|]. split; [|split; [|exact Hd]].
      * intros p k Hp. destruct (Hk p k Hp) as (? & raw' & ? & ? & ?).
        split; [assumption|]. exists raw'. cbn. auto.
      * intros raw' [<-|Hin] Hr; [congruence|now apply Hc].
Qed.

(** The keys of a normalized batch. *)
Lemma normalizeFsPaths_spec paths :
  (forall p k, In (p, k) (normalizeFsPaths h paths) ->
     k = fsUtils.normalizeCacheKey h p /\
     exists raw, In raw paths /\ p = JS.trim raw /\ JS.truthy p = true) /\
  (forall raw, In raw paths -> JS.truthy (JS.trim raw) = true ->
     In (fsUtils.normalizeCacheKey h (JS.trim raw)) (map snd (normalizeFsPaths h paths))) /\
  NoDup (map snd (normalizeFsPaths h paths)).
Proof.
  unfold normalizeFsPaths.
  destruct (normalizeFrom_spec paths [] []) as (more & -> & Hk & Hc & Hd); [reflexivity|].
  cbn [app] in *. split; [exact Hk|]. split; [exact Hc|]. apply Hd. constructor.
Qed.

Lemma entryOf_stored p : keyed h p -> entryOf h (stored p) = Some p.
Proof. intros Hp. destruct p as [f k a]. unfold keyed in Hp. cbn in *. now rewrite Hp. Qed.

Lemma getAll_stored pins :
  Forall (keyed h) pins -> getAll h (Some (JArr (map stored pins))) = pins.
Proof.
  intros H. cbn [getAll]. induction H as [|p pins Hp _ IH]; [reflexivity|].
  cbn [map omap list_omap]. rewrite entryOf_stored by exact Hp.
  cbn. f_equal. exact IH.
Qed.

Lemma entryOf_keyed x p : entryOf h x = Some p -> keyed h p.
Proof.
  destruct x as [| | | | |m]; try discriminate. cbn.
  destruct (lastBinding "fsPath" m) as [[]|]; try discriminate.
  destruct (lastBinding "pinnedAt" m) as [[]|]; try discriminate.
  intros [= <-]. reflexivity.
Qed.

Lemma getAll_keyed raw : Forall (keyed h) (getAll h raw).
Proof.
  destruct raw as [[| | | |items|]|]; try constructor. cbn [getAll].
  induction items as [|x items IH]; [constructor|].
  cbn [omap list_omap]. destruct (entryOf h x) eqn:Hx; [|exact IH].
  constructor; [eapply entryOf_keyed, Hx|exact IH].
Qed.

Lemma isPinned_In raw q :
  isPinned h raw q = true <->
  In (fsUtils.normalizeCacheKey h q) (map pinCacheKey (getAll h raw)).
Proof.
  unfold isPinned. rewrite existsb_exists, in_map_iff. split.
  - intros (p & Hp & He). apply String.eqb_eq in He. eauto.
  - intros (p & He & Hp). exists p. split; [exact Hp|]. now apply String.eqb_eq.
Qed.

Lemma toAddFrom_keys existing base i normalized :
  map pinCacheKey (toAddFrom existing base i normalized)
  = List.filter (fun k => negb (JS.has k existing)) (map snd normalized).
Proof.
  revert i. induction normalized as [|[p k] l IH]; intros i; [reflexivity|].
  cbn [toAddFrom map List.filter snd]. destruct (JS.has k existing); cbn [negb].
  - apply IH.
  - cbn [map pinCacheKey]. f_equal. apply IH.
Qed.

Lemma toAddFrom_keyed existing base i normalized :
  (forall p k, In (p, k) normalized -> k = fsUtils.normalizeCacheKey h p) ->
  Forall (keyed h) (toAddFrom existing base i normalized).
Proof.
  revert i. induction normalized as [|[p k] l IH]; intros i Hn; [constructor|].
  cbn [toAddFrom]. assert (Hl : forall p k, In (p, k) l -> k = fsUtils.normalizeCacheKey h p)
    by (intros; apply Hn; now right).
  destruct (JS.has k existing); [now apply IH|].
  constructor; [|now apply IH]. unfold keyed. cbn. apply Hn. now left.
Qed.

(** The pins after [pinMany]: the pins before, then the new ones. *)
Lemma pinMany_getAll raw now paths :
  getAll h (memento (pinMany h raw now paths))
  = getAll h raw ++
    (if Nat.eqb (length (normalizeFsPaths h paths)) 0 then []
     else toAddFrom (JS.setOf (map pinCacheKey (getAll h raw))) now 0
                    (normalizeFsPaths h paths)).
Proof.
  unfold pinMany. destruct (Nat.eqb _ 0); cbn [memento]; [now rewrite app_nil_r|].
  destruct (toAddFrom _ _ _ _) as [|e l] eqn:Ha; cbn [length Nat.ltb Nat.leb].
  - now rewrite app_nil_r.
  - rewrite getAll_stored; [reflexivity|]. apply Forall_app. split; [apply getAll_keyed|].
    rewrite <- Ha. apply toAddFrom_keyed. intros p k Hp.
    now destruct (normalizeFsPaths_spec paths) as (Hk & _); destruct (Hk p k Hp).
Qed.

Lemma normalized_nonempty paths p :
  In p paths -> JS.truthy (JS.trim p) = true ->
  Nat.eqb (length (normalizeFsPaths h paths)) 0 = false.
Proof.
  intros Hp Ht. destruct (normalizeFsPaths_spec paths) as (_ & Hc & _).
  specialize (Hc p Hp Ht). destruct (normalizeFsPaths h paths); [contradiction|reflexivity].
Qed.

End PinFacts.

(** X9: [pinMany]: every path of the batch that is not blank is pinned
    afterwards, and so is every path that was pinned before. *)
Theorem pinMany_pins (h : Host) (raw : option JSON) (now : Z) (paths : list string) :
  (forall p, In p paths -> JS.truthy (JS.trim p) = true ->
     pinStore.isPinned h (pinStore.memento (pinStore.pinMany h raw now paths)) (JS.trim p)
     = true) /\
  (forall q, pinStore.isPinned h raw q = true ->
     pinStore.isPinned h (pinStore.memento (pinStore.pinMany h raw now paths)) q = true).
Proof.
  split.
  - intros p Hp Ht. apply isPinned_In. rewrite pinMany_getAll.
    rewrite (normalized_nonempty h paths p Hp Ht).
    rewrite map_app, in_app_iff, toAddFrom_keys.
    destruct (normalizeFsPaths_spec h paths) as (_ & Hc & _). specialize (Hc p Hp Ht).
    set (k := fsUtils.normalizeCacheKey h (JS.trim p)) in *.
    destruct (JS.has k (JS.setOf (map pinStore.pinCacheKey (pinStore.getAll h raw)))) eqn:Hk.
    + left. apply setOf_In, has_In, Hk.
    + right. apply filter_In. split; [exact Hc|]. now rewrite Hk.
  - intros q Hq. apply isPinned_In. apply isPinned_In in Hq.
    rewrite pinMany_getAll, map_app, in_app_iff. now left.
Qed.

(** X10: [pinMany]: the counts are those of the batch, [pinned] paths are
    added to the pins, and no cache key is pinned twice if none was
    before. *)
Theorem pinMany_counts (h : Host) (raw : option JSON) (now : Z) (paths : list string) :
  0 <= pinStore.changed (pinStore.pinMany h raw now paths) /\
  0 <= pinStore.skipped (pinStore.pinMany h raw now paths) /\
  pinStore.changed (pinStore.pinMany h raw now paths)
  + pinStore.skipped (pinStore.pinMany h raw now paths)
  = Z.of_nat (length (pinStore.normalizeFsPaths h paths)) /\
  Z.of_nat (length (pinStore.getAll h (pinStore.memento (pinStore.pinMany h raw now paths))))
  = Z.of_nat (length (pinStore.getAll h raw))
    + pinStore.changed (pinStore.pinMany h raw now paths) /\
  (NoDup (map pinStore.pinCacheKey (pinStore.getAll h raw)) ->
   NoDup (map pinStore.pinCacheKey
              (pinStore.getAll h (pinStore.memento (pinStore.pinMany h raw now paths))))).
Proof.
  rewrite pinMany_getAll. unfold pinStore.pinMany.
  destruct (Nat.eqb_spec (length (pinStore.normalizeFsPaths h paths)) 0) as [H0|H0];
    cbn [pinStore.changed pinStore.skipped].
  - rewrite H0, app_nil_r. repeat split; auto; lia.
  - set (existing := JS.setOf _).
    assert (Hlen : (length (pinStore.toAddFrom existing now 0 (pinStore.normalizeFsPaths h paths))
                    <= length (pinStore.normalizeFsPaths h paths))%nat).
    { rewrite <- (length_map pinStore.pinCacheKey), toAddFrom_keys.
      rewrite <- (length_map snd (pinStore.normalizeFsPaths h paths)).
      apply List.filter_length_le. }
    rewrite length_app. repeat split; try lia.
    intros Hnd. rewrite map_app, toAddFrom_keys. apply NoDup_app. split; [exact Hnd|].
    split.
    + intros k Hk1 Hk2. apply list_elem_of_In in Hk1, Hk2. apply filter_In in Hk2 as [_ Hk2].
      apply negb_true_iff, has_false in Hk2. apply Hk2. unfold existing.
      now apply setOf_In.
    + apply NoDup_List_filter.
      now destruct (normalizeFsPaths_spec h paths) as (_ & _ & Hd).
Qed.

Section UnpinFacts.
Context (h : Host).
Import pinStore.

Lemma List_filter_all {A} (f : A -> bool) (l : list A) :
  (forall x, In x l -> f x = true) -> List.filter f l = l.
Proof.
  induction l as [|x l IH]; intros H; [reflexivity|]. cbn [List.filter].
  rewrite (H x) by now left. f_equal. apply IH. intros y Hy. apply H. now right.
Qed.

Lemma List_filter_keyed f pins : Forall (keyed h) pins -> Forall (keyed h) (List.filter f pins).
Proof.
  induction 1 as [|p l Hp _ IH]; cbn [List.filter]; [constructor|].
  destruct (f p); [now constructor|exact IH].
Qed.

(** The pins after [unpinMany]: the pins before without those of the
    batch. *)
Lemma unpinMany_getAll raw paths :
  getAll h (memento (unpinMany h raw paths))
  = List.filter (fun p => negb (JS.has (pinCacheKey p) (map snd (normalizeFsPaths h paths))))
                (getAll h raw).
Proof.
  unfold unpinMany.
  destruct (Nat.eqb_spec (length (normalizeFsPaths h paths)) 0) as [H0|H0]; cbn [memento].
  - destruct (normalizeFsPaths h paths); [|discriminate H0]. cbn.
    symmetry. apply List_filter_all. reflexivity.
  - set (removeKeys := JS.setOf (map snd (normalizeFsPaths h paths))).
    set (beforeKeys := JS.setOf (map pinCacheKey (getAll h raw))).
    assert (Hsame : List.filter (fun p => negb (JS.has (pinCacheKey p) removeKeys)) (getAll h raw)
                    = List.filter (fun p => negb (JS.has (pinCacheKey p)
                                                   (map snd (normalizeFsPaths h paths))))
                                  (getAll h raw)).
    { apply filter_ext. intros p. unfold removeKeys. now rewrite has_setOf. }
    destruct (Z.ltb_spec 0 (Z.of_nat (length (List.filter (fun k => JS.has k beforeKeys) removeKeys))))
      as [Hpos|Hzero].
    + rewrite getAll_stored; [exact Hsame|]. apply List_filter_keyed, getAll_keyed.
    + rewrite <- Hsame. symmetry. apply List_filter_all. intros p Hp.
      apply negb_true_iff, has_false. intros Hin.
      assert (Hk : In (pinCacheKey p) (List.filter (fun k => JS.has k beforeKeys) removeKeys)).
      { apply filter_In. split; [exact Hin|]. apply has_In, setOf_In, in_map, Hp. }
      destruct (List.filter _ removeKeys); [contradiction|]. cbn in Hzero. lia.
Qed.

End UnpinFacts.

(** X11: [unpinMany]: no path of the batch that is not blank is pinned
    afterwards, and a path whose cache key is not among those of the batch
    is pinned exactly if it was before. *)
Theorem unpinMany_unpins (h : Host) (raw : option JSON) (paths : list string) :
  (forall p, In p paths -> JS.truthy (JS.trim p) = true ->
     pinStore.isPinned h (pinStore.memento (pinStore.unpinMany h raw paths)) (JS.trim p)
     = false) /\
  (forall q,
     (forall p, In p paths -> JS.truthy (JS.trim p) = true ->
        fsUtils.normalizeCacheKey h (JS.trim p) <> fsUtils.normalizeCacheKey h q) ->
     pinStore.isPinned h (pinStore.memento (pinStore.unpinMany h raw paths)) q
     = pinStore.isPinned h raw q).
Proof.
  destruct (normalizeFsPaths_spec h paths) as (Hk & Hc & _).
  split.
  - intros p Hp Ht.
    destruct (pinStore.isPinned h _ (JS.trim p)) eqn:Hpin; [|reflexivity].
    apply isPinned_In in Hpin. rewrite unpinMany_getAll in Hpin.
    apply in_map_iff in Hpin as (e & He & Hin). apply filter_In in Hin as [_ Hin].
    apply negb_true_iff, has_false in Hin. exfalso. apply Hin. rewrite He. now apply Hc.
  - intros q Hq. unfold pinStore.isPinned. rewrite unpinMany_getAll.
    induction (pinStore.getAll h raw) as [|e l IH]; [reflexivity|].
    cbn [List.filter existsb].
    destruct (JS.has (pinStore.pinCacheKey e) _) eqn:Hin; cbn [negb existsb].
    + rewrite IH. destruct (String.eqb_spec (pinStore.pinCacheKey e)
                                            (fsUtils.normalizeCacheKey h q)) as [He|He];
        [|reflexivity].
      exfalso. apply has_In, in_map_iff in Hin as ([p k] & Hsnd & Hpk). cbn in Hsnd. subst k.
      destruct (Hk p _ Hpk) as (Hkey & raw' & Hraw & -> & Ht).
      apply (Hq raw' Hraw Ht). congruence.
    + now rewrite IH.
Qed.

(** * Discovery of the session logs *)

Section DiscoveryFacts.
Context (pf : Platform).
Import sessionDiscovery.
Hypothesis join_truthy : forall dir name, JS.truthy (path_join pf dir name) = true.

Lemma scanEntries_spec dir entries stack results :
  exists pushed found,
    scanEntries pf dir entries stack results = (pushed ++ stack, results ++ found) /\
    Permutation (flat_map (sessionFilesBelow pf dir) entries)
                (found ++ flat_map (frameFiles pf) pushed) /\
    list_sum (map directories entries) = list_sum (map frameDirs pushed) /\
    Forall (fun fr => JS.truthy (fst fr) = true) pushed.
Proof.
  revert stack results. induction entries as [|ent rest IH]; intros stack results.
  - exists [], []. cbn. rewrite app_nil_r. repeat split; constructor.
  - cbn [scanEntries flat_map].
    change (list_sum (map directories (ent :: rest)))
      with (directories ent + list_sum (map directories rest))%nat.
    destruct ent as [name|name|name sub].
    + cbn [sessionFilesBelow directories]. unfold isSessionFile.
      destruct (JS.startsWith "rollout-" name); cbn [negb andb];
        [destruct (JS.endsWith ".jsonl" name); cbn [negb]|].
      * destruct (IH stack (results ++ [path_join pf dir name]))
          as (pushed & found & Heq & Hp & Hd & Ht).
        exists pushed, (path_join pf dir name :: found).
        rewrite Heq, <- app_assoc. split; [reflexivity|]. split; [|auto].
        cbn. now constructor.
      * destruct (IH stack results) as (pushed & found & Heq & Hp & Hd & Ht).
        exists pushed, found. auto.
      * destruct (IH stack results) as (pushed & found & Heq & Hp & Hd & Ht).
        exists pushed, found. auto.
    + destruct (IH stack results) as (pushed & found & Heq & Hp & Hd & Ht).
      exists pushed, found. auto.
    + destruct (IH ((path_join pf dir name, sub) :: stack) results)
        as (pushed & found & Heq & Hp & Hd & Ht).
      exists (pushed ++ [(path_join pf dir name, sub)]), found.
      rewrite <- app_assoc. split; [exact Heq|]. split; [|split].
      * rewrite flat_map_app. cbn [flat_map]. rewrite app_nil_r.
        change (frameFiles pf (path_join pf dir name, sub))
          with (sessionFilesBelow pf dir (DirNode name sub)).
        rewrite Hp. rewrite (Permutation_app_comm (flat_map _ pushed)).
        rewrite !app_assoc. apply Permutation_app_tail, Permutation_app_comm.
      * rewrite map_app, list_sum_app.
        change (list_sum (map frameDirs [(path_join pf dir name, sub)]))
          with (directories (DirNode name sub) + 0)%nat.
        lia.
      * apply Forall_app. split; [exact Ht|]. constructor; [apply join_truthy|constructor].
Qed.

Lemma walk_spec fuel stack results :
  (list_sum (map frameDirs stack) <= fuel)%nat ->
  Forall (fun fr => JS.truthy (fst fr) = true) stack ->
  exists files,
    walk pf fuel stack results = Some files /\
    Permutation files (results ++ flat_map (frameFiles pf) stack).
Proof.
  revert stack results. induction fuel as [|fuel IH]; intros stack results Hf Ht.
  - destruct stack as [|[dir sub] below].
    + exists results. cbn. now rewrite app_nil_r.
    + change (list_sum (map frameDirs ((dir, sub) :: below)))
        with (frameDirs (dir, sub) + list_sum (map frameDirs below))%nat in Hf.
      unfold frameDirs in Hf. cbn [fst snd directories] in Hf. destruct sub; lia.
  - destruct stack as [|[dir sub] below].
    + exists results. cbn. now rewrite app_nil_r.
    + cbn [walk]. apply Forall_cons in Ht as [Hd Ht]. cbn [fst] in Hd. rewrite Hd.
      cbn [negb].
      change (list_sum (map frameDirs ((dir, sub) :: below)))
        with (frameDirs (dir, sub) + list_sum (map frameDirs below))%nat in Hf.
      destruct sub as [entries|].
      * destruct (scanEntries_spec dir entries below results)
          as (pushed & found & Heq & Hp & Hdirs & Htr).
        rewrite Heq.
        destruct (IH (pushed ++ below) (results ++ found)) as (files & Hw & Hperm).
        { rewrite map_app, list_sum_app, <- Hdirs.
          change (frameDirs (dir, Some entries)) with (S (list_sum (map directories entries)))
            in Hf. lia. }
        { apply Forall_app. now split. }
        exists files. split; [exact Hw|]. rewrite Hperm, flat_map_app.
        cbn [flat_map]. change (frameFiles pf (dir, Some entries))
          with (flat_map (sessionFilesBelow pf dir) entries).
        rewrite Hp, <- !app_assoc. reflexivity.
      * change (frameDirs (dir, None)) with 1%nat in Hf.
        destruct (IH below results) as (files & Hw & Hperm); [lia|exact Ht|].
        exists files. split; [exact Hw|]. exact Hperm.
Qed.

End DiscoveryFacts.

(** X12: [findSessionFiles]: a root that does not exist or cannot be read gives
    no file; otherwise the walk ends and returns, each once, the session
    logs in and below the root that it can reach through directories that
    can be read. *)
Theorem findSessionFiles_finds (pf : Platform) (root : string)
        (entries : list sessionDiscovery.Node) :
  (forall e, sessionDiscovery.findSessionFiles pf root false e = Some []) /\
  sessionDiscovery.findSessionFiles pf root true None = Some [] /\
  (JS.truthy root = true ->
   (forall dir name, JS.truthy (path_join pf dir name) = true) ->
   exists files,
     sessionDiscovery.findSessionFiles pf root true (Some entries) = Some files /\
     Permutation files (flat_map (sessionFilesBelow pf root) entries)).
Proof.
  split; [reflexivity|]. split.
  - unfold sessionDiscovery.findSessionFiles. cbn. now destruct (JS.truthy root).
  - intros Hroot Hjoin. unfold sessionDiscovery.findSessionFiles. cbn [negb].
    destruct (walk_spec pf Hjoin (S (sessionDiscovery.directories
                                       (sessionDiscovery.DirNode root (Some entries))))
                        [(root, Some entries)] []) as (files & Hw & Hp).
    + change (list_sum (map frameDirs [(root, Some entries)]))
        with (sessionDiscovery.directories (sessionDiscovery.DirNode root (Some entries)) + 0)%nat.
      lia.
    + constructor; [exact Hroot|constructor].
    + exists files. split; [exact Hw|]. cbn [flat_map app] in Hp.
      rewrite app_nil_r in Hp. exact Hp.
Qed.

(** * The numbers of the messages *)

Section BlankFacts.

Lemma forallb_rev {A} (p : A -> bool) l : forallb p (rev l) = forallb p l.
Proof.
  induction l as [|x l IH]; [reflexivity|]. cbn. rewrite forallb_app, IH. cbn.
  rewrite andb_true_r. apply andb_comm.
Qed.

Lemma dropWhile_allSpace l :
  forallb JS.isSpace (JS.dropWhile JS.isSpace l) = forallb JS.isSpace l.
Proof.
  induction l as [|c l IH]; [reflexivity|]. cbn. destruct (JS.isSpace c) eqn:Hc; [exact IH|].
  cbn. now rewrite Hc.
Qed.

Lemma dropWhile_head l c m :
  JS.dropWhile JS.isSpace l = c :: m -> JS.isSpace c = false.
Proof.
  induction l as [|x l IH]; [discriminate|]. cbn.
  destruct (JS.isSpace x) eqn:Hx; [exact IH|]. now intros [= <- _].
Qed.

Lemma trimL_blank l :
  match JS.trimL l with [] => true | _ => false end = forallb JS.isSpace l.
Proof.
  change (JS.trimL l) with (JS.trimEndL (JS.dropWhile JS.isSpace l)).
  rewrite <- (dropWhile_allSpace l).
  destruct (JS.dropWhile JS.isSpace l) as [|c m] eqn:Hd; [reflexivity|].
  pose proof (dropWhile_head l c m Hd) as Hc.
  destruct (trimEndL_head c m Hc) as (m' & ->). cbn. now rewrite Hc.
Qed.

Lemma truthy_str l : JS.truthy (JS.str l) = match l with [] => false | _ => true end.
Proof. now destruct l. Qed.

Lemma trim_truthy s : JS.truthy (JS.trim s) = negb (forallb JS.isSpace (JS.chars s)).
Proof.
  unfold JS.trim. rewrite truthy_str, <- trimL_blank. now destruct (JS.trimL _).
Qed.

Lemma crlfToLf_allSpace l :
  forallb JS.isSpace (JS.crlfToLf l) = forallb JS.isSpace l.
Proof.
  assert (H : forall n l, (length l <= n)%nat ->
                          forallb JS.isSpace (JS.crlfToLf l) = forallb JS.isSpace l).
  { clear l. induction n as [|n IH]; intros l Hl.
    - destruct l; [reflexivity|cbn in Hl; lia].
    - destruct l as [|c [|d r]]; [reflexivity|reflexivity|].
      change (JS.crlfToLf (c :: d :: r))
        with (if Ascii.eqb c JS.CR && Ascii.eqb d JS.LF then JS.LF :: JS.crlfToLf r
              else c :: JS.crlfToLf (d :: r)).
      cbn [length] in Hl.
      destruct (Ascii.eqb_spec c JS.CR) as [->|Hc]; cbn [andb].
      + destruct (Ascii.eqb_spec d JS.LF) as [->|Hd].
        * cbn [forallb]. rewrite IH by lia. reflexivity.
        * cbn [forallb]. rewrite IH by (cbn [length]; lia). reflexivity.
      + cbn [forallb]. rewrite IH by (cbn [length]; lia). reflexivity. }
  now apply (H (length l)).
Qed.

Lemma crToLf_allSpace l : forallb JS.isSpace (JS.crToLf l) = forallb JS.isSpace l.
Proof.
  unfold JS.crToLf. induction l as [|c l IH]; [reflexivity|].
  cbn [map forallb]. rewrite IH. f_equal.
  destruct (Ascii.eqb_spec c JS.CR) as [->|]; reflexivity.
Qed.

Lemma dropBlanksBeforeLf_allSpace pend l :
  forallb JS.isSpace pend = true ->
  forallb JS.isSpace (JS.dropBlanksBeforeLf pend l) = forallb JS.isSpace l.
Proof.
  revert pend. induction l as [|c l IH]; intros pend Hp; cbn [JS.dropBlanksBeforeLf].
  - now rewrite forallb_rev.
  - destruct (Ascii.eqb c JS.SP || Ascii.eqb c JS.TAB) eqn:Hb.
    + assert (Hc : JS.isSpace c = true).
      { apply orb_true_iff in Hb as [H|H]; apply Ascii.eqb_eq in H; now subst. }
      rewrite IH by (cbn; now rewrite Hc). cbn. now rewrite Hc.
    + destruct (Ascii.eqb_spec c JS.LF) as [->|Hc].
      * cbn [forallb]. now rewrite IH.
      * rewrite forallb_app, forallb_rev, Hp. cbn [forallb andb]. now rewrite IH.
Qed.

Lemma squeezeLf_allSpace k l :
  forallb JS.isSpace (JS.squeezeLf k l) = forallb JS.isSpace l.
Proof.
  assert (He : forall n, forallb JS.isSpace (JS.emitLf n) = true).
  { intros n. unfold JS.emitLf. apply forallb_forall. intros x Hx.
    apply repeat_spec in Hx. now subst. }
  revert k. induction l as [|c l IH]; intros k; cbn [JS.squeezeLf].
  - apply He.
  - destruct (Ascii.eqb_spec c JS.LF) as [->|Hc].
    + rewrite IH. reflexivity.
    + rewrite forallb_app, He. cbn [forallb andb]. now rewrite IH.
Qed.

(** A text is blank for [normalizeWhitespace] exactly when it is blank for
    [normalizeText]: when it holds white space only. *)
Lemma normalize_blank_agree s :
  JS.truthy (textUtils.normalizeWhitespace s) = JS.truthy (chatModelBuilder.normalizeText s).
Proof.
  unfold textUtils.normalizeWhitespace, chatModelBuilder.normalizeText, textUtils.unixNewlines.
  rewrite !trim_truthy, !chars_str.
  rewrite squeezeLf_allSpace, dropBlanksBeforeLf_allSpace by reflexivity.
  now rewrite crToLf_allSpace.
Qed.

End BlankFacts.

Section NumberFacts.
Context (h : Host).

Lemma roleOf_chatRoleOf v :
  chatTypes.roleOf v =
  match sessionSummary.chatRoleOf v with
  | Some user => Some chatTypes.user
  | Some assistant => Some chatTypes.assistant
  | None => if isStr "developer" v then Some chatTypes.developer else None
  end.
Proof.
  unfold chatTypes.roleOf, sessionSummary.chatRoleOf.
  destruct (isStr "user" v); [reflexivity|]. now destruct (isStr "assistant" v).
Qed.

Lemma numberedItems_app a b : numberedItems (a ++ b) = numberedItems a ++ numberedItems b.
Proof. apply omap_app. Qed.

Lemma numberedItems_withOutput items i tool out ts :
  items !! i = Some tool ->
  numberedItems (<[i := chatModelBuilder.withOutput tool out ts]> items) = numberedItems items.
Proof.
  revert i. induction items as [|x items IH]; intros i Hi; [reflexivity|].
  destruct i as [|i]; cbn in Hi |- *.
  - injection Hi as ->. unfold numberedItems. cbn [omap list_omap].
    now destruct tool.
  - unfold numberedItems in *. cbn [omap list_omap]. now rewrite IH.
Qed.

(** What one line does to the numbered messages and to the counter. *)
Lemma timelineOfLine_numbers st line :
  numberedItems (chatModelBuilder.timelineItems (chatModelBuilder.timelineOfLine h st line))
  = numberedItems (chatModelBuilder.timelineItems st) ++
    numberedFrom (chatModelBuilder.messageIndex st)
                 (searchable h [line]) /\
  chatModelBuilder.messageIndex (chatModelBuilder.timelineOfLine h st line)
  = chatModelBuilder.messageIndex st +
    match searchService.messageOfLine h line with Some _ => 1 | None => 0 end.
Proof.
  unfold searchable. cbn [omap list_omap].
  unfold chatModelBuilder.timelineOfLine, searchService.messageOfLine.
  destruct (negb (JS.truthy line)); [cbn; rewrite app_nil_r; split; [reflexivity|lia]|].
  destruct (JSON_parse h line) as [o|]; [|cbn; rewrite app_nil_r; split; [reflexivity|lia]].
  unfold chatModelBuilder.timelineStep.
  destruct (isStr "response_item" (prop "type" (Some o))); cbn [negb andb];
    [|cbn; rewrite app_nil_r; split; [reflexivity|lia]].
  destruct (isStr "message" (prop "type" (prop "payload" (Some o)))) eqn:Hm; cbn [negb].
  - rewrite roleOf_chatRoleOf, normalize_blank_agree.
    destruct (sessionSummary.chatRoleOf _) as [[]|].
    + destruct (JS.truthy (chatModelBuilder.normalizeText _)); cbn [negb];
        [|cbn; rewrite app_nil_r; split; [reflexivity|lia]].
      cbn. rewrite numberedItems_app. split; reflexivity.
    + destruct (JS.truthy (chatModelBuilder.normalizeText _)); cbn [negb];
        [|cbn; rewrite app_nil_r; split; [reflexivity|lia]].
      cbn. rewrite numberedItems_app. split; reflexivity.
    + destruct (isStr "developer" _); [|cbn; rewrite app_nil_r; split; [reflexivity|lia]].
      destruct (JS.truthy (chatModelBuilder.normalizeText _)); cbn [negb];
        [|cbn; rewrite app_nil_r; split; [reflexivity|lia]].
      cbn. rewrite numberedItems_app. cbn. split; [reflexivity|lia].
  - assert (Hfc : isStr "function_call" (prop "type" (prop "payload" (Some o))) = true ->
                  isStr "message" (prop "type" (prop "payload" (Some o))) = false) by auto.
    destruct (isStr "function_call" _).
    + cbn. rewrite numberedItems_app. cbn. rewrite app_nil_r. split; [reflexivity|lia].
    + destruct (isStr "function_call_output" _);
        [|cbn; rewrite app_nil_r; split; [reflexivity|lia]].
      match goal with |- context [match ?k with Some _ => _ | None => _ end] =>
        destruct k as [i|] eqn:Hk end.
      * cbn [chatModelBuilder.timelineItems chatModelBuilder.messageIndex].
        destruct (chatModelBuilder.timelineItems st !! i) as [tool|] eqn:Hi.
        -- rewrite numberedItems_withOutput by exact Hi. cbn. rewrite app_nil_r.
           split; [reflexivity|lia].
        -- cbn. rewrite app_nil_r. split; [reflexivity|lia].
      * cbn. rewrite numberedItems_app. cbn. rewrite app_nil_r. split; [reflexivity|lia].
Qed.

Lemma numberedFrom_app from a b :
  numberedFrom from (a ++ b)
  = numberedFrom from a ++ numberedFrom (from + Z.of_nat (length a)) b.
Proof.
  revert from. induction a as [|[r t] a IH]; intros from; cbn [numberedFrom app length].
  - now rewrite Z.add_0_r.
  - rewrite IH. do 3 f_equal. lia.
Qed.

Lemma timelineOf_numbers lines st :
  numberedItems (chatModelBuilder.timelineItems
                   (fold_left (chatModelBuilder.timelineOfLine h) lines st))
  = numberedItems (chatModelBuilder.timelineItems st) ++
    numberedFrom (chatModelBuilder.messageIndex st) (searchable h lines) /\
  chatModelBuilder.messageIndex (fold_left (chatModelBuilder.timelineOfLine h) lines st)
  = chatModelBuilder.messageIndex st + Z.of_nat (length (searchable h lines)).
Proof.
  revert st. induction lines as [|line lines IH]; intros st; cbn [fold_left].
  - cbn. rewrite app_nil_r. split; [reflexivity|lia].
  - destruct (IH (chatModelBuilder.timelineOfLine h st line)) as [IH1 IH2].
    destruct (timelineOfLine_numbers st line) as [H1 H2].
    rewrite IH1, IH2, H1, H2. change (line :: lines) with ([line] ++ lines).
    unfold searchable in *. rewrite omap_app, numberedFrom_app, length_app.
    cbn [omap list_omap]. destruct (searchService.messageOfLine h line) as [[r t]|];
      cbn [app length numberedFrom]; rewrite <- ?app_assoc; cbn [app];
      split; try reflexivity; try lia.
Qed.

End NumberFacts.

(** X13: The chat view and the search number the same messages: a line moves
    the counter of the chat view exactly when the search counts it, and the
    numbered messages of the timeline are the messages that the search
    counts, in order, with the numbers from one and with their roles. *)
Theorem chat_numbers_are_search_numbers (h : Host) (lines : list string) :
  (forall st line,
     chatModelBuilder.messageIndex (chatModelBuilder.timelineOfLine h st line)
     = chatModelBuilder.messageIndex st +
       match searchService.messageOfLine h line with Some _ => 1 | None => 0 end) /\
  numberedItems (chatModelBuilder.timelineItems (chatModelBuilder.timelineOf h lines))
  = numberedFrom 0 (searchable h lines).
Proof.
  split.
  - intros st line. apply timelineOfLine_numbers.
  - unfold chatModelBuilder.timelineOf.
    destruct (timelineOf_numbers h lines
                {| chatModelBuilder.timelineItems := [];
                   chatModelBuilder.toolByCallId := ∅;
                   chatModelBuilder.messageIndex := 0 |}) as [H _].
    exact H.
Qed.

Section TranscriptFacts.
Context (h : Host) (pf : Platform).
Import transcriptRenderer.

Lemma pushField_grows label v l : exists more, pushField label v l = l ++ more.
Proof.
  unfold pushField. destruct v as [s|]; [destruct (JS.truthy s)|].
  - now eexists.
  - exists []. now rewrite app_nil_r.
  - exists []. now rewrite app_nil_r.
Qed.

(** What one line does to the array, to the counter and to the map. *)
Lemma renderLine_step st line :
  exists more,
    lines (renderLine h pf st line) = lines st ++ more /\
    match searchService.messageOfLine h line with
    | Some (role, text) =>
        msgIndex (renderLine h pf st line) = msgIndex st + 1 /\
        messageLineMap (renderLine h pf st line)
        = messageLineMap st ++ [(msgIndex st + 1, Z.of_nat (length (lines st)) + 1)] /\
        exists rest, more = headingOf (msgIndex st + 1) role text :: rest
    | None =>
        msgIndex (renderLine h pf st line) = msgIndex st /\
        messageLineMap (renderLine h pf st line) = messageLineMap st
    end.
Proof.
  assert (Hsame : exists more : list string,
             lines st = lines st ++ more /\ msgIndex st = msgIndex st /\
             messageLineMap st = messageLineMap st).
  { exists []. now rewrite app_nil_r. }
  unfold renderLine, searchService.messageOfLine.
  destruct (negb (JS.truthy line)); [exact Hsame|].
  destruct (JSON_parse h line) as [o|]; [|exact Hsame].
  unfold renderStep.
  destruct (isStr "response_item" (prop "type" (Some o))); cbn [negb]; [|exact Hsame].
  destruct (isStr "message" (prop "type" (prop "payload" (Some o)))); cbn [negb].
  - rewrite roleOf_chatRoleOf.
    destruct (sessionSummary.chatRoleOf _) as [[]|].
    + destruct (JS.truthy (textUtils.normalizeWhitespace _)); cbn [negb]; [|exact Hsame].
      cbn [lines msgIndex messageLineMap chatTypes.isUser chatTypes.isAssistant orb negb andb].
      destruct (pushField_grows "- Timestamp: " (asString (prop "timestamp" (Some o)))
                  (lines st ++ ["## [#" +:+ JS.toString (msgIndex st + 1) +:+ "] " +:+
                                capitalize (chatTypes.roleText chatTypes.user) +:+
                                (if sessionSummary.isBoilerplateUserMessage
                                      (textUtils.normalizeWhitespace
                                         (sessionSummary.buildPreviewTextParts
                                            (prop "content" (prop "payload" (Some o)))))
                                 then " (context)" else EmptyString)])) as (m & Hm).
      eexists. split; [rewrite Hm, <- !app_assoc; reflexivity|].
      split; [reflexivity|]. split; [reflexivity|]. cbn [app]. eexists. reflexivity.
    + destruct (JS.truthy (textUtils.normalizeWhitespace _)); cbn [negb]; [|exact Hsame].
      cbn [lines msgIndex messageLineMap chatTypes.isUser chatTypes.isAssistant orb negb andb].
      destruct (pushField_grows "- Timestamp: " (asString (prop "timestamp" (Some o)))
                  (lines st ++ ["## [#" +:+ JS.toString (msgIndex st + 1) +:+ "] " +:+
                                capitalize (chatTypes.roleText chatTypes.assistant) +:+
                                EmptyString])) as (m & Hm).
      eexists. split; [rewrite Hm, <- !app_assoc; reflexivity|].
      split; [reflexivity|]. split; [reflexivity|]. cbn [app]. eexists. reflexivity.
    + destruct (isStr "developer" _); [|exact Hsame].
      destruct (JS.truthy (textUtils.normalizeWhitespace _)); cbn [negb]; [|exact Hsame].
      cbn [lines msgIndex messageLineMap chatTypes.isUser chatTypes.isAssistant orb negb andb].
      match goal with |- context [pushField ?a ?b ?c] =>
        destruct (pushField_grows a b c) as (m & Hm) end.
      eexists. split; [rewrite Hm, <- !app_assoc; reflexivity|]. split; reflexivity.
  - destruct (isStr "function_call" _).
    + cbn [lines msgIndex messageLineMap].
      match goal with |- context [pushField "- Call ID: " ?b ?c] =>
        destruct (pushField_grows "- Call ID: " b c) as (m' & Hm'); rewrite Hm' end.
      match goal with |- context [pushField "- Timestamp: " ?b ?c] =>
        destruct (pushField_grows "- Timestamp: " b c) as (m & Hm); rewrite Hm end.
      destruct (formatJsonIfPossible h pf _) as [a|]; [destruct (JS.truthy a)|];
        eexists; (split; [rewrite <- !app_assoc; reflexivity|split; reflexivity]).
    + destruct (isStr "function_call_output" _); [|exact Hsame].
      cbn [lines msgIndex messageLineMap].
      match goal with |- context [if ?c then _ else _] => destruct c end.
      * eexists. split; [rewrite <- !app_assoc; reflexivity|split; reflexivity].
      * match goal with |- context [pushField "- Call ID: " ?b ?c] =>
          destruct (pushField_grows "- Call ID: " b c) as (m' & Hm'); rewrite Hm' end.
        match goal with |- context [pushField "- Timestamp: " ?b ?c] =>
          destruct (pushField_grows "- Timestamp: " b c) as (m & Hm); rewrite Hm end.
        eexists. split; [rewrite <- !app_assoc; reflexivity|split; reflexivity].
Qed.

Lemma pointsAt_grow entries more base base' e hd :
  (base <= base')%nat -> pointsAt (entries ++ more) base' e hd ->
  pointsAt (entries ++ more) base e hd.
Proof. unfold pointsAt. intros Hb (H1 & H2 & H3). repeat split; auto. lia. Qed.

Lemma rendered_map fileLines st :
  exists more added,
    lines (fold_left (renderLine h pf) fileLines st) = lines st ++ more /\
    msgIndex (fold_left (renderLine h pf) fileLines st)
    = msgIndex st + Z.of_nat (length (searchable h fileLines)) /\
    messageLineMap (fold_left (renderLine h pf) fileLines st) = messageLineMap st ++ added /\
    Forall2 (pointsAt (lines st ++ more) (length (lines st))) added
            (headingsFrom (msgIndex st) (searchable h fileLines)).
Proof.
  revert st. induction fileLines as [|line rest IH]; intros st; cbn [fold_left].
  - exists [], []. rewrite !app_nil_r. cbn. repeat split; try lia. constructor.
  - destruct (renderLine_step st line) as (m1 & Hl1 & Hstep).
    destruct (IH (renderLine h pf st line)) as (m2 & added & Hl & Hi & Hm & Hp).
    rewrite Hl1 in Hl, Hp. rewrite <- app_assoc in Hl, Hp.
    exists (m1 ++ m2). unfold searchable in *. cbn [omap list_omap].
    destruct (searchService.messageOfLine h line) as [[role text]|].
    + destruct Hstep as (Hi1 & Hm1 & rest1 & ->).
      exists ((msgIndex st + 1, Z.of_nat (length (lines st)) + 1) :: added).
      split; [exact Hl|]. split; [rewrite Hi, Hi1; cbn [length]; lia|].
      split; [rewrite Hm, Hm1, <- app_assoc; reflexivity|].
      cbn [headingsFrom]. constructor.
      * unfold pointsAt. cbn [fst snd]. split; [reflexivity|]. split; [lia|].
        replace (Z.to_nat (Z.of_nat (length (lines st)) + 1 - 1)) with (length (lines st))
          by lia.
        rewrite lookup_app_r by lia. now rewrite Nat.sub_diag.
      * rewrite Hi1 in Hp. eapply Forall2_impl; [exact Hp|].
        intros e hd. apply pointsAt_grow. rewrite length_app. lia.
    + destruct Hstep as (Hi1 & Hm1). exists added.
      split; [exact Hl|]. split; [rewrite Hi, Hi1; reflexivity|].
      split; [rewrite Hm, Hm1; reflexivity|].
      rewrite Hi1 in Hp. eapply Forall2_impl; [exact Hp|].
      intros e hd. apply pointsAt_grow. rewrite length_app. lia.
Qed.

End TranscriptFacts.

Section SplitFacts.

Lemma join_cons sep x y rest :
  JS.join sep (x :: y :: rest) = x +:+ sep +:+ JS.join sep (y :: rest).
Proof. reflexivity. Qed.

Lemma split_join_at pre x post :
  Forall singleLine pre -> singleLine x ->
  JS.split JS.LF (JS.join (String JS.LF EmptyString) (pre ++ x :: post)) !! length pre
  = Some x.
Proof.
  intros Hpre Hx. induction Hpre as [|a pre Ha _ IH]; cbn [app length].
  - destruct post as [|y post].
    + cbn [JS.join]. unfold JS.split. rewrite splitL_no_sep by exact Hx.
      cbn. now rewrite str_chars.
    + rewrite join_cons. unfold JS.split. rewrite !chars_append.
      change (JS.chars (String JS.LF EmptyString)) with [JS.LF]. cbn [app].
      rewrite splitL_sep by exact Hx. cbn. now rewrite str_chars.
  - destruct (pre ++ x :: post) as [|y l] eqn:Hl; [now destruct pre|].
    rewrite join_cons. unfold JS.split in *. rewrite !chars_append.
    change (JS.chars (String JS.LF EmptyString)) with [JS.LF]. cbn [app].
    rewrite splitL_sep by exact Ha. cbn [lookup list_lookup]. exact IH.
Qed.

Lemma headingOf_singleLine k role text : 0 <= k -> singleLine (headingOf k role text).
Proof.
  intros Hk. unfold singleLine, headingOf. rewrite !chars_append, !forallb_app.
  destruct (toString_digits k Hk) as [Hd _].
  assert (Hn : forallb (fun c => negb (Ascii.eqb c JS.LF)) (JS.chars (JS.toString k)) = true).
  { rewrite forallb_forall in *. intros c Hc. specialize (Hd c Hc).
    destruct (Ascii.eqb_spec c JS.LF) as [->|]; [discriminate Hd|reflexivity]. }
  rewrite Hn. destruct role, (sessionSummary.isBoilerplateUserMessage text); reflexivity.
Qed.

End SplitFacts.

Lemma headingsFrom_singleLine from msgs :
  0 <= from -> Forall (fun hd => singleLine (snd hd)) (headingsFrom from msgs).
Proof.
  revert from. induction msgs as [|[role text] msgs IH]; intros from Hf; cbn [headingsFrom].
  - constructor.
  - constructor; [apply headingOf_singleLine; lia|apply IH; lia].
Qed.

Lemma rendered_line_map (h : Host) (pf : Platform) (fsPath : string)
      (meta : option SessionMetaInfo) (fileLines : list string) :
  exists entries,
    transcriptRenderer.content
      (transcriptRenderer.finish (transcriptRenderer.rendered h pf fsPath meta fileLines))
    = JS.join (String JS.LF EmptyString) entries /\
    Forall2 (headedAt
               (transcriptRenderer.content
                  (transcriptRenderer.finish
                     (transcriptRenderer.rendered h pf fsPath meta fileLines)))
               entries)
            (transcriptRenderer.lineOfMessage
               (transcriptRenderer.finish
                  (transcriptRenderer.rendered h pf fsPath meta fileLines)))
            (headingsFrom 0 (searchable h fileLines)).
Proof.
  unfold transcriptRenderer.rendered.
  set (st0 := {| transcriptRenderer.lines := transcriptRenderer.header fsPath meta;
                 transcriptRenderer.messageLineMap := [];
                 transcriptRenderer.msgIndex := 0;
                 transcriptRenderer.lastToolCallId := None |}).
  destruct (rendered_map h pf fileLines st0) as (more & added & Hl & _ & Hm & Hp).
  cbn [app] in Hm. change (transcriptRenderer.msgIndex st0) with 0 in Hp.
  unfold transcriptRenderer.finish.
  cbn [transcriptRenderer.content transcriptRenderer.lineOfMessage].
  rewrite Hm, Hl.
  set (entries := if transcriptRenderer.msgIndex _ =? 0 then _ else _).
  assert (He : exists extra, entries = (transcriptRenderer.lines st0 ++ more) ++ extra).
  { unfold entries. destruct (_ =? 0); [now eexists|]. exists []. now rewrite app_nil_r. }
  destruct He as (extra & He). clearbody entries. subst entries.
  eexists. split; [reflexivity|].
  pose proof (headingsFrom_singleLine 0 (searchable h fileLines) ltac:(lia)) as Hs.
  change (transcriptRenderer.messageLineMap st0 ++ added) with added. clear Hm Hl.
  induction Hp as [|e hd added hds (H1 & H2 & H3) _ IH]; [constructor|].
  apply Forall_cons in Hs as [Hhd Hs]. constructor; [|now apply IH].
  assert (Hlook : ((transcriptRenderer.lines st0 ++ more) ++ extra) !! Z.to_nat (snd e - 1)
                  = Some (snd hd)).
  { rewrite lookup_app_l; [exact H3|]. now apply lookup_lt_Some in H3. }
  split; [repeat split; [exact H1|lia|exact Hlook]|].
  intros Hsingle.
  pose proof (split_join_at _ _ (drop (S (Z.to_nat (snd e - 1)))
                                      ((transcriptRenderer.lines st0 ++ more) ++ extra))
                            Hsingle Hhd) as Hsp.
  rewrite take_drop_middle in Hsp by exact Hlook.
  rewrite length_take in Hsp. apply lookup_lt_Some in Hlook.
  now replace (Z.to_nat (snd e - 1) `min` length ((transcriptRenderer.lines st0 ++ more) ++ extra))%nat
    with (Z.to_nat (snd e - 1)) in Hsp by lia.
Qed.

(** X14: The line map of the transcript.  The loop of [renderTranscript]
    receives the lines of the file but the first [missed], those that the
    reader emitted while the program awaited the metadata.  The document
    is the entries of an array joined by line feeds; the map has one entry
    for each message that the search counts among the lines received,
    numbered from one among them, and the entry points at the heading of
    the message in the array.  It is the line of the document with that
    number when no entry before it holds a line feed.  When every line of
    the file is missed, the map is empty and the document is the header
    followed by the note that there are no messages. *)
Theorem transcript_line_map (h : Host) (pf : Platform) (fs : FileSys) (fsPath : string)
        (missed : nat) (t : transcriptRenderer.Transcript) :
  transcriptRenderer.renderTranscript h pf fs fsPath missed = Ok t ->
  exists text entries,
    fs_read fs fsPath = Some text /\
    transcriptRenderer.content t = JS.join (String JS.LF EmptyString) entries /\
    Forall2 (headedAt (transcriptRenderer.content t) entries)
            (transcriptRenderer.lineOfMessage t)
            (headingsFrom 0 (searchable h (skipn missed (Node.lines text)))) /\
    ((length (Node.lines text) <= missed)%nat ->
     transcriptRenderer.lineOfMessage t = [] /\
     exists meta,
       entries = transcriptRenderer.header fsPath meta
                 ++ ["(no user/assistant messages)"; EmptyString]).
Proof.
  unfold transcriptRenderer.renderTranscript. intros Hr.
  destruct (sessionSummary.tryReadSessionMeta h fs fsPath) as [meta|]; [|discriminate Hr].
  cbn in Hr. destruct (fs_read fs fsPath) as [text|]; [|discriminate Hr].
  injection Hr as <-. exists text.
  destruct (Nat.le_gt_cases (length (Node.lines text)) missed) as [Hall|Hsome].
  - rewrite skipn_all2 by exact Hall.
    exists (transcriptRenderer.header fsPath meta
            ++ ["(no user/assistant messages)"; EmptyString]).
    split; [reflexivity|]. split; [reflexivity|]. split; [constructor|].
    intros _. split; [reflexivity|]. now exists meta.
  - destruct (rendered_line_map h pf fsPath meta (skipn missed (Node.lines text)))
      as (entries & Hc & Hm).
    exists entries. split; [reflexivity|]. split; [exact Hc|]. split; [exact Hm|]. lia.
Qed.

(** * The excerpt for a resumed session *)

Section ResumeFacts.
Context (h : Host) (pf : Platform).
Import resumeContext.

Lemma shiftWhileLonger_lastN arr max : shiftWhileLonger arr max = lastN max arr.
Proof.
  unfold lastN. induction arr as [|x arr IH]; [reflexivity|].
  cbn [shiftWhileLonger]. destruct (Z.ltb_spec max (Z.of_nat (length (x :: arr)))) as [Hl|Hl].
  - rewrite IH. cbn [length] in *.
    replace (S (length arr) - Z.to_nat max)%nat with (S (length arr - Z.to_nat max)) by lia.
    reflexivity.
  - cbn [length] in *. replace (S (length arr) - Z.to_nat max)%nat with 0%nat by lia.
    reflexivity.
Qed.

Lemma lastN_lastN_app {A} n (l m : list A) : lastN n (lastN n l ++ m) = lastN n (l ++ m).
Proof.
  unfold lastN. rewrite !length_app, length_skipn.
  destruct (Nat.le_gt_cases (length l) (Z.to_nat n)) as [Hle|Hgt].
  - replace (length l - Z.to_nat n)%nat with 0%nat by lia.
    rewrite Nat.sub_0_r. reflexivity.
  - rewrite (skipn_app _ l m). rewrite (skipn_app _ (skipn _ l) m).
    rewrite skipn_skipn, length_skipn. f_equal; [f_equal; lia|f_equal; lia].
Qed.

Lemma collectLine_recent n ctx st line :
  recent (collectLine h n ctx st line)
  = match lineMessages h ctx line with
    | [] => recent st
    | ms => lastN n (recent st ++ ms)
    end.
Proof.
  unfold lineMessages, collectLine.
  destruct (negb (JS.truthy line)); [reflexivity|].
  destruct (JSON_parse h line) as [o|]; [|reflexivity].
  unfold collectStep.
  destruct (negb (isStr "response_item" _)); [reflexivity|].
  destruct (negb (isStr "message" _)); [reflexivity|].
  destruct (chatTypes.roleOf _) as [role|]; [|reflexivity].
  destruct (negb (JS.truthy _)); [reflexivity|].
  destruct (_ && negb ctx); [reflexivity|].
  destruct role; cbn [recent]; unfold pushRecent; rewrite ?shiftWhileLonger_lastN;
    reflexivity.
Qed.

Lemma collected_recent n ctx lines prev st :
  recent st = lastN n prev ->
  recent (fold_left (collectLine h n ctx) lines st)
  = lastN n (prev ++ flat_map (lineMessages h ctx) lines).
Proof.
  revert prev st. induction lines as [|line lines IH]; intros prev st Hst; cbn [fold_left flat_map].
  - now rewrite app_nil_r.
  - rewrite app_assoc. apply IH. rewrite collectLine_recent.
    destruct (lineMessages h ctx line) as [|m ms].
    + now rewrite app_nil_r.
    + now rewrite Hst, lastN_lastN_app.
Qed.

Lemma dropOldest_spec build maxChars l :
  exists dropped,
    l = dropped ++ dropOldest build maxChars l /\
    (dropped <> [] -> (4 <= length (dropOldest build maxChars l))%nat) /\
    ((4 < length (dropOldest build maxChars l))%nat ->
     JS.len (build (dropOldest build maxChars l)) <= maxChars).
Proof.
  induction l as [|x l IH]; cbn [dropOldest].
  - exists []. repeat split; [congruence|cbn; lia].
  - destruct (Z.ltb_spec maxChars (JS.len (build (x :: l)))) as [Hlong|Hfits]; cbn [andb].
    + destruct (Z.ltb_spec 4 (Z.of_nat (length (x :: l)))) as [Hmany|Hfew].
      * destruct IH as (dropped & Hl & Hd & Hf). exists (x :: dropped).
        split; [cbn; now f_equal|]. split; [|exact Hf]. intros _.
        destruct dropped as [|d ds]; [|apply Hd; discriminate].
        cbn [app] in Hl. rewrite <- Hl. cbn [length] in Hmany. lia.
      * exists []. repeat split; [congruence|]. intros H. lia.
    + exists []. repeat split; [congruence|]. intros _. exact Hfits.
Qed.

End ResumeFacts.

(** X15: [renderResumeContext]: the excerpt never has more characters than
    the limit, which lies between 2000 and 200000. *)
Theorem resume_context_fits (h : Host) (pf : Platform) (fs : FileSys) (fsPath : string)
        (options : resumeContext.ResumeRenderOptions) (out : string) :
  resumeContext.renderResumeContext h pf fs fsPath options = Ok out ->
  JS.len out <= resumeContext.clampInt (resumeContext.maxChars options) 2000 200000 25000 /\
  2000 <= resumeContext.clampInt (resumeContext.maxChars options) 2000 200000 25000 <= 200000.
Proof.
  assert (Hc : 2000 <= resumeContext.clampInt (resumeContext.maxChars options) 2000 200000 25000
               <= 200000).
  { unfold resumeContext.clampInt. destruct (resumeContext.maxChars options); lia. }
  intros H. split; [|exact Hc]. unfold resumeContext.renderResumeContext in H.
  set (M := resumeContext.clampInt (resumeContext.maxChars options) 2000 200000 25000) in *.
  destruct (sessionSummary.tryReadSessionMeta h fs fsPath) as [meta|]; [|discriminate H].
  cbn [mbind Result_bind] in H.
  destruct (fs_read fs fsPath) as [text|]; [|discriminate H].
  injection H as <-.
  match goal with |- context [if M <? JS.len ?x then _ else _] => set (o := x) end.
  destruct (Z.ltb_spec M (JS.len o)) as [Hlong|Hfits]; [|exact Hfits].
  unfold JS.len. rewrite append_length.
  pose proof (len_slice_prefix o (Z.max 0 (M - 3))) as Hs. unfold JS.len in Hs.
  rewrite Nat2Z.inj_add, Hs by (unfold JS.len in Hlong; lia). cbn. lia.
Qed.

(** X16: The messages of the excerpt: for a limit that is not negative the
    loop keeps the last [maxMessages] messages of the file; the cut to the size limit then drops messages
    from the oldest on, never below four, and stops as soon as the text
    fits. *)
Theorem resume_keeps_latest_messages (h : Host) (n : Z) (includeContext : bool)
        (fileLines : list string) (build : list resumeContext.ResumeMessage -> string)
        (maxChars : Z) :
  0 <= n ->
  resumeContext.recent (resumeContext.collected h n includeContext fileLines)
  = lastN n (flat_map (lineMessages h includeContext) fileLines) /\
  exists dropped,
    resumeContext.recent (resumeContext.collected h n includeContext fileLines)
    = dropped ++
      resumeContext.dropOldest build maxChars
        (resumeContext.recent (resumeContext.collected h n includeContext fileLines)) /\
    (dropped <> [] ->
     (4 <= length (resumeContext.dropOldest build maxChars
                     (resumeContext.recent
                        (resumeContext.collected h n includeContext fileLines))))%nat) /\
    ((4 < length (resumeContext.dropOldest build maxChars
                    (resumeContext.recent
                       (resumeContext.collected h n includeContext fileLines))))%nat ->
     JS.len (build (resumeContext.dropOldest build maxChars
                      (resumeContext.recent
                         (resumeContext.collected h n includeContext fileLines))))
     <= maxChars).
Proof.
  intros _. split; [|apply dropOldest_spec].
  unfold resumeContext.collected. apply (collected_recent h n includeContext fileLines []).
  reflexivity.
Qed.

(** * The history tree *)

Section TreeFacts.
Import historyTree.

Lemma compareKeys_total a b : compareKeys a b <= 0 \/ compareKeys b a <= 0.
Proof.
  unfold compareKeys. destruct (String.ltb a b) eqn:Hab; [|left; lia].
  rewrite (string_ltb_asym a b Hab). right. lia.
Qed.

Lemma compareKeys_trans a b c :
  compareKeys a b <= 0 -> compareKeys b c <= 0 -> compareKeys a c <= 0.
Proof.
  unfold compareKeys.
  destruct (String.ltb a b) eqn:Hab; [lia|]. destruct (String.ltb b c) eqn:Hbc; [lia|].
  rewrite (not_ltb_trans a b c Hab Hbc). lia.
Qed.

Lemma keys_In {V} (m : gmap string V) k :
  In k (map fst (map_to_list m)) <-> is_Some (m !! k).
Proof.
  rewrite in_map_iff. split.
  - intros ([k' v] & <- & Hin). apply list_elem_of_In, elem_of_map_to_list in Hin. eauto.
  - intros [v Hv]. exists (k, v). split; [reflexivity|].
    now apply list_elem_of_In, elem_of_map_to_list.
Qed.

Lemma sortedKeys_In {V} (m : gmap string V) k :
  In k (sortedKeys m) <-> is_Some (m !! k).
Proof. unfold sortedKeys. now rewrite Array_sort_In, keys_In. Qed.

Lemma sortedKeys_descending {V} (m : gmap string V) : descending (sortedKeys m).
Proof.
  unfold descending, sortedKeys.
  assert (Hnd : List.NoDup (Array_sort compareKeys (map fst (map_to_list m)))).
  { eapply Permutation_NoDup; [apply Array_sort_perm|].
    apply NoDup_ListNoDup, NoDup_fst_map_to_list. }
  pose proof (Array_sort_sorted compareKeys compareKeys_total compareKeys_trans
                (map fst (map_to_list m))) as Hs.
  induction Hs as [|a l Hl IH Ha]; [constructor|].
  apply List.NoDup_cons_iff in Hnd as [Hna Hnd]. constructor; [now apply IH|].
  rewrite List.Forall_forall in *. intros b Hb. specialize (Ha b Hb).
  unfold before, compareKeys in Ha. destruct (String.ltb a b) eqn:Hab; [lia|].
  destruct (string_trichotomy a b) as [H|[->|H]]; [congruence|contradiction|exact H].
Qed.

Lemma valuesOf_In {V} (m : gmap string V) v :
  In v (valuesOf m) <-> exists k, m !! k = Some v.
Proof.
  unfold valuesOf. rewrite in_map_iff. split.
  - intros ([k v'] & <- & Hin). apply list_elem_of_In, elem_of_map_to_list in Hin. eauto.
  - intros [k Hk]. exists (k, v). split; [reflexivity|].
    now apply list_elem_of_In, elem_of_map_to_list.
Qed.

Lemma bucket_lookup idx y m d s :
  In s (historyService.bucket idx y m d) ->
  exists months days list,
    byY idx !! y = Some months /\ months !! m = Some days /\ days !! d = Some list /\
    In s list.
Proof.
  unfold historyService.bucket.
  destruct (byY idx !! y) as [months|]; cbn [default from_option Datatypes.id];
    [|rewrite lookup_empty; intros []].
  destruct (months !! m) as [days|] eqn:Hm; cbn [default from_option Datatypes.id];
    [|rewrite lookup_empty; intros []].
  destruct (days !! d) as [list|] eqn:Hd; cbn [default from_option Datatypes.id];
    [|intros []].
  intros Hs. eauto 8.
Qed.

Lemma sessionNodes_bucket h idx pins project y m d :
  sessionNodes h idx pins project y m d
  = map (fun s => SessionNode s (pinStore.isPinned h pins (fsPath s)))
        (if filtering project
         then List.filter (matchesProject h project) (historyService.bucket idx y m d)
         else historyService.bucket idx y m d).
Proof.
  unfold sessionNodes, daysOf, historyService.bucket.
  destruct (byY idx !! y) as [months|]; cbn [default from_option Datatypes.id].
  - destruct (months !! m) as [days|]; cbn [default from_option Datatypes.id]; [reflexivity|].
    rewrite lookup_empty. cbn. now destruct (filtering project).
  - rewrite !lookup_empty. cbn. rewrite lookup_empty. cbn. now destruct (filtering project).
Qed.

End TreeFacts.

(** X17: The history tree without a project filter: the years, the months of
    a year and the days of a month are those of the index, each once, in
    descending order of their keys. *)
Theorem history_tree_lists_keys_descending (h : Host) (idx : HistoryIndex)
        (pins : option JSON) (filter_ : DateScope) :
  (exists years,
     historyTree.getChildren h idx pins ScopeAll None None = map YearNode years /\
     descending years /\ forall y, In y years <-> is_Some (byY idx !! y)) /\
  (forall y months, byY idx !! y = Some months ->
     exists keys,
       historyTree.getChildren h idx pins filter_ None (Some (YearNode y))
       = map (MonthNode y) keys /\
       descending keys /\ forall m, In m keys <-> is_Some (months !! m)) /\
  (forall y m months days, byY idx !! y = Some months -> months !! m = Some days ->
     exists keys,
       historyTree.getChildren h idx pins filter_ None (Some (MonthNode y m))
       = map (DayNode y m) keys /\
       descending keys /\ forall d, In d keys <-> is_Some (days !! d)).
Proof.
  split; [|split].
  - exists (historyTree.sortedKeys (byY idx)). split; [reflexivity|].
    split; [apply sortedKeys_descending|apply sortedKeys_In].
  - intros y months Hy. exists (historyTree.sortedKeys months).
    cbn [historyTree.getChildren]. unfold historyTree.monthNodes. rewrite Hy.
    split; [reflexivity|]. split; [apply sortedKeys_descending|apply sortedKeys_In].
  - intros y m months days Hy Hm. exists (historyTree.sortedKeys days).
    cbn [historyTree.getChildren]. unfold historyTree.dayNodes, historyTree.daysOf.
    rewrite Hy, Hm.
    split; [reflexivity|]. split; [apply sortedKeys_descending|apply sortedKeys_In].
Qed.

(** X18: Every session of the index that has a day is reached in the history
    tree without filters: its year is below the root, its month below the
    year, its day below the month, and the session below the day. *)
Theorem history_tree_reaches_sessions (h : Host) (root : string)
        (summaries : list SessionSummary) (pins : option JSON)
        (s : SessionSummary) (y m d : string) :
  In s summaries -> historyService.dayKey s = Some (y, m, d) ->
  In (YearNode y)
     (historyTree.getChildren h (historyService.buildIndex root summaries) pins
        ScopeAll None None) /\
  In (MonthNode y m)
     (historyTree.getChildren h (historyService.buildIndex root summaries) pins
        ScopeAll None (Some (YearNode y))) /\
  In (DayNode y m d)
     (historyTree.getChildren h (historyService.buildIndex root summaries) pins
        ScopeAll None (Some (MonthNode y m))) /\
  In (SessionNode s (pinStore.isPinned h pins (fsPath s)))
     (historyTree.getChildren h (historyService.buildIndex root summaries) pins
        ScopeAll None (Some (DayNode y m d))).
Proof.
  intros Hs Hk.
  assert (Hb : In s (historyService.bucket (historyService.buildIndex root summaries) y m d)).
  { rewrite bucket_buildIndex, Array_sort_In. apply list_elem_of_In, list_elem_of_filter.
    split; [|now apply list_elem_of_In]. unfold inDay. now apply bool_decide_eq_true. }
  destruct (bucket_lookup _ y m d s Hb) as (months & days & list & Hy & Hm & Hd & Hin).
  cbn [historyTree.getChildren].
  unfold historyTree.yearNodes, historyTree.monthNodes, historyTree.dayNodes, historyTree.daysOf.
  rewrite Hy, Hm. cbn [negb historyTree.filtering].
  split; [apply in_map, sortedKeys_In; eauto|].
  split; [apply in_map, sortedKeys_In; eauto|].
  split; [apply in_map, sortedKeys_In; eauto|].
  rewrite sessionNodes_bucket. cbn [historyTree.filtering].
  now apply (in_map (fun s => SessionNode s (pinStore.isPinned h pins (fsPath s)))).
Qed.

(** X19: The history tree with a project filter: below a day stand the
    sessions of the day that match the project, in the order of the index,
    and a year is listed exactly when one of its sessions matches. *)
Theorem history_tree_project_filter (h : Host) (idx : HistoryIndex) (pins : option JSON)
        (filter_ : DateScope) (project : string) :
  JS.truthy project = true ->
  (forall y m d,
     historyTree.getChildren h idx pins filter_ (Some project) (Some (DayNode y m d))
     = map (fun s => SessionNode s (pinStore.isPinned h pins (fsPath s)))
           (List.filter (historyTree.matchesProject h (Some project))
                        (historyService.bucket idx y m d))) /\
  (forall y,
     In (YearNode y) (historyTree.getChildren h idx pins ScopeAll (Some project) None) <->
     exists m d s, In s (historyService.bucket idx y m d) /\
                   historyTree.matchesProject h (Some project) s = true).
Proof.
  intros Hp. split.
  - intros y m d. cbn [historyTree.getChildren]. rewrite sessionNodes_bucket.
    cbn [historyTree.filtering]. now rewrite Hp.
  - intros y. cbn [historyTree.getChildren]. unfold historyTree.yearNodes.
    cbn [historyTree.filtering]. rewrite Hp. cbn [negb].
    rewrite in_map_iff. split.
    + intros (y' & [= ->] & Hin). apply filter_In in Hin as [_ Hhas].
      destruct (byY idx !! y) as [months|] eqn:Hy; [|discriminate Hhas].
      unfold historyTree.yearHas in Hhas. apply existsb_exists in Hhas as (days & Hdays & Hhas).
      apply valuesOf_In in Hdays as [m Hm].
      unfold historyTree.monthHas in Hhas. apply existsb_exists in Hhas as (list & Hlist & Hhas).
      apply valuesOf_In in Hlist as [d Hd].
      unfold historyTree.dayHas in Hhas. apply existsb_exists in Hhas as (s & Hs & Hmatch).
      exists m, d, s. split; [|exact Hmatch].
      unfold historyService.bucket. rewrite Hy. cbn. rewrite Hm. cbn. rewrite Hd. exact Hs.
    + intros (m & d & s & Hb & Hmatch).
      destruct (bucket_lookup _ y m d s Hb) as (months & days & list & Hy & Hm & Hd & Hin).
      exists y. split; [reflexivity|]. apply filter_In. split; [apply sortedKeys_In; eauto|].
      rewrite Hy. unfold historyTree.yearHas. apply existsb_exists. exists days.
      split; [apply valuesOf_In; eauto|].
      unfold historyTree.monthHas. apply existsb_exists. exists list.
      split; [apply valuesOf_In; eauto|].
      unfold historyTree.dayHas. apply existsb_exists. eauto.
Qed.

(** * Date scopes *)

Section ScopeFacts.

Lemma dropWhile_none {A} (p : A -> bool) l :
  forallb (fun c => negb (p c)) l = true -> JS.dropWhile p l = l.
Proof.
  destruct l as [|c l]; [reflexivity|]. cbn. intros H. apply andb_true_iff in H as [Hc _].
  apply negb_true_iff in Hc. now rewrite Hc.
Qed.

Lemma trimL_nospace l :
  forallb (fun c => negb (JS.isSpace c)) l = true -> JS.trimL l = l.
Proof.
  intros H. unfold JS.trimL, JS.trimStartL, JS.trimEndL.
  rewrite (dropWhile_none _ l H), dropWhile_none, rev_involutive; [reflexivity|].
  now rewrite forallb_rev.
Qed.

Lemma trim_nospace s :
  forallb (fun c => negb (JS.isSpace c)) (JS.chars s) = true -> JS.trim s = s.
Proof. intros H. unfold JS.trim. rewrite trimL_nospace by exact H. apply str_chars. Qed.

Lemma digit_nospace c : JS.isDigit c = true -> negb (JS.isSpace c) = true.
Proof. unfold JS.isDigit, JS.isSpace. lia. Qed.

Lemma digits_nospace l :
  forallb JS.isDigit l = true -> forallb (fun c => negb (JS.isSpace c)) l = true.
Proof.
  rewrite !forallb_forall. intros H c Hc. apply digit_nospace. now apply H.
Qed.

Lemma splitL_nonempty sep l cur : JS.splitL sep l cur <> [].
Proof.
  revert cur. induction l as [|c l IH]; intros cur; cbn; [discriminate|].
  destruct (Ascii.eqb c sep); [discriminate|apply IH].
Qed.

Lemma splitL_chars sep l : forall cur,
  JS.chars (JS.join (String sep EmptyString) (JS.splitL sep l cur)) = rev cur ++ l.
Proof.
  induction l as [|c l IH]; intros cur; cbn [JS.splitL].
  - cbn [JS.join]. now rewrite chars_str, app_nil_r.
  - destruct (Ascii.eqb_spec c sep) as [->|Hne].
    + specialize (IH []). destruct (JS.splitL sep l []) as [|y rest] eqn:Hs;
        [now apply splitL_nonempty in Hs|].
      rewrite join_cons, !chars_append, IH, chars_str. reflexivity.
    + rewrite IH. cbn [rev]. now rewrite <- app_assoc.
Qed.

Lemma split_chars sep s :
  JS.chars (JS.join (String sep EmptyString) (JS.split sep s)) = JS.chars s.
Proof. unfold JS.split. now rewrite splitL_chars. Qed.

Lemma isDigits_inv n s :
  JS.isDigits n s = true -> String.length s = n /\ forallb JS.isDigit (JS.chars s) = true.
Proof.
  unfold JS.isDigits. intros H. apply andb_true_iff in H as [Hl Hd].
  now apply Nat.eqb_eq in Hl.
Qed.

Lemma isDigits_truthy n s : JS.isDigits (S n) s = true -> JS.truthy s = true.
Proof. intros H. apply isDigits_inv in H as [Hl _]. now destruct s. Qed.

Lemma isValidYyyy_trim s : dateUtils.isValidYyyy s = true -> JS.trim s = s.
Proof.
  intros H. apply isDigits_inv in H as [_ Hd]. now apply trim_nospace, digits_nospace.
Qed.

Lemma isValidYyyyMm_trim s : dateUtils.isValidYyyyMm s = true -> JS.trim s = s.
Proof.
  unfold dateUtils.isValidYyyyMm. intros H. apply trim_nospace.
  rewrite <- (split_chars "-" s).
  destruct (JS.split "-" s) as [|ys [|ms [|? ?]]]; try discriminate H.
  destruct (JS.isDigits 4 ys) eqn:Hy; [|discriminate H].
  destruct (JS.isDigits 2 ms) eqn:Hm; [|discriminate H].
  apply isDigits_inv in Hy as [_ Hy]. apply isDigits_inv in Hm as [_ Hm].
  rewrite join_cons. cbn [JS.join]. rewrite !chars_append, !forallb_app.
  rewrite (digits_nospace _ Hy), (digits_nospace _ Hm). reflexivity.
Qed.

Lemma isValidYyyyMmDd_split h pf s :
  dateUtils.isValidYyyyMmDd h pf s = true ->
  exists y m d, JS.split "-" s = [y; m; d] /\
    JS.isDigits 4 y = true /\ JS.isDigits 2 m = true /\ JS.isDigits 2 d = true.
Proof.
  unfold dateUtils.isValidYyyyMmDd. intros H.
  destruct (JS.split "-" s) as [|ys [|ms [|ds [|? ?]]]]; try discriminate H.
  destruct (JS.isDigits 4 ys) eqn:Hy; [|discriminate H].
  destruct (JS.isDigits 2 ms) eqn:Hm; [|discriminate H].
  destruct (JS.isDigits 2 ds) eqn:Hd; [|discriminate H].
  now exists ys, ms, ds.
Qed.

Lemma isValidYyyyMmDd_trim h pf s : dateUtils.isValidYyyyMmDd h pf s = true -> JS.trim s = s.
Proof.
  intros H. apply trim_nospace. rewrite <- (split_chars "-" s).
  destruct (isValidYyyyMmDd_split h pf s H) as (y & m & d & -> & Hy & Hm & Hd).
  apply isDigits_inv in Hy as [_ Hy]. apply isDigits_inv in Hm as [_ Hm].
  apply isDigits_inv in Hd as [_ Hd].
  rewrite !join_cons. cbn [JS.join]. rewrite !chars_append, !forallb_app.
  rewrite (digits_nospace _ Hy), (digits_nospace _ Hm), (digits_nospace _ Hd). reflexivity.
Qed.

Lemma sanitizeDateScope_valid h pf scope :
  validScope h pf (dateScope.sanitizeDateScope h pf scope) = true.
Proof.
  unfold dateScope.sanitizeDateScope.
  destruct (dateScope.notAnObject scope); [reflexivity|].
  destruct (isStr "all" _); [reflexivity|].
  destruct (isStr "year" _).
  { destruct (dateUtils.isValidYyyy _) eqn:Hv; [exact Hv|reflexivity]. }
  destruct (isStr "month" _).
  { destruct (dateUtils.isValidYyyyMm _) eqn:Hv; [exact Hv|reflexivity]. }
  destruct (isStr "day" _); [|reflexivity].
  destruct (dateUtils.isValidYyyyMmDd _ _ _) eqn:Hv; [exact Hv|reflexivity].
Qed.

End ScopeFacts.

(** X20: The scope that [sanitizeDateScope] returns is the scope of all dates
    or carries a value that the validator of its kind accepts, and
    sanitizing the returned object again gives the same scope. *)
Theorem sanitizeDateScope_idempotent (h : Host) (pf : Platform) (scope : option JSON) :
  validScope h pf (dateScope.sanitizeDateScope h pf scope) = true /\
  dateScope.sanitizeDateScope h pf
    (Some (scopeJson (dateScope.sanitizeDateScope h pf scope)))
  = dateScope.sanitizeDateScope h pf scope.
Proof.
  split; [apply sanitizeDateScope_valid|].
  pose proof (sanitizeDateScope_valid h pf scope) as Hv.
  destruct (dateScope.sanitizeDateScope h pf scope) as [|yyyy|ym|ymd]; cbn in Hv.
  - reflexivity.
  - change (dateScope.sanitizeDateScope h pf (Some (scopeJson (ScopeYear yyyy))))
      with (if dateUtils.isValidYyyy (JS.trim yyyy) then ScopeYear (JS.trim yyyy) else ScopeAll).
    rewrite (isValidYyyy_trim _ Hv). now rewrite Hv.
  - change (dateScope.sanitizeDateScope h pf (Some (scopeJson (ScopeMonth ym))))
      with (if dateUtils.isValidYyyyMm (JS.trim ym) then ScopeMonth (JS.trim ym) else ScopeAll).
    rewrite (isValidYyyyMm_trim _ Hv). now rewrite Hv.
  - change (dateScope.sanitizeDateScope h pf (Some (scopeJson (ScopeDay ymd))))
      with (if dateUtils.isValidYyyyMmDd h pf (JS.trim ymd) then ScopeDay (JS.trim ymd)
            else ScopeAll).
    rewrite (isValidYyyyMmDd_trim _ _ _ Hv). now rewrite Hv.
Qed.

(** X21: When the sanitized scope of a search is a day, the sessions that the
    search scans are the sessions below that day in the index whose local
    date is the day and which match the project. *)
Theorem day_scope_candidates (h : Host) (pf : Platform) (root : string)
        (summaries : list SessionSummary) (scope : option JSON) (ymd : string)
        (projectCwd : option string) :
  dateScope.sanitizeDateScope h pf scope = ScopeDay ymd ->
  exists y m d,
    JS.split "-" ymd = [y; m; d] /\
    forall s,
      In s (searchService.candidatesOf h (historyService.buildIndex root summaries)
              (dateScope.sanitizeDateScope h pf scope) projectCwd) <->
      In s (historyService.bucket (historyService.buildIndex root summaries) y m d) /\
      localDate s = ymd /\
      searchService.matchProject h s (searchService.projectOf projectCwd) = true.
Proof.
  intros Hs. pose proof (sanitizeDateScope_valid h pf scope) as Hv. rewrite Hs in *.
  cbn in Hv. destruct (isValidYyyyMmDd_split h pf ymd Hv) as (y & m & d & Hsp & Hy & Hm & Hd).
  exists y, m, d. split; [exact Hsp|]. intros s.
  unfold searchService.candidatesOf. rewrite sessions_buildIndex, bucket_buildIndex.
  rewrite Array_sort_In, <- !list_elem_of_In, !list_elem_of_filter.
  cbn [searchService.matchScope]. rewrite andb_true_iff, String.eqb_eq.
  assert (Hk : localDate s = ymd -> historyService.dayKey s = Some (y, m, d)).
  { intros Hl. unfold historyService.dayKey. rewrite Hl, Hsp.
    now rewrite (isDigits_truthy _ _ Hy), (isDigits_truthy _ _ Hm), (isDigits_truthy _ _ Hd). }
  split.
  - intros [[Hl Hp] Hin]. repeat split; try assumption.
    unfold inDay. now apply bool_decide_eq_true, Hk.
  - intros ([_ Hin] & Hl & Hp). repeat split; assumption.
Qed.

(** X22: For a session whose working directory carries no surrounding white
    space, the project filter of the history tree and the project filter
    of the search decide alike. *)
Theorem project_filters_agree (h : Host) (project : string) (s : SessionSummary) :
  match cwd (meta s) with Some c => JS.trim c = c | None => True end ->
  historyTree.matchesProject h (Some project) s
  = searchService.matchProject h s (Some project).
Proof.
  intros Hc. unfold historyTree.matchesProject, searchService.matchProject.
  destruct (JS.truthy project); [|reflexivity]. cbn [negb].
  destruct (cwd (meta s)) as [c|]; [|reflexivity]. rewrite Hc.
  destruct c; reflexivity.
Qed.

(** * Time zones *)

(** X23: When the formatter of the requested time zone cannot be used, the
    date and time of a time value are rendered by the local clock. *)
Theorem time_zone_falls_back_to_local (h : Host) (pf : Platform) (d : Z) (timeZone : string) :
  noFormatter pf timeZone d ->
  dateUtils.formatYmdHmsInTimeZone h pf d timeZone = localYmdHms h pf d /\
  dateUtils.formatTimeHmInTimeZone h pf d timeZone = dateUtils.formatTimeHmLocal h d /\
  dateUtils.toYmdInTimeZone h pf d timeZone = dateUtils.toYmdLocal h d.
Proof.
  intros Hno.
  assert (Hp : dateUtils.getYmdHmsInTimeZone h pf d timeZone = dateUtils.localParts h pf d).
  { unfold dateUtils.getYmdHmsInTimeZone, dateUtils.getDtfYmdHms.
    destruct Hno as [Ht|[Hsup|Hf]].
    - now rewrite Ht.
    - rewrite Hsup. now destruct (JS.truthy _).
    - destruct (JS.truthy _); [|reflexivity]. cbn [negb].
      destruct (Intl_supports pf _); [|reflexivity].
      unfold dateUtils.partsFromDtf. now rewrite Hf. }
  unfold dateUtils.formatYmdHmsInTimeZone, dateUtils.formatTimeHmInTimeZone,
    dateUtils.toYmdInTimeZone. rewrite Hp.
  unfold localYmdHms, dateUtils.ymdToString, dateUtils.toYmdLocal,
    dateUtils.formatTimeHmLocal, dateUtils.localParts.
  cbn [dateUtils.partsYear dateUtils.partsMonth dateUtils.partsDay dateUtils.hour
       dateUtils.minute dateUtils.second year month day].
  split; [|split; reflexivity].
  now rewrite !append_assoc.
Qed.

(** * Looking a session up by its path *)

Section LookupFacts.
Context (h : Host) (fs : FileSys).

Lemma build_cacheKey root p n s :
  sessionSummary.buildSessionSummary h fs root p n = Ok (Some s) ->
  cacheKey s = fsUtils.normalizeCacheKey h p /\ fsPath s = p.
Proof.
  unfold sessionSummary.buildSessionSummary. intros H.
  destruct (fsUtils.statSafe fs p) as [st|]; [|discriminate H].
  destruct (sessionSummary.tryReadSessionMeta h fs p) as [m|]; [|discriminate H].
  cbn in H.
  destruct (sessionSummary.readPreviewMessages h fs p n) as [pm|]; [|discriminate H].
  cbn in H. injection H as <-. split; reflexivity.
Qed.

End LookupFacts.

(** X24: After a pass over the discovered files, every file that the pass
    handed to the extractor is found by its path: [findByFsPath] returns a
    summary, and its cache key is the normalized path. *)
Theorem findByFsPath_finds_extracted (h : Host) (fs : FileSys) (config : Config)
        (dateTimeSettingsKey : string) (files : list string)
        (stored : option CacheFileV4) (forceRebuildCache : bool)
        (r : historyService.Refreshed) (p : string) :
  fsUtils.pathExists fs (sessionsRoot config) = true ->
  historyService.refresh h fs config dateTimeSettingsKey files stored forceRebuildCache
  = Ok r ->
  In p files ->
  extracted h fs
    (historyService.cachedEntriesOf config dateTimeSettingsKey stored forceRebuildCache) p
  = true ->
  exists s, historyService.findByFsPath h (historyService.index r) p = Some s /\
            cacheKey s = fsUtils.normalizeCacheKey h p.
Proof.
  intros Hroot Hr Hin Hex. unfold historyService.refresh in Hr. rewrite Hroot in Hr.
  cbn [negb] in Hr.
  destruct (historyService.reconcile _ _ _ _ _ _) as [pass|] eqn:Hrec; [|discriminate Hr].
  cbn in Hr. injection Hr as <-. cbn [historyService.index].
  unfold extracted in Hex. destruct (fs_stat fs p) as [st|] eqn:Hst; [|discriminate Hex].
  destruct (historyService.reusedEntry _ _ st) eqn:Hre; [discriminate Hex|].
  destruct (reconcile_summaries h fs config _ files _ _ p st Hrec Hin Hst) as [_ Hnew].
  destruct (Hnew Hre) as (s & Hb & Hs). apply build_cacheKey in Hb as [Hk _].
  unfold historyService.findByFsPath. rewrite sessions_buildIndex.
  destruct (find _ _) as [s'|] eqn:Hf.
  - exists s'. split; [reflexivity|]. apply List.find_some in Hf as [_ Hf].
    now apply String.eqb_eq in Hf.
  - assert (Hin' : In s (Array_sort historyService.compareSessions
                            (historyService.summaries pass))) by now apply Array_sort_In.
    pose proof (List.find_none _ _ Hf s Hin') as Hno. cbn beta in Hno.
    rewrite Hk, String.eqb_refl in Hno. discriminate Hno.
Qed.

(** * The pinned view *)

(** X25: The pinned view has one entry for each stored pin.  A pinned path
    whose session the index holds is shown as that session, under every
    spelling of the path with the same cache key; one whose session the
    index lacks is shown as a missing entry under its stored spelling. *)
Theorem pinned_view_shows_pins (h : Host) (idx : HistoryIndex) (pins : option JSON) :
  length (pinnedTree.getChildren h idx pins None) = length (pinStore.getAll h pins) /\
  forall q, pinStore.isPinned h pins q = true ->
    match historyService.findByFsPath h idx q with
    | Some s => In (SessionNode s true) (pinnedTree.getChildren h idx pins None)
    | None =>
        exists p, fsUtils.normalizeCacheKey h p = fsUtils.normalizeCacheKey h q /\
                  In (MissingPinnedNode p) (pinnedTree.getChildren h idx pins None)
    end.
Proof.
  cbn [pinnedTree.getChildren]. split.
  - rewrite length_map. symmetry. apply Permutation_length, Array_sort_perm.
  - intros q Hq. apply isPinned_In, in_map_iff in Hq as (e & He & Hin).
    pose proof (getAll_keyed h pins) as Hk. rewrite List.Forall_forall in Hk.
    specialize (Hk e Hin). unfold keyed in Hk. rewrite Hk in He.
    assert (Hf : historyService.findByFsPath h idx (pinStore.pinFsPath e)
                 = historyService.findByFsPath h idx q).
    { unfold historyService.findByFsPath. now rewrite He. }
    assert (Hs : In e (Array_sort pinnedTree.comparePins (pinStore.getAll h pins)))
      by now apply Array_sort_In.
    apply (in_map (fun p => match historyService.findByFsPath h idx (pinStore.pinFsPath p) with
                            | Some s => SessionNode s true
                            | None => MissingPinnedNode (pinStore.pinFsPath p)
                            end)) in Hs.
    cbn beta in Hs. rewrite Hf in Hs.
    destruct (historyService.findByFsPath h idx q) as [s|]; [exact Hs|].
    exists (pinStore.pinFsPath e). split; [exact He|exact Hs].
Qed.

(** * The properties at the scenarios *)

Section Scenarios.
Import Scenario.

Lemma singleLineSnippet_one_line_witness :
  exists p rest,
    onOneLine "hello   world  again" = p +:+ rest /\
    textUtils.singleLineSnippet "hello   world  again" 8 = p +:+ textUtils.ELLIPSIS /\
    JS.len p = Z.max 0 (8 - 1).
Proof.
  apply (proj2 (proj2 (proj2 (singleLineSnippet_one_line "hello   world  again" 8)))).
  vm_compute. reflexivity.
Defined.

Lemma safeDisplayPath_tail_witness :
  exists dropped kept,
    fileA = dropped +:+ kept /\
    textUtils.safeDisplayPath fileA 20 = textUtils.ELLIPSIS +:+ kept /\
    JS.len kept = Z.min (JS.len fileA) (Z.max 10 (3 * 20 / 4)).
Proof. apply (proj2 (safeDisplayPath_tail fileA 20)). vm_compute. reflexivity. Defined.

Lemma buildAround_covers_witness :
  exists a pre post b,
    "hello world" = a +:+ pre +:+ JS.slice "hello world" 6 (6 + 5) +:+ post +:+ b /\
    JS.len a = Z.max 0 (6 - 40) /\
    JS.len pre = Z.min 40 6 /\
    JS.len post = Z.min 80 (JS.len "hello world" - (6 + 5)) /\
    searchService.buildAround "hello world" 6 5 =
      (if JS.truthy a then textUtils.ELLIPSIS else EmptyString) +:+ pre +:+
      JS.slice "hello world" 6 (6 + 5) +:+ post +:+
      (if JS.truthy b then textUtils.ELLIPSIS else EmptyString).
Proof.
  apply (buildAround_covers "hello world" 6 5); [lia|lia|].
  vm_compute. discriminate.
Defined.

Lemma truncateByDisplayWidth_spec_witness :
  exists kept cp left,
    [104; 105; 12354; 12356] = kept ++ cp :: left /\
    textUtils.truncateByDisplayWidth [104; 105; 12354; 12356] 5 [46; 46; 46]
    = kept ++ [46; 46; 46] /\
    displayWidth kept <= 5 < displayWidth kept + textUtils.widthOf cp.
Proof.
  apply (proj2 (proj2 (truncateByDisplayWidth_spec [104; 105; 12354; 12356] 5 [46; 46; 46])));
    [lia|]. vm_compute. reflexivity.
Defined.

Lemma extracted_text_is_trimmed_witness :
  JS.truthy "fix the bug" = true /\ JS.trim "fix the bug" = "fix the bug".
Proof.
  apply (extracted_text_is_trimmed taskPrompt "fix the bug"). left. vm_compute. reflexivity.
Defined.

Lemma previews_bounded_witness :
  Z.of_nat (length (previewMessages summaryType)) <= Z.max 0 6 /\
  Forall (fun m => JS.truthy (text m) = true /\
                   (JS.len (text m) <= 1200 \/
                    exists q, text m = q +:+ textUtils.ELLIPSIS /\ JS.len q = 1199))
         (previewMessages summaryType).
Proof.
  apply (previews_bounded Posix.host fsType root fileA 6 summaryType).
  vm_compute. reflexivity.
Defined.

Lemma cache_of_other_settings_is_dropped_witness :
  historyService.cachedEntriesOf config6 (dateTimeSettings.getDateTimeSettingsKey utcSettings)
    (Some tokyoCache) false = ∅.
Proof.
  apply (cache_of_other_settings_is_dropped config6 utcSettings tokyoSettings tokyoCache false);
    [reflexivity|discriminate].
Defined.

Lemma pinMany_pins_witness :
  pinStore.isPinned Posix.host
    (pinStore.memento (pinStore.pinMany Posix.host None 7 [fileA; fileB])) (JS.trim fileB)
  = true.
Proof.
  apply (proj1 (pinMany_pins Posix.host None 7 [fileA; fileB])); [right; now left|].
  vm_compute. reflexivity.
Defined.

Lemma pinMany_counts_witness :
  NoDup (map pinStore.pinCacheKey
           (pinStore.getAll Posix.host
              (pinStore.memento (pinStore.pinMany Posix.host pinnedA 7 [fileA; fileB])))).
Proof.
  apply (pinMany_counts Posix.host pinnedA 7 [fileA; fileB]).
  vm_compute. apply NoDup_singleton.
Defined.

Lemma unpinMany_unpins_witness :
  pinStore.isPinned Posix.host
    (pinStore.memento (pinStore.unpinMany Posix.host pinnedA [fileA])) (JS.trim fileA)
  = false.
Proof.
  apply (proj1 (unpinMany_unpins Posix.host pinnedA [fileA])); [now left|].
  vm_compute. reflexivity.
Defined.

Lemma findSessionFiles_finds_witness :
  exists files,
    sessionDiscovery.findSessionFiles slashPlatform root true (Some rootEntries) = Some files /\
    Permutation files (flat_map (sessionFilesBelow slashPlatform root) rootEntries).
Proof.
  apply (proj2 (proj2 (findSessionFiles_finds slashPlatform root rootEntries)));
    [reflexivity|].
  intros dir name. cbn [path_join slashPlatform]. destruct dir; reflexivity.
Defined.

(** The transcript of the scenario when the reader emitted the first
    line, the [session_meta] record, before the loop started. *)
Lemma transcript_line_map_witness :
  exists t text entries,
    transcriptRenderer.renderTranscript Posix.host Posix.platform fsType fileA 1 = Ok t /\
    fs_read fsType fileA = Some text /\
    transcriptRenderer.content t = JS.join (String JS.LF EmptyString) entries /\
    Forall2 (headedAt (transcriptRenderer.content t) entries)
            (transcriptRenderer.lineOfMessage t)
            (headingsFrom 0 (searchable Posix.host (skipn 1 (Node.lines text)))).
Proof.
  destruct (transcriptRenderer.renderTranscript Posix.host Posix.platform fsType fileA 1)
    as [t|] eqn:Hr; [|vm_compute in Hr; discriminate Hr].
  destruct (transcript_line_map Posix.host Posix.platform fsType fileA 1 t Hr)
    as (text & entries & H1 & H2 & H3 & _).
  now exists t, text, entries.
Defined.

(** With no line missed the two messages of the log are numbered 1 and 2;
    with the first two lines missed the message of the assistant is the
    message number 1 of the transcript; with all three missed the map is
    empty. *)
Example transcript_lines_missed :
  lineMapAfter 0 = Some [(1, 9); (2, 13)] /\
  lineMapAfter 2 = Some [(1, 9)] /\
  lineMapAfter 3 = Some [].
Proof. repeat split; vm_compute; reflexivity. Qed.

Lemma resume_context_fits_witness :
  exists out,
    resumeContext.renderResumeContext Posix.host Posix.platform fsType fileA defaultOptions
    = Ok out /\
    JS.len out <= 25000.
Proof.
  destruct (resumeContext.renderResumeContext Posix.host Posix.platform fsType fileA
              defaultOptions) as [out|] eqn:Hr.
  - exists out. split; [reflexivity|].
    apply (resume_context_fits Posix.host Posix.platform fsType fileA defaultOptions out Hr).
  - vm_compute in Hr. discriminate Hr.
Defined.

Lemma resume_keeps_latest_messages_witness :
  resumeContext.recent (resumeContext.collected Posix.host 20 false (Node.lines typeTagged))
  = lastN 20 (flat_map (lineMessages Posix.host false) (Node.lines typeTagged)).
Proof.
  apply (resume_keeps_latest_messages Posix.host 20 false (Node.lines typeTagged)
           (fun _ => EmptyString) 0).
  lia.
Defined.

Lemma history_tree_reaches_sessions_witness :
  In (SessionNode summaryType false)
     (historyTree.getChildren Posix.host (historyService.buildIndex root [summaryType]) None
        ScopeAll None (Some (DayNode "2024" "05" "01"))).
Proof.
  apply (history_tree_reaches_sessions Posix.host root [summaryType] None summaryType
           "2024" "05" "01"); [now left|]. vm_compute. reflexivity.
Defined.

Lemma history_tree_project_filter_witness :
  In (YearNode "2024")
     (historyTree.getChildren Posix.host (historyService.buildIndex root [summaryType]) None
        ScopeAll (Some "/proj") None) <->
  exists m d s,
    In s (historyService.bucket (historyService.buildIndex root [summaryType]) "2024" m d) /\
    historyTree.matchesProject Posix.host (Some "/proj") s = true.
Proof.
  apply (proj2 (history_tree_project_filter Posix.host
                  (historyService.buildIndex root [summaryType]) None ScopeAll "/proj"
                  eq_refl)).
Defined.

Lemma day_scope_candidates_witness :
  exists y m d,
    JS.split "-" "2024-05-01" = [y; m; d] /\
    forall s,
      In s (searchService.candidatesOf Posix.host
              (historyService.buildIndex root [summaryType])
              (dateScope.sanitizeDateScope Posix.host Posix.platform mayFirst) None) <->
      In s (historyService.bucket (historyService.buildIndex root [summaryType]) y m d) /\
      localDate s = "2024-05-01" /\
      searchService.matchProject Posix.host s (searchService.projectOf None) = true.
Proof.
  apply (day_scope_candidates Posix.host Posix.platform root [summaryType] mayFirst
           "2024-05-01" None).
  vm_compute. reflexivity.
Defined.

Lemma project_filters_agree_witness :
  historyTree.matchesProject Posix.host (Some "/proj") summaryType
  = searchService.matchProject Posix.host summaryType (Some "/proj").
Proof. apply (project_filters_agree Posix.host "/proj" summaryType). reflexivity. Defined.

Lemma time_zone_falls_back_to_local_witness :
  dateUtils.formatYmdHmsInTimeZone Posix.host Posix.platform 1714557600000 "Mars/Phobos"
  = localYmdHms Posix.host Posix.platform 1714557600000 /\
  dateUtils.formatTimeHmInTimeZone Posix.host Posix.platform 1714557600000 "Mars/Phobos"
  = dateUtils.formatTimeHmLocal Posix.host 1714557600000 /\
  dateUtils.toYmdInTimeZone Posix.host Posix.platform 1714557600000 "Mars/Phobos"
  = dateUtils.toYmdLocal Posix.host 1714557600000.
Proof.
  apply (time_zone_falls_back_to_local Posix.host Posix.platform 1714557600000 "Mars/Phobos").
  right. left. vm_compute. reflexivity.
Defined.

Lemma findByFsPath_finds_extracted_witness :
  exists s,
    historyService.findByFsPath Posix.host (historyService.index refreshedFirst) fileA
    = Some s /\
    cacheKey s = fsUtils.normalizeCacheKey Posix.host fileA.
Proof.
  apply (findByFsPath_finds_extracted Posix.host fsType config6 settingsKey [fileA] None false
           refreshedFirst fileA).
  - vm_compute. reflexivity.
  - vm_compute. reflexivity.
  - now left.
  - vm_compute. reflexivity.
Defined.

Lemma pinned_view_shows_pins_witness :
  In (SessionNode summaryType true)
     (pinnedTree.getChildren Posix.host (historyService.buildIndex root [summaryType])
        pinnedA None).
Proof.
  pose proof (proj2 (pinned_view_shows_pins Posix.host
                       (historyService.buildIndex root [summaryType]) pinnedA)
                fileA eq_refl) as H.
  exact H.
Defined.

End Scenarios.
